(** * DINOv2ForMedical: evaluation utilities and the Shenzhen dataset index

    A shallow embedding of
    - [dinov2/data/datasets/shenzhen.py]       (split-aware sample index),
    - [dinov2/eval/segmentation/utils.py]      (encoder wrapper, linear decoder,
                                                postprocessor, decoder sweep),
    - [dinov2/eval/classification/utils.py]    (classifier-head dispatch),
    - the multi-label kNN head driven by [dinov2/eval/mlknn.py],
    followed by the properties established about them.

    Conventions of the embedding.
    - Python exceptions are values of [Py.exn]; a computation that may raise
      returns [Py.result].  Code that talks to the outside (the file system,
      the logger, the frozen encoder) additionally threads a trace of the
      calls it made, so that "what was invoked, and in which order" is a
      statement about the trace.
    - A tensor / ndarray is its shape together with its elements in row-major
      order.
    - Black-box collaborators (the backbone, the classifier heads, the
      convolution and the bilinear resize of torch) are functions supplied by
      the caller of the model. *)

From Stdlib Require Import String Ascii List ZArith QArith Lia Bool Arith.
From Stdlib Require Import Qabs Qround Lqa DecimalString Permutation Sorted.
Import ListNotations.
Close Scope Q_scope.
Local Open Scope list_scope.
Local Open Scope string_scope.

(* ====================================================================== *)
(** * Part I.  The embedding                                               *)
(* ====================================================================== *)

(** ** Python run-time: exceptions, results, traced computations *)

Module Py.

Inductive exn : Type :=
| ValueError (msg : string)
| IndexError (msg : string)
| KeyError (key : string)
| RuntimeError (msg : string)
| TypeError (msg : string)
| FileNotFoundError (path : string)
| UnboundLocalError (var : string)
| AttributeError (msg : string)
| ShapeError (msg : string)
| NotImplementedError (msg : string)
| ZeroDivisionError (msg : string).

Inductive result (A : Type) : Type :=
| Ok (a : A)
| Raise (e : exn).

Arguments Ok {A} a.
Arguments Raise {A} e.

Definition rbind {A B} (c : result A) (k : A -> result B) : result B :=
  match c with
  | Ok a => k a
  | Raise e => Raise e
  end.

(** A computation that leaves a trace of events of type [E]. *)
Definition M (E A : Type) : Type := list E -> result A * list E.

Definition ret {E A} (a : A) : M E A := fun tr => (Ok a, tr).

Definition raise {E A} (e : exn) : M E A := fun tr => (Raise e, tr).

Definition bind {E A B} (c : M E A) (k : A -> M E B) : M E B :=
  fun tr =>
    match c tr with
    | (Ok a, tr') => k a tr'
    | (Raise e, tr') => (Raise e, tr')
    end.

Definition lift {E A} (c : result A) : M E A := fun tr => (c, tr).

Definition emit {E} (e : E) : M E unit := fun tr => (Ok tt, (tr ++ [e])%list).

(** [[f(x) for x in xs]] for a traced [f]. *)
Fixpoint mapM {E A B} (f : A -> M E B) (xs : list A) : M E (list B) :=
  match xs with
  | [] => ret []
  | x :: xs' =>
      bind (f x) (fun y => bind (mapM f xs') (fun ys => ret (y :: ys)))
  end.

(** [[f(x) for x in xs]] for an [f] that may raise. *)
Fixpoint rmap {A B} (f : A -> result B) (xs : list A) : result (list B) :=
  match xs with
  | [] => Ok []
  | x :: xs' =>
      rbind (f x) (fun y => rbind (rmap f xs') (fun ys => Ok (y :: ys)))
  end.

(** [l[i]] on a Python list: negative indices count from the end. *)
Definition getitem {A} (l : list A) (i : Z) : result A :=
  let n := Z.of_nat (List.length l) in
  let j := if (i <? 0)%Z then (i + n)%Z else i in
  if (j <? 0)%Z then Raise (IndexError "list index out of range")
  else match nth_error l (Z.to_nat j) with
       | Some a => Ok a
       | None => Raise (IndexError "list index out of range")
       end.

(** Insertion-ordered dictionaries with string keys ([dict], [ModuleDict]). *)
Definition dict (V : Type) : Type := list (string * V).

Fixpoint dict_get {V} (d : dict V) (k : string) : result V :=
  match d with
  | [] => Raise (KeyError k)
  | (k', v) :: d' => if String.eqb k' k then Ok v else dict_get d' k
  end.

(** [d[k] = v]: an existing key keeps its position and takes the new value,
    a new key goes last. *)
Fixpoint dict_set {V} (d : dict V) (k : string) (v : V) : dict V :=
  match d with
  | [] => [(k, v)]
  | (k', v') :: d' =>
      if String.eqb k' k then (k', v) :: d' else (k', v') :: dict_set d' k v
  end.

Definition keys {V} (d : dict V) : list string := map fst d.

Definition values {V} (d : dict V) : list V := map snd d.

(** [d.update(other)] *)
Definition dict_update {V} (d other : dict V) : dict V :=
  fold_left (fun acc kv => dict_set acc (fst kv) (snd kv)) other d.

(** *** Strings *)

Definition dquote : string := String "034"%char EmptyString.

(** [s.split(sep)] for a one-character separator. *)
Fixpoint split (sep : ascii) (s : string) : list string :=
  match s with
  | EmptyString => [EmptyString]
  | String c s' =>
      if Ascii.eqb c sep then EmptyString :: split sep s'
      else match split sep s' with
           | [] => [String c EmptyString]
           | h :: t => String c h :: t
           end
  end.

(** [sep.join(parts)] *)
Fixpoint join (sep : string) (parts : list string) : string :=
  match parts with
  | [] => EmptyString
  | [p] => p
  | p :: ps => p ++ sep ++ join sep ps
  end.

(** [s.replace(a, b)] for one-character [a] and [b]. *)
Fixpoint replace (a b : ascii) (s : string) : string :=
  match s with
  | EmptyString => EmptyString
  | String c s' => String (if Ascii.eqb c a then b else c) (replace a b s')
  end.

Definition upper_char (c : ascii) : ascii :=
  let n := nat_of_ascii c in
  if (97 <=? n)%nat && (n <=? 122)%nat then ascii_of_nat (n - 32) else c.

(** [s.upper()] on ASCII text. *)
Fixpoint upper (s : string) : string :=
  match s with
  | EmptyString => EmptyString
  | String c s' => String (upper_char c) (upper s')
  end.

(** [c in s] for a character [c]. *)
Fixpoint contains (c : ascii) (s : string) : bool :=
  match s with
  | EmptyString => false
  | String c' s' => Ascii.eqb c' c || contains c s'
  end.

(** [str(n)] for an [int]. *)
Definition str_int (n : Z) : string := NilZero.string_of_int (Z.to_int n).

(** [l[:n]]: a negative [n] counts from the end. *)
Definition slice_to {A} (l : list A) (n : Z) : list A :=
  if (n <? 0)%Z then firstn (Z.to_nat (Z.of_nat (List.length l) + n)) l
  else firstn (Z.to_nat n) l.

(** [range(start, stop, step)] for a positive [step]. *)
Definition range_step (start stop step : nat) : list nat :=
  map (fun i => (start + i * step)%nat)
      (seq 0 ((stop - start + step - 1) / step)).

End Py.

Import Py.

Notation "x <- c ;; k" := (Py.bind c (fun x => k))
  (at level 61, c at next level, right associativity).
Notation "x <-- c ;; k" := (Py.rbind c (fun x => k))
  (at level 61, c at next level, right associativity).

(** ** Tensors (torch.Tensor, numpy.ndarray) *)

Module Tensor.

Record tensor (A : Type) : Type := mk { shape : list nat; data : list A }.

Arguments mk {A} shape data.
Arguments shape {A} t.
Arguments data {A} t.

Definition numel (s : list nat) : nat := fold_right Nat.mul 1 s.

(** The elements fill the shape. *)
Definition wf {A} (t : tensor A) : Prop := List.length (data t) = numel (shape t).

(** [count] consecutive blocks of [sz] elements. *)
Fixpoint chunks {A} (sz count : nat) (l : list A) : list (list A) :=
  match count with
  | O => []
  | S c => firstn sz l :: chunks sz c (skipn sz l)
  end.

Definition zip_cons {A} (xs : list A) (acc : list (list A)) : list (list A) :=
  map (fun p => fst p :: snd p) (combine xs acc).

(** Transposition of a list of rows that all have [n] entries. *)
Definition transpose {A} (n : nat) (xss : list (list A)) : list (list A) :=
  fold_right zip_cons (repeat [] n) xss.

(** [t.unsqueeze(0)] *)
Definition unsqueeze0 {A} (t : tensor A) : tensor A := mk (1 :: shape t) (data t).

(** [t.squeeze()]: every dimension of size one is dropped. *)
Definition squeeze {A} (t : tensor A) : tensor A :=
  mk (filter (fun d => negb (d =? 1)%nat) (shape t)) (data t).

(** [for row in t]: the sub-tensors along the leading dimension. *)
Definition rows {A} (t : tensor A) : result (list (tensor A)) :=
  match shape t with
  | [] => Raise (TypeError "iteration over a 0-d tensor")
  | d :: rest => Ok (map (mk rest) (chunks (numel rest) d (data t)))
  end.

Definition shape_eqb (s1 s2 : list nat) : bool :=
  if list_eq_dec Nat.eq_dec s1 s2 then true else false.

Definition tail_shape {A} (t : tensor A) : list nat := tl (shape t).

Definition lead {A} (t : tensor A) : nat := hd 0%nat (shape t).

(** [torch.cat(ts, dim=0)].  One-dimensional empty tensors are skipped, as
    torch does; the remaining tensors must agree on every dimension but the
    first. *)
Definition cat0 {A} (ts : list (tensor A)) : result (tensor A) :=
  match ts with
  | [] => Raise (RuntimeError "torch.cat(): expected a non-empty list of Tensors")
  | _ :: _ =>
      match filter (fun t => negb (shape_eqb (shape t) [0%nat])) ts with
      | [] => Ok (mk [0%nat] [])
      | t0 :: ts' =>
          if existsb (fun t => shape_eqb (shape t) []) (t0 :: ts')
          then Raise (RuntimeError "zero-dimensional tensor cannot be concatenated")
          else if forallb (fun t => shape_eqb (tail_shape t) (tail_shape t0)) ts'
          then Ok (mk (fold_right Nat.add 0%nat (map lead (t0 :: ts')) :: tail_shape t0)
                      (concat (map data (t0 :: ts'))))
          else Raise (RuntimeError "Sizes of tensors must match except in dimension 0")
      end
  end.

(** [torch.stack(ts)] (a new leading dimension). *)
Definition stack0 {A} (ts : list (tensor A)) : result (tensor A) :=
  match ts with
  | [] => Raise (RuntimeError "stack expects a non-empty TensorList")
  | t0 :: ts' =>
      if forallb (fun t => shape_eqb (shape t) (shape t0)) ts'
      then Ok (mk (List.length ts :: shape t0) (concat (map data ts)))
      else Raise (RuntimeError "stack expects each tensor to be equal size")
  end.

(** The blocks of [t] along its leading dimension, as raw element lists. *)
Definition blocks {A} (t : tensor A) : list (list A) :=
  chunks (numel (tail_shape t)) (lead t) (data t).

(** [torch.stack(ts, dim=1)] (a new second dimension). *)
Definition stack1 {A} (ts : list (tensor A)) : result (tensor A) :=
  match ts with
  | [] => Raise (RuntimeError "stack expects a non-empty TensorList")
  | t0 :: ts' =>
      if forallb (fun t => shape_eqb (shape t) (shape t0)) ts'
      then match shape t0 with
           | [] => Raise (IndexError "Dimension out of range")
           | d :: rest =>
               Ok (mk (d :: List.length ts :: rest)
                      (concat (map (@concat A) (transpose d (map blocks ts)))))
           end
      else Raise (RuntimeError "stack expects each tensor to be equal size")
  end.

(** [t.reshape(-1, h, w, c)] *)
Definition reshape_m1 {A} (t : tensor A) (h w c : nat) : result (tensor A) :=
  let n := List.length (data t) in
  let per := (h * w * c)%nat in
  if (per =? 0)%nat
  then Raise (RuntimeError "cannot reshape: unspecified dimension size -1 is ambiguous")
  else if (n mod per =? 0)%nat
  then Ok (mk [(n / per)%nat; h; w; c] (data t))
  else Raise (RuntimeError "shape is invalid for input size").

(** [t.permute(0,3,1,2)]: channels-last to channels-first. *)
Definition permute_0312 {A} (t : tensor A) : result (tensor A) :=
  match shape t with
  | [n; h; w; c] =>
      Ok (mk [n; c; h; w]
             (concat (map (fun blk => concat (transpose c (chunks c (h * w) blk)))
                          (chunks (h * w * c) n (data t)))))
  | _ => Raise (RuntimeError "permute: number of dimensions does not match")
  end.

(** The torch numerics the code relies on, over the element type [F] of
    floating-point tensors.  The model never computes with floats itself: it
    only asks whether an element is zero, compares two elements, and obtains
    the elements of a convolution's and of a bilinear resize's output from
    the backend.  [conv_elements layer out x] are the elements computed by
    the 1x1 convolution whose parameters are named [layer], with [out]
    output channels; [bilinear_elements x size] those of resizing [x] to
    [size] x [size]. *)
Class Torch (F : Type) : Type := {
  is_zero : F -> bool;
  lt : F -> F -> bool;
  conv_elements : nat -> nat -> tensor F -> list F;
  bilinear_elements : tensor F -> nat -> list F
}.

(** [torch.nn.functional.interpolate(x, size=size, mode="bilinear",
    align_corners=False)]: defined on 4-D input, it resizes the two spatial
    dimensions. *)
Definition interpolate_bilinear {F} `{Torch F} (x : tensor F) (size : nat)
  : result (tensor F) :=
  match shape x with
  | [n; c; _; _] => Ok (mk [n; c; size; size] (bilinear_elements x size))
  | _ => Raise (NotImplementedError "bilinear interpolation needs 4D input")
  end.

Fixpoint argmax_from {F} `{Torch F} (best : F) (besti i : nat) (l : list F) : nat :=
  match l with
  | [] => besti
  | x :: l' =>
      if lt best x then argmax_from x i (S i) l' else argmax_from best besti (S i) l'
  end.

(** Index of the first largest entry. *)
Definition argmax_list {F} `{Torch F} (l : list F) : Z :=
  match l with
  | [] => 0%Z
  | x :: l' => Z.of_nat (argmax_from x 0 1 l')
  end.

(** [t.argmax(dim=1)]; the result is an int64 tensor. *)
Definition argmax1 {F} `{Torch F} (t : tensor F) : result (tensor Z) :=
  match shape t with
  | n :: c :: rest =>
      if (c =? 0)%nat
      then Raise (IndexError "argmax(): Expected reduction dim 1 to have non-zero size")
      else
        let p := numel rest in
        Ok (mk (n :: rest)
               (concat (map (fun blk => map argmax_list (transpose p (chunks p c blk)))
                            (chunks (c * p) n (data t)))))
  | _ => Raise (IndexError "Dimension out of range")
  end.

(** [t.type(torch.int64)] on an integer-valued tensor: two's-complement
    wrap-around into 64 bits. *)
Definition wrap64 (z : Z) : Z := ((z + 2 ^ 63) mod 2 ^ 64 - 2 ^ 63)%Z.

(** [t.permute(2,0,1)]: a channels-last image becomes channels-first. *)
Definition permute_201 {A} (t : tensor A) : result (tensor A) :=
  match shape t with
  | [h; w; c] => Ok (mk [c; h; w] (concat (transpose c (chunks c (h * w) (data t)))))
  | _ => Raise (RuntimeError "permute: number of dimensions does not match")
  end.

End Tensor.

Import Tensor.

(** ** The outside world of the dataset index

    Directory listings and image files are read from a [World] that does not
    change while an index is built or queried; every call to [os.listdir],
    [skimage.io.imread] and to the "dinov2" logger is recorded in the trace. *)

Module IO.

Inductive level : Type := DEBUG | INFO | WARNING | ERROR | CRITICAL.

Inductive event : Type :=
| Listdir (path : string)
| Imread (path : string)
| Log (lvl : level) (msg : string).

Record World : Type := {
  fs_dirs : string -> option (list string);
  fs_images : string -> option (tensor Z)
}.

(** [os.sep] *)
Definition os_sep : string := "/".

(** [os.listdir(path)] *)
Definition listdir (w : World) (path : string) : M event (list string) :=
  _ <- emit (Listdir path) ;;
  match fs_dirs w path with
  | Some entries => ret entries
  | None => raise (FileNotFoundError path)
  end.

(** [skimage.io.imread(path)] *)
Definition imread (w : World) (path : string) : M event (tensor Z) :=
  _ <- emit (Imread path) ;;
  match fs_images w path with
  | Some img => ret img
  | None => raise (FileNotFoundError path)
  end.

(** [logger.info(msg)] *)
Definition logger_info (msg : string) : M event unit := emit (Log INFO msg).

Definition is_log (e : event) : bool :=
  match e with
  | Log _ _ => true
  | _ => false
  end.

Definition level_eqb (a b : level) : bool :=
  match a, b with
  | DEBUG, DEBUG | INFO, INFO | WARNING, WARNING | ERROR, ERROR
  | CRITICAL, CRITICAL => true
  | _, _ => false
  end.

(** The messages a trace logged at a given level, in order. *)
Fixpoint logged_at (lvl : level) (tr : list event) : list string :=
  match tr with
  | [] => []
  | Log l msg :: tr' =>
      if level_eqb l lvl then msg :: logged_at lvl tr' else logged_at lvl tr'
  | _ :: tr' => logged_at lvl tr'
  end.

End IO.

Import IO.

(** ** dinov2/data/datasets/shenzhen.py *)

(** [class _Split(Enum)].  A member is what Python sees of it: its class,
    its name and its value.  The constructor of the index reads [split.value]
    of whatever object it is handed, hence members of other enumerations are
    values of this type as well. *)
Module _Split.

Record member : Type := { cls : string; name : string; value : string }.

Definition TRAIN : member := {| cls := "_Split"; name := "TRAIN"; value := "train" |}.
Definition VAL : member := {| cls := "_Split"; name := "VAL"; value := "val" |}.
Definition TEST : member := {| cls := "_Split"; name := "TEST"; value := "test" |}.

Definition eqb (a b : member) : bool :=
  String.eqb (cls a) (cls b) && String.eqb (name a) (name b)
  && String.eqb (value a) (value b).

(** [str(member)] *)
Definition str (self : member) : string := cls self ++ "." ++ name self.

Definition split_lengths : list (member * Z) :=
  [(TRAIN, 361%Z); (VAL, 91%Z); (TEST, 114%Z)].

Fixpoint lookup (d : list (member * Z)) (k : member) : result Z :=
  match d with
  | [] => Raise (KeyError (str k))
  | (k', v) :: d' => if eqb k' k then Ok v else lookup d' k
  end.

(** The [length] property: [split_lengths[self]]. *)
Definition length (self : member) : result Z := lookup split_lengths self.

End _Split.

Module Shenzhen.

Definition NUM_OF_CLASSES : Z := 2.

(** The attributes [__init__] sets.  ([VisionDataset.__init__] only stores
    the root and the optional transforms, which no method modelled here
    reads.) *)
Record t : Type := {
  _root : string;
  _masks_path : string;
  _split : _Split.member;
  class_id_mapping : dict Z;
  class_names : list string;
  _split_dir : string;
  images : list string
}.

Definition split (self : t) : _Split.member := _split self.

(** [_define_split_dir]: the directory is assigned first, then the value is
    checked; the result is the directory assigned to [self._split_dir]. *)
Definition _define_split_dir (root : string) (split : _Split.member) : result string :=
  let split_dir := root ++ os_sep ++ _Split.value split in
  if negb (existsb (String.eqb (_Split.value split)) ["train"; "val"; "test"])
  then Raise (ValueError ("Unsupported split " ++ dquote ++ _Split.str split ++ dquote))
  else Ok split_dir.

Definition _check_size (w : World) (split : _Split.member) (split_dir : string)
  : M event unit :=
  entries <- listdir w split_dir ;;
  let num_of_images := Z.of_nat (List.length entries) in
  expected <- lift (_Split.length split) ;;
  logger_info (str_int (expected - num_of_images) ++ " scans are missing from "
               ++ upper (_Split.value split) ++ " set").

Definition __init__ (w : World) (split : _Split.member) (root : string) : M event t :=
  let masks_path := root ++ os_sep ++ "masks" in
  let mapping : dict Z := [("background", 0%Z); ("lung", 1%Z)] in
  let names := keys mapping in
  split_dir <- lift (_define_split_dir root split) ;;
  _ <- _check_size w split split_dir ;;
  entries <- listdir w split_dir ;;
  ret {| _root := root;
         _masks_path := masks_path;
         _split := split;
         class_id_mapping := mapping;
         class_names := names;
         _split_dir := split_dir;
         images := entries |}.

Definition __len__ (self : t) : nat := List.length (images self).

Definition get_length (self : t) : nat := __len__ self.

Definition get_num_classes (self : t) : nat := List.length (class_names self).

(** [mask[mask == old] = new] *)
Definition masked_assign (mask : tensor Z) (old new : Z) : tensor Z :=
  Tensor.mk (shape mask) (map (fun v => if (v =? old)%Z then new else v) (data mask)).

(** [get_target].  [astype(np.int_)] leaves the integer pixel values as they
    are, and [torch.from_numpy] shares them. *)
Definition get_target (w : World) (self : t) (index : Z) : M event (tensor Z) :=
  image <- lift (getitem (images self) index) ;;
  stem <- lift (getitem (Py.split "." image) 0) ;;
  let mask_path := stem ++ "_mask.png" in
  let mask_path := _masks_path self ++ os_sep ++ mask_path in
  mask <- imread w mask_path ;;
  lung <- lift (dict_get (class_id_mapping self) "lung") ;;
  let mask := masked_assign mask 255 lung in
  let target := unsqueeze0 mask in
  ret target.

(** The image stem in the sense of the on-disk layout [<image_stem>_mask.png]:
    the file name without its last extension.  This definition follows the
    layout description, not [get_target]; the two are compared below. *)
Definition image_stem (file : string) : string :=
  match rev (Py.split "." file) with
  | [] => file
  | [_] => file
  | _ :: before => join "." (rev before)
  end.

(** [get_image_data]; [to_float] is the conversion [.float()] applies to
    each pixel value. *)
Definition get_image_data {F} (to_float : Z -> F) (w : World) (self : t) (index : Z)
  : M event (tensor F) :=
  name <- lift (getitem (images self) index) ;;
  let image_path := _split_dir self ++ os_sep ++ name in
  image <- imread w image_path ;;
  image <- lift (permute_201 image) ;;
  ret (Tensor.mk (shape image) (map to_float (data image))).

(** [__getitem__]; [transforms] is [self.transforms], the optional joint
    transform stored by [VisionDataset.__init__]. *)
Definition __getitem__ {F} (to_float : Z -> F)
  (transforms : option (tensor F -> tensor Z -> tensor F * tensor Z))
  (w : World) (self : t) (index : Z) : M event (tensor F * tensor Z) :=
  image <- get_image_data to_float w self index ;;
  target <- get_target w self index ;;
  let both := match transforms with
              | Some f => f image target
              | None => (image, target)
              end in
  ret (fst both, squeeze (snd both)).

End Shenzhen.

(** *** The disk, for [make_splits]

    [make_splits] rearranges files, so the disk is a state here: for each
    directory that exists, the names of the files in it, in listing order.
    (Sub-directories are not entries of this model.) *)
Module Disk.

Definition fs : Type := list (string * list string).

Fixpoint lookup (disk : fs) (dir : string) : option (list string) :=
  match disk with
  | [] => None
  | (d, entries) :: rest => if String.eqb d dir then Some entries else lookup rest dir
  end.

Fixpoint update (disk : fs) (dir : string) (entries : list string) : fs :=
  match disk with
  | [] => [(dir, entries)]
  | (d, old) :: rest =>
      if String.eqb d dir then (d, entries) :: rest else (d, old) :: update rest dir entries
  end.

(** A computation on the disk that may raise. *)
Definition M (A : Type) : Type := fs -> result A * fs.

Definition ret {A} (a : A) : M A := fun disk => (Ok a, disk).

Definition bind {A B} (c : M A) (k : A -> M B) : M B :=
  fun disk =>
    match c disk with
    | (Ok a, disk') => k a disk'
    | (Raise e, disk') => (Raise e, disk')
    end.

Definition lift {A} (c : result A) : M A := fun disk => (c, disk).

(** [for x in xs: f(x)] *)
Fixpoint for_each {A} (f : A -> M unit) (xs : list A) : M unit :=
  match xs with
  | [] => ret tt
  | x :: xs' => bind (f x) (fun _ => for_each f xs')
  end.

(** [os.listdir(path)] *)
Definition listdir (path : string) : M (list string) :=
  fun disk =>
    match lookup disk path with
    | Some entries => (Ok entries, disk)
    | None => (Raise (FileNotFoundError path), disk)
    end.

(** [os.makedirs(path, exist_ok=True)] *)
Definition makedirs (path : string) : M unit :=
  fun disk =>
    match lookup disk path with
    | Some _ => (Ok tt, disk)
    | None => (Ok tt, update disk path [])
    end.

(** [os.path.split]: the directory and the last component of a path. *)
Definition path_split (path : string) : string * string :=
  let parts := Py.split "/" path in
  (join "/" (removelast parts), last parts EmptyString).

Fixpoint remove_name (name : string) (entries : list string) : list string :=
  match entries with
  | [] => []
  | e :: rest => if String.eqb e name then rest else e :: remove_name name rest
  end.

(** [shutil.move(source, dest)] for a source file and a destination path in
    an existing directory: the file leaves its directory and appears under
    its new name, replacing a file of that name. *)
Definition move (source dest : string) : M unit :=
  fun disk =>
    let '(sdir, sname) := path_split source in
    let '(ddir, dname) := path_split dest in
    match lookup disk sdir with
    | None => (Raise (FileNotFoundError source), disk)
    | Some entries =>
        if negb (existsb (String.eqb sname) entries)
        then (Raise (FileNotFoundError source), disk)
        else
          let disk1 := update disk sdir (remove_name sname entries) in
          match lookup disk1 ddir with
          | None => (Raise (FileNotFoundError dest), disk)
          | Some there =>
              (Ok tt, update disk1 ddir (remove_name dname there ++ [dname])%list)
          end
    end.

End Disk.

(** [images.iloc[positions]] on a frame with one column: the rows at the
    given positions. *)
Definition iloc {A} (frame : list A) (positions : list nat) : result (list A) :=
  rmap (fun i => match nth_error frame i with
                 | Some a => Ok a
                 | None => Raise (IndexError "positional indexers are out-of-bounds")
                 end)
       positions.

(** [frame.drop(labels)] on a frame whose index is [0 .. len-1]: the rows
    whose label is not listed; a label that is no row raises. *)
Definition drop {A} (frame : list A) (labels : list nat) : result (list A) :=
  if forallb (fun i => (i <? List.length frame)%nat) labels
  then Ok (map snd (filter (fun row => negb (existsb (Nat.eqb (fst row)) labels))
                           (combine (seq 0 (List.length frame)) frame)))
  else Raise (KeyError "not found in axis").

(** [math.ceil(a / b)] *)
Definition math_ceil (a b : positive) : nat := Z.to_nat (Qceiling (Zpos a # b)).

(** The index arithmetic of [make_splits]: which rows go to the test, the
    validation and the training set.  (After [drop], [reset_index] renumbers
    the remaining rows from zero.) *)
Definition select_splits (images : list string)
  : result (list string * list string * list string) :=
  let test_list := range_step 0 566 (math_ceil 566 114) in
  let val_list := range_step 0 452 (math_ceil 452 91) in
  test_set <-- iloc images test_list ;;
  train_val_set <-- drop images test_list ;;
  val_set <-- iloc train_val_set val_list ;;
  train_set <-- drop train_val_set val_list ;;
  Ok (train_set, val_set, test_set).

(** ["_".join(image_name.split(".")[:-1])] *)
Definition image_key (image_name : string) : string :=
  join "_" (slice_to (Py.split "." image_name) (-1)).

(** ["_".join(mask_name.split("_")[:-1])] *)
Definition mask_key (mask_name : string) : string :=
  join "_" (slice_to (Py.split "_" mask_name) (-1)).

(** The rows of the frame [images]: all images with masks. *)
Definition images_with_masks (image_entries mask_entries : list string) : list string :=
  let image_names := map image_key image_entries in
  let mask_names := map mask_key mask_entries in
  map (fun image => image ++ ".png")
      (filter (fun image => existsb (String.eqb image) mask_names) image_names).

(** [make_splits(data_dir)] *)
Definition make_splits (data_dir : string) : Disk.M unit :=
  let image_path := data_dir ++ os_sep ++ "CXR_png" in
  let mask_path := data_dir ++ os_sep ++ "masks" in
  Disk.bind (Disk.listdir image_path) (fun image_entries =>
  Disk.bind (Disk.listdir mask_path) (fun mask_entries =>
  let images := images_with_masks image_entries mask_entries in
  Disk.bind (Disk.lift (select_splits images)) (fun sets =>
  let train_set := fst (fst sets) in
  let val_set := snd (fst sets) in
  let test_set := snd sets in
  let splits := ["train"; "val"; "test"] in
  Disk.bind (Disk.for_each (fun split => Disk.makedirs (data_dir ++ os_sep ++ split))
                           splits) (fun _ =>
  let train_dir := data_dir ++ os_sep ++ "train" in
  Disk.bind (Disk.for_each (fun image => Disk.move (image_path ++ os_sep ++ image)
                                                   (train_dir ++ os_sep ++ image))
                           train_set) (fun _ =>
  let val_dir := data_dir ++ os_sep ++ "val" in
  Disk.bind (Disk.for_each (fun image => Disk.move (image_path ++ os_sep ++ image)
                                                   (val_dir ++ os_sep ++ image))
                           val_set) (fun _ =>
  let test_dir := data_dir ++ os_sep ++ "test" in
  Disk.for_each (fun image => Disk.move (image_path ++ os_sep ++ image)
                                        (test_dir ++ os_sep ++ image))
                test_set)))))).

(** ** dinov2/eval/utils.py (the part the code below imports) *)

(** Modelled from the spec: [is_zero_matrix] lives in [dinov2/eval/utils.py],
    which is not among the sources.  The feature-extraction contract describes
    it as the test for the "empty" sentinel: all elements of the slice equal
    the fill value zero. *)
Definition is_zero_matrix {F} `{Torch F} (matrix : tensor F) : bool :=
  forallb is_zero (data matrix).

(** A volumetric batch: for each sample of the batch, its slices in depth
    order.  Iterating a batch tensor and then a sample tensor along their
    leading dimensions yields exactly these lists. *)
Definition batch3d (F : Type) : Type := list (list (tensor F)).

(** What the encoder, the decoder and the dispatch layer are given: a batch
    tensor (2D), or a volumetric batch (3D).  The encoder's result has the
    same two forms: a tensor of embeddings, or for each sample the list of
    its slice embeddings. *)
Inductive batch (F : Type) : Type :=
| Batch2d (x : tensor F)
| Batch3d (x : batch3d F).

Arguments Batch2d {F} x.
Arguments Batch3d {F} x.

(** Iterating a batch and then each of its samples. *)
Definition volumes {F} (x : batch F) : result (batch3d F) :=
  match x with
  | Batch3d v => Ok v
  | Batch2d t => samples <-- rows t ;; rmap rows samples
  end.

(** What a decoder hands on: a tensor (2D) or a Python list of tensors, one
    per sample (3D). *)
Inductive value (A : Type) : Type :=
| VTensor (t : tensor A)
| VList (l : list (tensor A)).

Arguments VTensor {A} t.
Arguments VList {A} l.

(** ** dinov2/eval/segmentation/utils.py *)

Module DINOV2Encoder.

(** [encoder] is the map computed by [self.encoder.forward_features]: from an
    input batch to a dictionary of named outputs.  The autocast and no-grad
    contexts entered around the call change neither what is called nor what
    is returned. *)
Record t (F : Type) : Type := {
  encoder : tensor F -> dict (tensor F);
  is_3d : bool
}.

Arguments encoder {F} self x : rename.
Arguments is_3d {F} self : rename.

(** [forward_]: one invocation of the backbone, recorded in the trace. *)
Definition forward_ {F} (self : t F) (x : tensor F) : M (tensor F) (tensor F) :=
  _ <- emit x ;;
  lift (dict_get (encoder self x) "x_norm_patchtokens").

(** The inner loop of [forward_3d] over the slices of one sample. *)
Fixpoint forward_scans {F} `{Torch F} (self : t F) (batch_scans : list (tensor F))
  : M (tensor F) (list (tensor F)) :=
  match batch_scans with
  | [] => ret []
  | scan :: rest =>
      if negb (is_zero_matrix scan)
      then
        features <- forward_ self (unsqueeze0 scan) ;;
        scans <- forward_scans self rest ;;
        ret (features :: scans)
      else forward_scans self rest
  end.

Definition forward_3d {F} `{Torch F} (self : t F) (x : batch3d F)
  : M (tensor F) (list (list (tensor F))) :=
  mapM (forward_scans self) x.

(** [forward].  In 2D mode the input goes to the backbone as it is, which
    takes a tensor. *)
Definition forward {F} `{Torch F} (self : t F) (x : batch F) : M (tensor F) (batch F) :=
  if is_3d self
  then
    v <- lift (volumes x) ;;
    features <- forward_3d self v ;;
    ret (Batch3d features)
  else
    match x with
    | Batch2d t => features <- forward_ self t ;; ret (Batch2d features)
    | Batch3d _ => raise (TypeError "the backbone expects a tensor")
    end.

End DINOV2Encoder.

Module LinearDecoder.

Definition DECODER_TYPE : string := "linear".

(** [torch.nn.Conv2d(in_channels, num_classes, (1,1))].  [layer] names the
    parameters of the layer (weight and bias, drawn at construction and
    afterwards owned by the optimizer). *)
Record Conv2d : Type := { layer : nat; conv_in : nat; conv_out : nat }.

(** Calling the layer on a batch [n; c; h; w]: the channel dimension becomes
    [conv_out], a 1x1 kernel leaves the spatial dimensions alone.  (The
    decoder only ever calls it on such a 4-D batch.) *)
Definition Conv2d_call {F} `{Torch F} (conv : Conv2d) (x : tensor F)
  : result (tensor F) :=
  match shape x with
  | [n; c; h; w] =>
      if (c =? conv_in conv)%nat
      then Ok (Tensor.mk [n; conv_out conv; h; w]
                         (conv_elements (layer conv) (conv_out conv) x))
      else Raise (RuntimeError "input channels do not match the weight of the convolution")
  | _ => Raise (RuntimeError "conv2d expects a 4D batch")
  end.

Record t : Type := {
  in_channels : nat;
  width : nat;
  height : nat;
  decoder : Conv2d;
  is_3d : bool
}.

(** [__init__]; [fresh] is the name given to the new layer's parameters. *)
Definition __init__ (fresh : nat) (in_channels tokenW tokenH num_classes : nat)
  (is_3d : bool) : t :=
  {| in_channels := in_channels;
     width := tokenW;
     height := tokenH;
     decoder := {| layer := fresh; conv_in := in_channels; conv_out := num_classes |};
     is_3d := is_3d |}.

Definition forward_ {F} `{Torch F} (self : t) (embeddings : tensor F)
  : result (tensor F) :=
  embeddings <-- reshape_m1 embeddings (height self) (width self) (in_channels self) ;;
  embeddings <-- permute_0312 embeddings ;;
  output <-- Conv2d_call (decoder self) embeddings ;;
  output <-- interpolate_bilinear output 448 ;;
  Ok output.

Definition forward_3d {F} `{Torch F} (self : t) (embeddings : batch3d F)
  (vectorized : bool) : result (list (tensor F)) :=
  rmap (fun batch_embeddings =>
          if vectorized
          then
            stacked <-- stack0 batch_embeddings ;;
            forward_ self (squeeze stacked)
          else
            outs <-- rmap (forward_ self) batch_embeddings ;;
            stacked <-- stack0 outs ;;
            Ok (squeeze stacked))
       embeddings.

Definition forward {F} `{Torch F} (self : t) (embeddings : batch F)
  : result (value F) :=
  if is_3d self
  then
    nested <-- volumes embeddings ;;
    outs <-- forward_3d self nested false ;;
    Ok (VList outs)
  else
    match embeddings with
    | Batch2d e => out <-- forward_ self e ;; Ok (VTensor out)
    | Batch3d _ => Raise (AttributeError "'list' object has no attribute 'reshape'")
    end.

End LinearDecoder.

(** Element types that [Tensor.type(torch.int64)] can convert. *)
Class Int64Cast (L : Type) : Type := { to_int64 : L -> Z }.

#[export] Instance Int64Cast_Z : Int64Cast Z := {| to_int64 := wrap64 |}.

Module LinearPostprocessor.

(** [decoder] is the callable stored by [__init__], of whatever input type
    [S] it accepts. *)
Record t (S F : Type) : Type := { decoder : S -> result (value F) }.

Arguments decoder {S F} self samples : rename.

(** The returned dictionary, with its two fixed keys. *)
Record output : Type := { preds : tensor Z; target : tensor Z }.

(** [forward].  Moving the concatenated targets to the GPU leaves their
    values alone. *)
Definition forward {S F L} `{Torch F} `{Int64Cast L} (self : t S F) (samples : S)
  (targets : value L) : result output :=
  logits <-- decoder self samples ;;
  both <-- match logits with
           | VList ls =>
               logits <-- cat0 ls ;;
               targets <-- match targets with
                           | VList ts => cat0 ts
                           | VTensor _ =>
                               Raise (TypeError "cat(): argument 'tensors' must be tuple of Tensors, not Tensor")
                           end ;;
               Ok (logits, VTensor targets)
           | VTensor logits => Ok (logits, targets)
           end ;;
  preds <-- argmax1 (fst both) ;;
  targets <-- match snd both with
              | VTensor t => Ok (Tensor.mk (shape t) (map to_int64 (data t)))
              | VList _ => Raise (AttributeError "'list' object has no attribute 'type'")
              end ;;
  Ok {| preds := preds; target := targets |}.

End LinearPostprocessor.

Module AllDecoders.

Record t : Type := {
  decoders_dict : dict LinearDecoder.t;
  decoder_type : string
}.

Definition __init__ (decoders_dict : dict LinearDecoder.t) : result t :=
  let own := dict_update [] decoders_dict in
  _ <-- getitem (values decoders_dict) 0 ;;
  Ok {| decoders_dict := own; decoder_type := LinearDecoder.DECODER_TYPE |}.

(** [{k: v.forward(inputs) for k, v in self.decoders_dict.items()}] *)
Definition forward {F} `{Torch F} (self : t) (inputs : batch F)
  : result (dict (value F)) :=
  items <-- rmap (fun kv => out <-- LinearDecoder.forward (snd kv) inputs ;;
                            Ok (fst kv, out))
                 (decoders_dict self) ;;
  Ok (dict_update [] items).

Definition __len__ (self : t) : nat := List.length (decoders_dict self).

End AllDecoders.

(** One entry of [optim_param_groups]: [{"params": decoder.parameters(), "lr": lr}].
    The parameters of a decoder are those of its convolution layer. *)
Record param_group : Type := { params : LinearDecoder.Conv2d; lr : Q }.

(** What [setup_decoders] returns first: the ensemble, wrapped for distributed
    training when that is enabled. *)
Inductive decoders : Type :=
| Plain (d : AllDecoders.t)
| DistributedDataParallel (d : AllDecoders.t).

Definition ensemble (d : decoders) : AllDecoders.t :=
  match d with
  | Plain a => a
  | DistributedDataParallel a => a
  end.

(** Rounding of a non-negative rational to the nearest integer, ties to the
    even one. *)
Definition round_half_even (q : Q) : Z :=
  let a := Qnum q in
  let b := Zpos (Qden q) in
  let d := (a / b)%Z in
  let r := (a mod b)%Z in
  if (2 * r <? b)%Z then d
  else if (b <? 2 * r)%Z then (d + 1)%Z
  else if Z.even d then d else (d + 1)%Z.

Fixpoint zeros (n : nat) : string :=
  match n with
  | O => EmptyString
  | S n' => String "0" (zeros n')
  end.

(** [f"{x:.10f}"] for a finite number [x]: sign, integer part, a dot and
    exactly ten decimals, correctly rounded.  A learning rate is modelled by
    the rational number it denotes. *)
Definition format_10f (x : Q) : string :=
  let n := round_half_even (Qabs x * (10000000000 # 1))%Q in
  let frac := str_int (n mod 10000000000)%Z in
  (if (Qnum x <? 0)%Z then "-" else "")
  ++ str_int (n / 10000000000)%Z ++ "."
  ++ zeros (10 - String.length frac) ++ frac.

(** [f"{decoder_type}:lr={lr:.10f}".replace(".", "_")] *)
Definition decoder_key (decoder_type : string) (lr : Q) : string :=
  replace "." "_" (decoder_type ++ ":lr=" ++ format_10f lr).

(** The loop of [setup_decoders].  [fresh] names the parameters of the next
    layer to be constructed.  When [decoder_type] is not ["linear"] the
    variable [decoder] has not been bound when [decoder.cuda()] reads it. *)
Fixpoint setup_loop (embed_dim num_classes : nat) (decoder_type : string)
  (is_3d : bool) (learning_rates : list Q) (fresh : nat)
  (decoders_dict : dict LinearDecoder.t) (optim_param_groups : list param_group)
  : result (dict LinearDecoder.t * list param_group) :=
  match learning_rates with
  | [] => Ok (decoders_dict, optim_param_groups)
  | lr :: rest =>
      decoder <-- (if String.eqb decoder_type "linear"
                   then Ok (LinearDecoder.__init__ fresh embed_dim 32 32 num_classes is_3d)
                   else Raise (UnboundLocalError "decoder")) ;;
      let decoders_dict := dict_set decoders_dict (decoder_key decoder_type lr) decoder in
      let optim_param_groups :=
        (optim_param_groups
           ++ [{| params := LinearDecoder.decoder decoder; lr := lr |}])%list in
      setup_loop embed_dim num_classes decoder_type is_3d rest (S fresh)
                 decoders_dict optim_param_groups
  end.

(** [setup_decoders]; [distributed_enabled] is what [distributed.is_enabled()]
    answers.  (The defaults of the source are [num_classes=14],
    [decoder_type="linear"], [is_3d=False].) *)
Definition setup_decoders (distributed_enabled : bool) (fresh : nat)
  (embed_dim : nat) (learning_rates : list Q) (num_classes : nat)
  (decoder_type : string) (is_3d : bool)
  : result (decoders * list param_group) :=
  built <-- setup_loop embed_dim num_classes decoder_type is_3d learning_rates
                       fresh [] [] ;;
  all <-- AllDecoders.__init__ (fst built) ;;
  let wrapped := if distributed_enabled then DistributedDataParallel all else Plain all in
  Ok (wrapped, snd built).

(** ** dinov2/eval/classification/utils.py *)

(** Modelled from the spec: the container of classifier heads
    ([classifier_heads.module], with its [classifiers_dict]) is defined in a
    file that is not among the sources.  The dispatch layer describes it as a
    mapping from head name to a head exposing [forward(features) -> output],
    iterated in insertion order; calling the container runs every head on the
    same input, exactly as [AllDecoders.forward] does for decoders.  A head is
    the map it computes, from the list of features of one sample to its
    output tensor. *)
Module AllClassifiers.

Record t (X F : Type) : Type := {
  classifiers_dict : dict (list X -> tensor F)
}.

Arguments classifiers_dict {X F} self : rename.

Definition forward {X F} (self : t X F) (inputs : list X) : dict (tensor F) :=
  dict_update [] (map (fun kv => (fst kv, snd kv inputs)) (classifiers_dict self)).

End AllClassifiers.

(** The distributed wrapper around the heads: calling it calls the wrapped
    module. *)
Record wrapped_heads (X F : Type) : Type := { module : AllClassifiers.t X F }.

Arguments module {X F} self : rename.

(** One call of [feature_model], recorded in the trace. *)
Definition call_feature_model {X F} (feature_model : tensor F -> X) (x : tensor F)
  : M (tensor F) X :=
  _ <- emit x ;;
  ret (feature_model x).

(** The inner loop over the slices of one sample. *)
Fixpoint feature_scans {X F} `{Torch F} (feature_model : tensor F -> X)
  (batch_scans : list (tensor F)) : M (tensor F) (list X) :=
  match batch_scans with
  | [] => ret []
  | scan :: rest =>
      if negb (is_zero_matrix scan)
      then
        features <- call_feature_model feature_model (unsqueeze0 scan) ;;
        scans <- feature_scans feature_model rest ;;
        ret (features :: scans)
      else feature_scans feature_model rest
  end.

(** [{classifiers[i]: output for i, output in enumerate(outputs)}] *)
Fixpoint enumerate_dict {V} (classifiers : list string) (i : Z) (outputs : list V)
  (acc : dict V) : result (dict V) :=
  match outputs with
  | [] => Ok acc
  | output :: rest =>
      key <-- getitem classifiers i ;;
      enumerate_dict classifiers (i + 1)%Z rest (dict_set acc key output)
  end.

Definition classifier_forward_pass {X F} `{Torch F} (feature_model : tensor F -> X)
  (classifier_heads : wrapped_heads X F) (data : batch F) (is_3d : bool)
  : M (tensor F) (dict (tensor F)) :=
  if is_3d
  then
    scans <- lift (volumes data) ;;
    batch_features <- mapM (feature_scans feature_model) scans ;;
    let outputs :=
      map (fun batch_feature =>
             values (AllClassifiers.forward (module classifier_heads) batch_feature))
          batch_features in
    classifier_outputs <- lift (rmap (fun output => stacked <-- stack0 output ;;
                                                     Ok (squeeze stacked))
                                     outputs) ;;
    outputs <- lift (stack1 classifier_outputs) ;;
    let classifiers := keys (AllClassifiers.classifiers_dict (module classifier_heads)) in
    per_head <- lift (rows outputs) ;;
    lift (enumerate_dict classifiers 0 per_head [])
  else
    match data with
    | Batch2d x =>
        feature <- call_feature_model feature_model x ;;
        ret (AllClassifiers.forward (module classifier_heads) [feature])
    | Batch3d _ => raise (TypeError "feature_model expects a tensor")
    end.

(** ** dinov2/eval/mlknn.py: the sampling helpers *)

Fixpoint insert_unique (x : Z) (l : list Z) : list Z :=
  match l with
  | [] => [x]
  | y :: l' =>
      if (x <? y)%Z then x :: l
      else if (x =? y)%Z then l
      else y :: insert_unique x l'
  end.

(** [torch.unique(labels)] of a one-dimensional tensor of class ids: the
    distinct values in ascending order. *)
Definition unique (labels : list Z) : list Z := fold_right insert_unique [] labels.

(** The position of a value in the list of distinct values. *)
Fixpoint index_of (x : Z) (l : list Z) : nat :=
  match l with
  | [] => O
  | y :: l' => if (x =? y)%Z then O else S (index_of x l')
  end.

(** [mask.nonzero()] for a one-dimensional boolean tensor: the positions of
    its true entries, as a tensor with one column. *)
Definition nonzero (mask : list bool) : tensor Z :=
  let positions :=
    map (fun row => Z.of_nat (fst row))
        (filter (fun row => snd row) (combine (seq 0 (List.length mask)) mask)) in
  Tensor.mk [List.length positions; 1%nat] positions.

(** [create_class_indices_mapping(labels)] for a one-dimensional tensor of
    class ids.  The keys of the Python dictionary are the zero-dimensional
    tensors [unique_labels[i]], distinct objects that never collide; the
    mapping is the list of its items in insertion order, each key given by
    its value. *)
Definition create_class_indices_mapping (labels : list Z) : list (Z * tensor Z) :=
  let unique_labels := unique labels in
  let inverse := map (fun x => index_of x unique_labels) labels in
  map (fun i => (nth i unique_labels 0%Z, nonzero (map (fun v => (v =? i)%nat) inverse)))
      (seq 0 (List.length unique_labels)).




(** [ModuleDictWithForward.forward]: every module of the dictionary applied
    to the same arguments, under its own key. *)
Definition ModuleDictWithForward_forward {X Y} (modules : dict (X -> result Y)) (args : X)
  : result (dict Y) :=
  items <-- rmap (fun kv => out <-- snd kv args ;; Ok (fst kv, out)) modules ;;
  Ok (dict_update [] items).

(** ** The multi-label kNN classifier used by dinov2/eval/mlknn.py *)

(** Modelled from the spec: [eval_knn] constructs [MLkNN(k)], calls [fit] on
    the training features and labels and [predict] on the validation
    features; the class itself is imported from [dinov2/eval/utils.py], which
    is not among the sources.  The definitions below follow the description
    of the classifier: per class, two histograms over the number of positive
    neighbours (one for positive, one for negative training samples) and the
    two prior counts; Laplace smoothing adds one to every count and the
    matching number of cells to every total; the posterior is obtained by
    Bayes' rule and normalisation.  Numbers are exact rationals, and a
    division whose divisor is zero raises. *)
Module MLkNN.

Definition feature : Type := list Q.

(** The nearest-neighbour search collaborator: reference points, the number
    of neighbours asked for and a query give the indices of the nearest
    reference points, nearest first. *)
Definition search : Type := list feature -> nat -> feature -> list nat.

Record t : Type := {
  k : nat;
  train_features : list feature;
  train_labels : list (list bool);
  dim : nat;
  num_classes : nat;
  n_pos : list nat;
  n_neg : list nat;
  hist_pos : list (list nat);
  hist_neg : list (list nat)
}.

Definition nth_or_raise {A} (l : list A) (i : nat) : result A :=
  match nth_error l i with
  | Some a => Ok a
  | None => Raise (IndexError "index out of range")
  end.

Definition divide (a b : Q) : result Q :=
  if Qeq_bool b 0 then Raise (ZeroDivisionError "division by zero")
  else Ok (a / b)%Q.

Definition of_nat (n : nat) : Q := inject_Z (Z.of_nat n).

(** Is training sample [i] positive for class [c]? *)
Definition label (labels : list (list bool)) (i c : nat) : result bool :=
  row <-- nth_or_raise labels i ;;
  nth_or_raise row c.

(** The number of the given neighbours that are positive for class [c]. *)
Fixpoint count_positive (labels : list (list bool)) (c : nat) (neighbors : list nat)
  : result nat :=
  match neighbors with
  | [] => Ok O
  | i :: rest =>
      b <-- label labels i c ;;
      j <-- count_positive labels c rest ;;
      Ok (if b then S j else j)
  end.

(** The [k] nearest OTHER training samples of training sample [i]. *)
Definition other_neighbors (nn : search) (k : nat) (features : list feature)
  (i : nat) (x : feature) : list nat :=
  firstn k (filter (fun j => negb (j =? i)%nat) (nn features (S k) x)).

(** [h[j] += 1] *)
Fixpoint bump (h : list nat) (j : nat) : result (list nat) :=
  match h, j with
  | [], _ => Raise (IndexError "index out of range")
  | n :: h', O => Ok (S n :: h')
  | n :: h', S j' => h'' <-- bump h' j' ;; Ok (n :: h'')
  end.

(** The statistics of one class: (positives, negatives, histogram of the
    positives, histogram of the negatives), accumulated over the training
    samples from index [i] on. *)
Fixpoint accumulate (nn : search) (k : nat) (features : list feature)
  (labels : list (list bool)) (c : nat) (i : nat) (todo : list feature)
  (acc : nat * nat * list nat * list nat)
  : result (nat * nat * list nat * list nat) :=
  match todo with
  | [] => Ok acc
  | x :: rest =>
      let '(np, nn_, hp, hn) := acc in
      j <-- count_positive labels c (other_neighbors nn k features i x) ;;
      b <-- label labels i c ;;
      acc' <-- (if b
                then hp' <-- bump hp j ;; Ok (S np, nn_, hp', hn)
                else hn' <-- bump hn j ;; Ok (np, S nn_, hp, hn')) ;;
      accumulate nn k features labels c (S i) rest acc'
  end.

Definition class_statistics (nn : search) (k : nat) (features : list feature)
  (labels : list (list bool)) (c : nat)
  : result (nat * nat * list nat * list nat) :=
  accumulate nn k features labels c 0 features
             (O, O, repeat O (S k), repeat O (S k)).

Definition fit (nn : search) (k : nat) (features : list feature)
  (labels : list (list bool)) : result t :=
  match features, labels with
  | [], _ => Raise (ShapeError "empty training set")
  | x0 :: _, [] => Raise (ShapeError "features and labels differ in length")
  | x0 :: _, y0 :: _ =>
      if negb (List.length features =? List.length labels)%nat
      then Raise (ShapeError "features and labels differ in length")
      else if negb (forallb (fun x => (List.length x =? List.length x0)%nat) features)
      then Raise (ShapeError "features differ in dimensionality")
      else if negb (forallb (fun y => (List.length y =? List.length y0)%nat) labels)
      then Raise (ShapeError "label rows differ in length")
      else
        stats <-- rmap (class_statistics nn k features labels)
                       (seq 0 (List.length y0)) ;;
        Ok {| k := k;
              train_features := features;
              train_labels := labels;
              dim := List.length x0;
              num_classes := List.length y0;
              n_pos := map (fun s => fst (fst (fst s))) stats;
              n_neg := map (fun s => snd (fst (fst s))) stats;
              hist_pos := map (fun s => snd (fst s)) stats;
              hist_neg := map (fun s => snd s) stats |}
  end.

(** Smoothed prior of a class with [n_c] samples on this side out of [n]. *)
Definition prior (n_c n : nat) : result Q :=
  divide (1 + of_nat n_c)%Q (2 + of_nat n)%Q.

(** Smoothed likelihood of seeing [j] positive neighbours, from a histogram
    with [k + 1] cells. *)
Definition likelihood (k : nat) (h : list nat) (j : nat) : result Q :=
  count <-- nth_or_raise h j ;;
  divide (1 + of_nat count)%Q (of_nat (S k) + of_nat (fold_right Nat.add O h))%Q.

(** Posterior probabilities (positive, negative) of class [c] given [j]
    positive neighbours. *)
Definition posterior (self : t) (c j : nat) : result (Q * Q) :=
  np <-- nth_or_raise (n_pos self) c ;;
  nn_ <-- nth_or_raise (n_neg self) c ;;
  hp <-- nth_or_raise (hist_pos self) c ;;
  hn <-- nth_or_raise (hist_neg self) c ;;
  let n := List.length (train_features self) in
  prior_pos <-- prior np n ;;
  prior_neg <-- prior nn_ n ;;
  like_pos <-- likelihood (k self) hp j ;;
  like_neg <-- likelihood (k self) hn j ;;
  let p_true := (prior_pos * like_pos)%Q in
  let p_false := (prior_neg * like_neg)%Q in
  post_pos <-- divide p_true (p_true + p_false)%Q ;;
  post_neg <-- divide p_false (p_true + p_false)%Q ;;
  Ok (post_pos, post_neg).

(** The posteriors of every class for one query. *)
Definition query_posteriors (nn : search) (self : t) (x : feature)
  : result (list (Q * Q)) :=
  if negb (List.length x =? dim self)%nat
  then Raise (ShapeError "query dimensionality differs from training")
  else
    let neighbors := nn (train_features self) (k self) x in
    rmap (fun c => j <-- count_positive (train_labels self) c neighbors ;;
                   posterior self c j)
         (seq 0 (num_classes self)).

Definition predict_proba (nn : search) (self : t) (queries : list feature)
  : result (list (list (Q * Q))) :=
  rmap (query_posteriors nn self) queries.

(** [predict]: positive iff the positive posterior exceeds the negative one. *)
Definition predict (nn : search) (self : t) (queries : list feature)
  : result (list (list bool)) :=
  probs <-- predict_proba nn self queries ;;
  Ok (map (map (fun p => negb (Qle_bool (fst p) (snd p)))) probs).

End MLkNN.

(** ** Fixtures used by the examples *)

Module Fixtures.

(** A toy backend over integers: an element is zero when it is [0], the
    order is that of [Z], and the two numeric maps fill their output with
    zeros. *)
#[global] Instance Torch_Z : Torch Z :=
  {| is_zero := Z.eqb 0;
     lt := Z.ltb;
     conv_elements := fun _ out x =>
       repeat 0%Z (lead x * out * numel (tl (tl (shape x))));
     bilinear_elements := fun x size =>
       repeat 0%Z (lead x * hd 0%nat (tl (shape x)) * size * size) |}.

(** A 1x2 slice. *)
Definition slice (a b : Z) : tensor Z := Tensor.mk [1; 2]%nat [a; b].

(** [n] file names [img0.png], [img1.png], ... *)
Definition files (n : nat) : list string :=
  map (fun i => "img" ++ str_int (Z.of_nat i) ++ ".png") (seq 0 n).

(** A data root whose [train] directory holds 360 files. *)
Definition world360 : World :=
  {| fs_dirs := fun p => if String.eqb p "/data/train" then Some (files 360) else None;
     fs_images := fun _ => None |}.

(** A data root with two images and the mask of the first one, whose pixels
    are 0, 255 and 128. *)
Definition world_masks : World :=
  {| fs_dirs := fun p => if String.eqb p "/data/train"
                         then Some ["CHNCXR_0001_0.png"; "a.b.png"] else None;
     fs_images := fun p => if String.eqb p "/data/masks/CHNCXR_0001_0_mask.png"
                           then Some (Tensor.mk [1; 3]%nat [0; 255; 128]%Z)
                           else if String.eqb p "/data/masks/a_mask.png"
                           then Some (Tensor.mk [1; 1]%nat [255]%Z)
                           else None |}.

Definition index_masks : Shenzhen.t :=
  {| Shenzhen._root := "/data";
     Shenzhen._masks_path := "/data/masks";
     Shenzhen._split := _Split.TRAIN;
     Shenzhen.class_id_mapping := [("background", 0%Z); ("lung", 1%Z)];
     Shenzhen.class_names := ["background"; "lung"];
     Shenzhen._split_dir := "/data/train";
     Shenzhen.images := ["CHNCXR_0001_0.png"; "a.b.png"] |}.

(** A backbone whose patch tokens are its input. *)
Definition identity_encoder : DINOV2Encoder.t Z :=
  {| DINOV2Encoder.encoder := fun x => [("x_norm_patchtokens", x)];
     DINOV2Encoder.is_3d := true |}.

(** One volumetric sample of five slices, the second and the fourth of which
    are all zero. *)
Definition five_slices : batch3d Z :=
  [[slice 1 2; slice 0 0; slice 3 4; slice 0 0; slice 5 6]].

(** A 3D decoder over 1x2 token grids with one input channel. *)
Definition decoder3d : LinearDecoder.t := LinearDecoder.__init__ 0 1 1 2 3 true.

(** The logits of two samples with two classes over two positions: two
    slices for the first sample, one for the second; and their targets. *)
Definition logits3d : list (tensor Z) :=
  [Tensor.mk [2; 2; 2]%nat [1; 5; 3; 4; 9; 0; 2; 7]%Z;
   Tensor.mk [1; 2; 2]%nat [0; 8; 6; 1]%Z].

Definition targets3d : list (tensor Z) :=
  [Tensor.mk [2; 2]%nat [1; 0; 0; 1]%Z; Tensor.mk [1; 2]%nat [1; 1]%Z].

Definition postprocessor : LinearPostprocessor.t unit Z :=
  {| LinearPostprocessor.decoder := fun _ => Ok (VList logits3d) |}.

(** A neighbour search that ignores distances and answers with the first
    indices. *)
Definition first_indices : MLkNN.search :=
  fun refs k _ => firstn k (seq 0 (List.length refs)).

(** A feature model that sums the elements of a slice, and two classifier
    heads that return three logits for the features of one sample. *)
Definition total_feature (x : tensor Z) : Z := fold_right Z.add 0%Z (data x).

Definition head_a (features : list Z) : tensor Z :=
  Tensor.mk [3%nat] [fold_right Z.add 0%Z features; 1%Z; 2%Z].

Definition head_b (features : list Z) : tensor Z :=
  Tensor.mk [3%nat] [fold_right Z.mul 1%Z features; 10%Z; 20%Z].

Definition one_head : wrapped_heads Z Z :=
  {| module := {| AllClassifiers.classifiers_dict := [("a", head_a)] |} |}.

Definition two_heads : wrapped_heads Z Z :=
  {| module := {| AllClassifiers.classifiers_dict := [("a", head_a); ("b", head_b)] |} |}.

(** Two volumetric samples, of three and of two slices, with one empty
    slice each. *)
Definition two_volumes : batch Z :=
  Batch3d [[slice 1 2; slice 0 0; slice 3 4]; [slice 0 0; slice 5 6]].

(** A member of some other enumeration, whose value is not a split. *)
Definition ALL : _Split.member :=
  {| _Split.cls := "Subset"; _Split.name := "ALL"; _Split.value := "all" |}.

(** A data root with one training image of 1 x 2 pixels and three channels,
    and its 1 x 2 mask. *)
Definition world_pixels : World :=
  {| fs_dirs := fun p => if String.eqb p "/data/train" then Some ["x.png"] else None;
     fs_images := fun p => if String.eqb p "/data/train/x.png"
                           then Some (Tensor.mk [1; 2; 3]%nat [10; 20; 30; 40; 50; 60]%Z)
                           else if String.eqb p "/data/masks/x_mask.png"
                           then Some (Tensor.mk [1; 2]%nat [255; 7]%Z)
                           else None |}.

Definition index_pixels : Shenzhen.t :=
  {| Shenzhen._root := "/data";
     Shenzhen._masks_path := "/data/masks";
     Shenzhen._split := _Split.TRAIN;
     Shenzhen.class_id_mapping := [("background", 0%Z); ("lung", 1%Z)];
     Shenzhen.class_names := ["background"; "lung"];
     Shenzhen._split_dir := "/data/train";
     Shenzhen.images := ["x.png"] |}.


(** A disk with two images, one of which has a mask. *)
Definition small_disk : Disk.fs :=
  [("/d/CXR_png", ["a.png"; "b.png"]); ("/d/masks", ["a_mask.png"])].

(** [n] mask names [img0_mask.png], [img1_mask.png], ... *)
Definition mask_files (n : nat) : list string :=
  map (fun i => "img" ++ str_int (Z.of_nat i) ++ "_mask.png") (seq 0 n).

(** A dataset directory before splitting: 566 images with their masks, and
    one image without a mask. *)
Definition disk566 : Disk.fs :=
  [("/d/CXR_png", ("other.png" :: files 566)%list); ("/d/masks", mask_files 566)].

End Fixtures.

(** ** Notions used in the statements *)

(** A row label is among the listed ones. *)
Definition listed (labels : list nat) (i : nat) : bool := existsb (Nat.eqb i) labels.



(** A slice is non-empty when it is not the all-zero sentinel. *)
Definition non_empty {F} `{Torch F} (scan : tensor F) : bool :=
  negb (is_zero_matrix scan).

(** The non-empty slices of each sample, in depth order. *)
Definition non_empty_slices {F} `{Torch F} (x : batch3d F) : batch3d F :=
  map (filter non_empty) x.

(** What the nearest-neighbour search promises: at most as many indices as
    asked for, each of them the index of a reference point. *)
Definition search_contract (nn : MLkNN.search) : Prop :=
  forall (refs : list MLkNN.feature) (k : nat) (q : MLkNN.feature),
    (List.length (nn refs k q) <= k)%nat
    /\ Forall (fun i => (i < List.length refs)%nat) (nn refs k q).

(** A rectangular matrix with [n] rows and [l] columns. *)
Definition rectangular {A} (n l : nat) (m : list (list A)) : Prop :=
  List.length m = n /\ Forall (fun row => List.length row = l) m.

(** A probability. *)
Definition unit_interval (p : Q) : Prop := (0 <= p)%Q /\ (p <= 1)%Q.

(** The backend returns as many elements as the resized tensor holds. *)
Definition backend_sound (F : Type) `{Torch F} : Prop :=
  forall (x : tensor F) (size n c h w : nat),
    shape x = [n; c; h; w] ->
    List.length (bilinear_elements x size) = (n * c * size * size)%nat.

(** A parameter group serves a decoder when it holds that decoder's
    parameters. *)
Definition serves (d : LinearDecoder.t) (g : param_group) : Prop :=
  params g = LinearDecoder.decoder d.

(** The tensors of a list agree on every dimension but the first, and each
    holds as many elements as its shape says. *)
Definition uniform {A} (rest : list nat) (ts : list (tensor A)) : Prop :=
  Forall (fun t => shape t = lead t :: rest /\ wf t) ts.

(** The class predicted at each position of one slice: [blk] holds the
    logits of the slice, [c] classes over positions of shape [sp]. *)
Definition slice_argmax {F} `{Torch F} (c : nat) (sp : list nat) (blk : list F) : list Z :=
  map argmax_list (transpose (numel sp) (chunks (numel sp) c blk)).

(** Per-sample logits and targets that belong together: sample by sample the
    same number of slices, [c] classes per position, positions of shape
    [sp]. *)
Definition matching {F L} (c : nat) (sp : list nat) (ls : list (tensor F))
  (ts : list (tensor L)) : Prop :=
  Forall2 (fun l t => shape l = lead l :: c :: sp /\ shape t = lead l :: sp
                      /\ wf l /\ wf t) ls ts.

(* ====================================================================== *)
(** * Part II.  Properties                                                 *)
(* ====================================================================== *)

(** ** Lists and raising maps *)

Lemma rmap_ok {A B} (P : A -> B -> Prop) (f : A -> result B) (xs : list A) :
  (forall x, In x xs -> exists y, f x = Ok y /\ P x y) ->
  exists ys, rmap f xs = Ok ys /\ Forall2 P xs ys.
Proof.
  induction xs as [|x xs IH]; intros Hf.
  - exists []. split; [reflexivity|constructor].
  - destruct (Hf x (or_introl eq_refl)) as [y [Hy HP]].
    destruct IH as [ys [Hys HPs]]; [intros x' Hin; apply Hf; now right|].
    exists (y :: ys). simpl. rewrite Hy. simpl. rewrite Hys. simpl.
    split; [reflexivity|now constructor].
Qed.

Lemma rmap_map_total {A B C} (f : B -> result C) (u : A -> B) (g : A -> C)
  (xs : list A) :
  (forall x, In x xs -> f (u x) = Ok (g x)) -> rmap f (map u xs) = Ok (map g xs).
Proof.
  induction xs as [|x xs IH]; intros Hf; simpl; [reflexivity|].
  rewrite (Hf x) by now left. simpl. rewrite IH; [reflexivity|].
  intros x' Hin. apply Hf. now right.
Qed.

Lemma in_firstn {A} (n : nat) (l : list A) (x : A) : In x (firstn n l) -> In x l.
Proof.
  intros Hin. rewrite <- (firstn_skipn n l). apply in_or_app. now left.
Qed.

Lemma combine_map {A B C} (f : A -> B) (g : A -> C) (l : list A) :
  combine (map f l) (map g l) = map (fun a => (f a, g a)) l.
Proof.
  induction l as [|a l IH]; simpl; [reflexivity|]. now rewrite IH.
Qed.

Lemma concat_lengths {A} (n : nat) (bs : list (list A)) :
  Forall (fun b => List.length b = n) bs ->
  List.length (concat bs) = (List.length bs * n)%nat.
Proof.
  induction 1 as [|b bs Hb Hbs IH]; simpl; [reflexivity|].
  rewrite length_app, IH, Hb. reflexivity.
Qed.

(** ** Split-aware sample index *)

Lemma split_not_nil (sep : ascii) (s : string) : Py.split sep s <> [].
Proof.
  induction s as [|c s IH]; simpl; [discriminate|].
  destruct (Ascii.eqb c sep); [discriminate|].
  destruct (Py.split sep s); [contradiction|discriminate].
Qed.

Lemma getitem_0_hd {A} (d : A) (l : list A) :
  l <> [] -> getitem l 0 = Ok (hd d l).
Proof.
  destruct l as [|a l]; [contradiction|]. intros _. reflexivity.
Qed.

Lemma contains_app (c : ascii) (a b : string) :
  contains c (a ++ b) = contains c a || contains c b.
Proof.
  induction a as [|x a IH]; simpl; [reflexivity|].
  rewrite IH. now rewrite orb_assoc.
Qed.

(** The first component of a split contains no separator, and the text is
    that component alone or that component, a separator and the rest. *)
Lemma split_hd (sep : ascii) (s : string) :
  contains sep (hd EmptyString (Py.split sep s)) = false
  /\ (s = hd EmptyString (Py.split sep s)
      \/ exists rest, s = hd EmptyString (Py.split sep s) ++ String sep rest).
Proof.
  induction s as [|c s [IHc IHs]]; simpl.
  - split; [reflexivity|now left].
  - destruct (Ascii.eqb_spec c sep) as [->|Hne].
    + simpl. split; [reflexivity|]. right. now exists s.
    + pose proof (split_not_nil sep s) as Hnil.
      destruct (Py.split sep s) as [|h t]; [contradiction|]. simpl in *.
      split.
      * rewrite IHc. apply Ascii.eqb_neq in Hne. now rewrite Hne.
      * destruct IHs as [->|[rest ->]]; [now left|right].
        now exists rest.
Qed.

Lemma join_split (sep : ascii) (s : string) :
  join (String sep EmptyString) (Py.split sep s) = s.
Proof.
  induction s as [|c s IH]; simpl; [reflexivity|].
  pose proof (split_not_nil sep s) as Hnil.
  destruct (Ascii.eqb_spec c sep) as [->|Hne].
  - destruct (Py.split sep s) as [|h t]; [contradiction|].
    simpl in *. now rewrite IH.
  - destruct (Py.split sep s) as [|h t]; [contradiction|].
    destruct t as [|h' t]; simpl in *; now rewrite <- IH.
Qed.

Lemma join_cons2 (sep p q : string) (ps : list string) :
  join sep (p :: q :: ps) = p ++ sep ++ join sep (q :: ps).
Proof. reflexivity. Qed.

Lemma stem_of_components (file c0 last : string) (l : list string) :
  Py.split "." file = c0 :: (l ++ [last])%list ->
  Shenzhen.image_stem file = join "." (c0 :: l).
Proof.
  intros Hs. unfold Shenzhen.image_stem. rewrite Hs.
  replace (rev (c0 :: (l ++ [last])%list)) with (last :: rev (c0 :: l)).
  2:{ rewrite app_comm_cons, rev_app_distr. reflexivity. }
  destruct (rev (c0 :: l)) as [|b bs] eqn:Hrev.
  - apply (f_equal (@rev string)) in Hrev. rewrite rev_involutive in Hrev. discriminate.
  - rewrite <- Hrev, rev_involutive. reflexivity.
Qed.

(** When the stem has no dot, it is the first dot-separated component. *)
Lemma stem_without_dot (file : string) :
  contains "." (Shenzhen.image_stem file) = false ->
  hd EmptyString (Py.split "." file) = Shenzhen.image_stem file.
Proof.
  pose proof (join_split "." file) as Hjoin.
  pose proof (split_not_nil "." file) as Hnil.
  destruct (Py.split "." file) as [|c0 l] eqn:Hs; [contradiction|]. clear Hnil.
  destruct l as [|last l _] using rev_ind.
  - intros _. unfold Shenzhen.image_stem. rewrite Hs. simpl in *. exact Hjoin.
  - rewrite (stem_of_components file c0 last l Hs).
    destruct l as [|c1 l]; [reflexivity|].
    rewrite join_cons2, contains_app. simpl contains at 2.
    rewrite orb_true_r. discriminate.
Qed.

Lemma value_recognized (v : string) :
  existsb (String.eqb v) ["train"; "val"; "test"] = true
  <-> In v ["train"; "val"; "test"].
Proof.
  rewrite existsb_exists. split.
  - intros [x [Hin Heq]]. apply String.eqb_eq in Heq. now subst.
  - intros Hin. exists v. split; [exact Hin|apply String.eqb_refl].
Qed.

(** What a successful construction has stored. *)
Lemma init_attributes (w : World) (split : _Split.member) (root : string)
  (tr tr' : list event) (self : Shenzhen.t) :
  Shenzhen.__init__ w split root tr = (Ok self, tr') ->
  Shenzhen.class_id_mapping self = [("background", 0%Z); ("lung", 1%Z)]
  /\ Shenzhen._masks_path self = root ++ os_sep ++ "masks"
  /\ fs_dirs w (root ++ os_sep ++ _Split.value split) = Some (Shenzhen.images self).
Proof.
  unfold Shenzhen.__init__, Shenzhen._check_size, listdir, logger_info, bind, lift, emit, ret, raise.
  destruct (Shenzhen._define_split_dir root split) as [d|e] eqn:Hd; [|discriminate].
  assert (d = root ++ os_sep ++ _Split.value split) as ->.
  { unfold Shenzhen._define_split_dir in Hd.
    destruct (negb _) in Hd; [discriminate|]. now inversion Hd. }
  destruct (fs_dirs w (root ++ os_sep ++ _Split.value split)) as [entries|]; [|discriminate].
  destruct (_Split.length split); [|discriminate].
  intros H. inversion H. subst. simpl. auto.
Qed.

(** C4.  Constructing the index with a split whose value is none of
    ["train"], ["val"], ["test"] fails: [__init__] raises the [ValueError]
    "Unsupported split ..." (Python's exception for what the error taxonomy
    calls a ConfigurationError).  It is raised at construction time, before
    the split directory is listed and before anything is logged or read: the
    trace is left as it was, and no index exists that could serve a
    sample. *)
Theorem unsupported_split_raises_at_construction
  (w : World) (split : _Split.member) (root : string) (tr : list event) :
  ~ In (_Split.value split) ["train"; "val"; "test"] ->
  Shenzhen.__init__ w split root tr
  = (Raise (ValueError ("Unsupported split " ++ dquote ++ _Split.str split ++ dquote)), tr).
Proof.
  intros Hnot.
  unfold Shenzhen.__init__, Shenzhen._define_split_dir, bind, lift.
  destruct (existsb (String.eqb (_Split.value split)) ["train"; "val"; "test"]) eqn:He.
  - apply value_recognized in He. contradiction.
  - reflexivity.
Qed.

Lemma unsupported_split_raises_at_construction_witness :
  Shenzhen.__init__ Fixtures.world360 Fixtures.ALL "/data" []
  = (Raise (ValueError ("Unsupported split " ++ dquote ++ "Subset.ALL" ++ dquote)), []).
Proof.
  apply (unsupported_split_raises_at_construction Fixtures.world360 Fixtures.ALL "/data" []).
  simpl. intros [H|[H|[H|[]]]]; discriminate H.
Defined.

(** C5 (as amended).  For each of the three splits and every listing of its
    directory, whatever the number of entries found, construction does not
    raise, logs exactly one message, "<expected - found> scans are missing
    from <SPLIT> set", at level INFO (through [logger.info], not as a
    warning), and completes with as many samples as entries were found. *)
Theorem split_size_is_logged_once_at_info
  (w : World) (split : _Split.member) (root : string) (tr : list event)
  (entries : list string) :
  In split [_Split.TRAIN; _Split.VAL; _Split.TEST] ->
  fs_dirs w (root ++ os_sep ++ _Split.value split) = Some entries ->
  exists (self : Shenzhen.t) (expected : Z) (new : list event),
    In (split, expected) _Split.split_lengths
    /\ Shenzhen.__init__ w split root tr = (Ok self, (tr ++ new)%list)
    /\ filter is_log new
       = [Log INFO (str_int (expected - Z.of_nat (List.length entries))
                    ++ " scans are missing from " ++ upper (_Split.value split) ++ " set")]
    /\ Shenzhen.__len__ self = List.length entries.
Proof.
  intros Hin Hdir.
  assert (Hm : exists expected, In (split, expected) _Split.split_lengths
                                /\ _Split.length split = Ok expected
                                /\ Shenzhen._define_split_dir root split
                                   = Ok (root ++ os_sep ++ _Split.value split)).
  { simpl in Hin. destruct Hin as [<-|[<-|[<-|[]]]];
      [exists 361%Z|exists 91%Z|exists 114%Z]; simpl; auto. }
  destruct Hm as [expected [Hexp [Hlen Hdef]]].
  exists {| Shenzhen._root := root;
            Shenzhen._masks_path := root ++ os_sep ++ "masks";
            Shenzhen._split := split;
            Shenzhen.class_id_mapping := [("background", 0%Z); ("lung", 1%Z)];
            Shenzhen.class_names := ["background"; "lung"];
            Shenzhen._split_dir := root ++ os_sep ++ _Split.value split;
            Shenzhen.images := entries |}.
  exists expected.
  exists [Listdir (root ++ os_sep ++ _Split.value split);
          Log INFO (str_int (expected - Z.of_nat (List.length entries))
                    ++ " scans are missing from " ++ upper (_Split.value split) ++ " set");
          Listdir (root ++ os_sep ++ _Split.value split)].
  split; [exact Hexp|]. split; [|split; reflexivity].
  unfold Shenzhen.__init__, Shenzhen._check_size, listdir, logger_info, bind, lift, emit, ret.
  rewrite Hdef. cbv beta iota. rewrite Hdir. cbv beta iota. rewrite Hlen. cbv beta iota.
  rewrite <- !app_assoc. reflexivity.
Qed.

Lemma split_size_is_logged_once_at_info_witness :
  exists (self : Shenzhen.t) (new : list event),
    Shenzhen.__init__ Fixtures.world360 _Split.TRAIN "/data" [] = (Ok self, new)
    /\ filter is_log new = [Log INFO "1 scans are missing from TRAIN set"]
    /\ Shenzhen.__len__ self = 360%nat.
Proof.
  destruct (split_size_is_logged_once_at_info Fixtures.world360 _Split.TRAIN "/data" []
              (Fixtures.files 360))
    as [self [expected [new [Hexp [Hinit [Hlog Hlen]]]]]].
  - simpl. now left.
  - reflexivity.
  - exists self, new. split; [exact Hinit|]. split; [|exact Hlen].
    rewrite Hlog.
    simpl in Hexp. destruct Hexp as [He|[He|[He|[]]]]; inversion He. reflexivity.
Defined.

(** With 360 files in the TRAIN directory (canonical size 361) the index is
    built and nothing is logged at level WARNING: the one message is an INFO
    record. *)
Lemma split_size_warning_counterexample :
  exists (self : Shenzhen.t) (new : list event),
    List.length (Fixtures.files 360) = 360%nat
    /\ _Split.length _Split.TRAIN = Ok 361%Z
    /\ Shenzhen.__init__ Fixtures.world360 _Split.TRAIN "/data" [] = (Ok self, new)
    /\ logged_at WARNING new = []
    /\ logged_at INFO new = ["1 scans are missing from TRAIN set"].
Proof.
  eexists. eexists. repeat split; vm_compute; reflexivity.
Qed.

(** C6.  For every index of a constructed dataset whose mask file exists,
    target retrieval returns the mask with one leading channel dimension
    added, in which every pixel equal to 255 has become 1 (the class id of
    "lung") and every other pixel is unchanged. *)
Theorem mask_255_is_remapped_to_lung
  (w : World) (split : _Split.member) (root : string) (tr0 tr1 tr : list event)
  (self : Shenzhen.t) (index : Z) (image : string) (mask : tensor Z) :
  Shenzhen.__init__ w split root tr0 = (Ok self, tr1) ->
  getitem (Shenzhen.images self) index = Ok image ->
  fs_images w (Shenzhen._masks_path self ++ os_sep
               ++ hd EmptyString (Py.split "." image) ++ "_mask.png") = Some mask ->
  exists target : tensor Z,
    fst (Shenzhen.get_target w self index tr) = Ok target
    /\ shape target = 1%nat :: shape mask
    /\ data target = map (fun v => if (v =? 255)%Z then 1%Z else v) (data mask)
    /\ forall (i : nat) (v : Z),
         nth_error (data mask) i = Some v ->
         nth_error (data target) i = Some (if (v =? 255)%Z then 1%Z else v).
Proof.
  intros Hinit Himg Hmask.
  destruct (init_attributes _ _ _ _ _ _ Hinit) as [Hmap _].
  exists (unsqueeze0 (Shenzhen.masked_assign mask 255 1)).
  split; [|split; [reflexivity|split; [reflexivity|]]].
  - unfold Shenzhen.get_target, imread, bind, lift, emit, ret.
    rewrite Himg. cbv beta iota.
    rewrite (getitem_0_hd EmptyString) by apply split_not_nil. cbv beta iota.
    rewrite Hmask. cbv beta iota. rewrite Hmap. reflexivity.
  - intros i v Hv. simpl. now rewrite nth_error_map, Hv.
Qed.

Lemma mask_255_is_remapped_to_lung_witness :
  exists target : tensor Z,
    fst (Shenzhen.get_target Fixtures.world_masks Fixtures.index_masks 0 []) = Ok target
    /\ shape target = [1; 1; 3]%nat
    /\ data target = [0; 1; 128]%Z.
Proof.
  destruct (mask_255_is_remapped_to_lung Fixtures.world_masks _Split.TRAIN "/data" []
              [Listdir "/data/train"; Log INFO "359 scans are missing from TRAIN set";
               Listdir "/data/train"]
              [] Fixtures.index_masks 0 "CHNCXR_0001_0.png"
              (Tensor.mk [1; 3]%nat [0; 255; 128]%Z))
    as [target [Hget [Hshape [Hdata _]]]]; [reflexivity|reflexivity|reflexivity|].
  exists target. split; [exact Hget|]. split; [exact Hshape|exact Hdata].
Defined.

(** C7 (as amended).  For every valid sample index, the one file target
    retrieval reads is [<masks>/<first>_mask.png], where [first] is the part
    of the image file name before its first dot: [first] contains no dot and
    the file name is [first] alone or [first], a dot and the rest.  Whenever
    the stem of the image file name contains no dot, [first] is that stem,
    so the file read is [<image_stem>_mask.png]. *)
Theorem mask_file_is_named_after_first_component
  (w : World) (self : Shenzhen.t) (index : Z) (tr : list event) (image : string) :
  getitem (Shenzhen.images self) index = Ok image ->
  let first := hd EmptyString (Py.split "." image) in
  snd (Shenzhen.get_target w self index tr)
  = (tr ++ [Imread (Shenzhen._masks_path self ++ os_sep ++ first ++ "_mask.png")])%list
  /\ contains "." first = false
  /\ (image = first \/ exists rest, image = first ++ "." ++ rest)
  /\ (contains "." (Shenzhen.image_stem image) = false ->
      first = Shenzhen.image_stem image).
Proof.
  intros Himg first.
  split.
  - unfold Shenzhen.get_target, imread, bind, lift, emit, ret, raise.
    rewrite Himg. cbv beta iota.
    rewrite (getitem_0_hd EmptyString) by apply split_not_nil. cbv beta iota.
    fold first.
    destruct (fs_images w _); cbv beta iota; [|reflexivity].
    destruct (dict_get _ _); reflexivity.
  - destruct (split_hd "." image) as [Hc Hs].
    split; [exact Hc|]. split; [exact Hs|].
    apply stem_without_dot.
Qed.

Lemma mask_file_is_named_after_first_component_witness :
  snd (Shenzhen.get_target Fixtures.world_masks Fixtures.index_masks 0 [])
  = [Imread "/data/masks/CHNCXR_0001_0_mask.png"]
  /\ Shenzhen.image_stem "CHNCXR_0001_0.png" = "CHNCXR_0001_0".
Proof.
  destruct (mask_file_is_named_after_first_component Fixtures.world_masks
              Fixtures.index_masks 0 [] "CHNCXR_0001_0.png")
    as [Hread [_ [_ Hstem]]]; [reflexivity|].
  split; [exact Hread|].
  symmetry. apply Hstem. reflexivity.
Defined.

(** The image [a.b.png] has stem [a.b], yet the mask that is read for it is
    [a_mask.png], not [a.b_mask.png]. *)
Lemma mask_file_of_dotted_stem_counterexample :
  getitem (Shenzhen.images Fixtures.index_masks) 1 = Ok "a.b.png"
  /\ Shenzhen.image_stem "a.b.png" = "a.b"
  /\ snd (Shenzhen.get_target Fixtures.world_masks Fixtures.index_masks 1 [])
     = [Imread "/data/masks/a_mask.png"]
  /\ "/data/masks/a_mask.png"
     <> "/data/masks/" ++ Shenzhen.image_stem "a.b.png" ++ "_mask.png".
Proof.
  repeat split; try reflexivity. vm_compute. discriminate.
Qed.

(** ** Feature extraction over volumetric batches *)

Section FeatureExtraction.

Local Open Scope list_scope.

Context {F : Type} `{Torch F}.

Lemma forward_scans_calls (self : DINOV2Encoder.t F) (scans : list (tensor F))
  (tr : list (tensor F)) :
  exists calls rest,
    snd (DINOV2Encoder.forward_scans self scans tr) = tr ++ calls
    /\ map unsqueeze0 (filter non_empty scans) = calls ++ rest
    /\ (forall feats, fst (DINOV2Encoder.forward_scans self scans tr) = Ok feats -> rest = []).
Proof.
  revert tr. induction scans as [|scan scans IH]; intros tr.
  - exists [], []. simpl. rewrite app_nil_r. auto.
  - simpl. fold (non_empty scan). destruct (non_empty scan) eqn:Hne; simpl; [|apply IH].
    unfold bind, DINOV2Encoder.forward_, emit, lift, ret. unfold bind.
    destruct (dict_get _ _) as [f|e].
    + destruct (IH (tr ++ [unsqueeze0 scan])) as [calls [rest [Hs [Hc Hok]]]].
      exists (unsqueeze0 scan :: calls), rest.
      destruct (DINOV2Encoder.forward_scans self scans (tr ++ [unsqueeze0 scan]))
        as [[fs|e] tr']; simpl in *; subst tr'; rewrite <- app_assoc, Hc.
      * repeat split. intros _ _. now apply (Hok fs).
      * repeat split. discriminate.
    + exists [unsqueeze0 scan], (map unsqueeze0 (filter non_empty scans)).
      simpl. repeat split. discriminate.
Qed.

Lemma forward_3d_calls (self : DINOV2Encoder.t F) (x : batch3d F) (tr : list (tensor F)) :
  exists calls rest,
    snd (DINOV2Encoder.forward_3d self x tr) = tr ++ calls
    /\ map unsqueeze0 (concat (non_empty_slices x)) = calls ++ rest
    /\ (forall feats, fst (DINOV2Encoder.forward_3d self x tr) = Ok feats -> rest = []).
Proof.
  unfold DINOV2Encoder.forward_3d. revert tr.
  induction x as [|scans x IH]; intros tr.
  - exists [], []. simpl. rewrite app_nil_r. auto.
  - simpl. rewrite map_app. fold (@non_empty F _). unfold bind, ret.
    destruct (forward_scans_calls self scans tr) as [c1 [r1 [Hs1 [Hc1 Hok1]]]].
    destruct (DINOV2Encoder.forward_scans self scans tr) as [[fs|e] tr1];
      simpl in Hs1; subst tr1.
    + specialize (Hok1 fs eq_refl). subst r1. rewrite app_nil_r in Hc1.
      destruct (IH (tr ++ c1)) as [c2 [r2 [Hs2 [Hc2 Hok2]]]].
      exists (c1 ++ c2), r2.
      destruct (mapM (DINOV2Encoder.forward_scans self) x (tr ++ c1))
        as [[fss|e] tr2]; simpl in *; subst tr2; rewrite Hc1, Hc2, !app_assoc.
      * repeat split. intros _ _. now apply (Hok2 fss).
      * repeat split. discriminate.
    + exists c1, (r1 ++ map unsqueeze0 (concat (non_empty_slices x))).
      simpl. rewrite Hc1, app_assoc. repeat split. discriminate.
Qed.

Lemma forward_scans_tokens (self : DINOV2Encoder.t F) (tokens : tensor F -> tensor F)
  (scans : list (tensor F)) (tr : list (tensor F)) :
  (forall y, dict_get (DINOV2Encoder.encoder self y) "x_norm_patchtokens" = Ok (tokens y)) ->
  DINOV2Encoder.forward_scans self scans tr
  = (Ok (map (fun s => tokens (unsqueeze0 s)) (filter non_empty scans)),
     (tr ++ map unsqueeze0 (filter non_empty scans))%list).
Proof.
  intros Hk. revert tr. induction scans as [|scan scans IH]; intros tr.
  - simpl. now rewrite app_nil_r.
  - simpl. fold (non_empty scan). destruct (non_empty scan); simpl; [|apply IH].
    unfold bind, DINOV2Encoder.forward_, emit, lift. unfold bind. rewrite Hk, IH.
    unfold ret. now rewrite <- app_assoc.
Qed.

Lemma forward_3d_tokens (self : DINOV2Encoder.t F) (tokens : tensor F -> tensor F)
  (x : batch3d F) (tr : list (tensor F)) :
  (forall y, dict_get (DINOV2Encoder.encoder self y) "x_norm_patchtokens" = Ok (tokens y)) ->
  DINOV2Encoder.forward_3d self x tr
  = (Ok (map (map (fun s => tokens (unsqueeze0 s))) (non_empty_slices x)),
     (tr ++ map unsqueeze0 (concat (non_empty_slices x)))%list).
Proof.
  intros Hk. unfold DINOV2Encoder.forward_3d. revert tr.
  induction x as [|scans x IH]; intros tr.
  - simpl. now rewrite app_nil_r.
  - simpl. unfold bind. rewrite (forward_scans_tokens self tokens scans tr Hk), IH.
    unfold ret. fold (@non_empty F _). now rewrite map_app, app_assoc.
Qed.

Lemma feature_scans_run {X} (feature_model : tensor F -> X) (scans : list (tensor F))
  (tr : list (tensor F)) :
  feature_scans feature_model scans tr
  = (Ok (map (fun s => feature_model (unsqueeze0 s)) (filter non_empty scans)),
     (tr ++ map unsqueeze0 (filter non_empty scans))%list).
Proof.
  revert tr. induction scans as [|scan scans IH]; intros tr.
  - simpl. now rewrite app_nil_r.
  - simpl. fold (non_empty scan). destruct (non_empty scan); simpl; [|apply IH].
    unfold bind, call_feature_model, emit, ret. unfold bind. rewrite IH.
    now rewrite <- app_assoc.
Qed.

Lemma feature_extraction_run {X} (feature_model : tensor F -> X) (x : batch3d F)
  (tr : list (tensor F)) :
  mapM (feature_scans feature_model) x tr
  = (Ok (map (map (fun s => feature_model (unsqueeze0 s))) (non_empty_slices x)),
     (tr ++ map unsqueeze0 (concat (non_empty_slices x)))%list).
Proof.
  revert tr. induction x as [|scans x IH]; intros tr.
  - simpl. now rewrite app_nil_r.
  - simpl. unfold bind. rewrite feature_scans_run, IH.
    unfold ret. fold (@non_empty F _). now rewrite map_app, app_assoc.
Qed.

Lemma classifier_forward_pass_calls {X} (feature_model : tensor F -> X)
  (heads : wrapped_heads X F) (x : batch3d F) (tr : list (tensor F)) :
  snd (classifier_forward_pass feature_model heads (Batch3d x) true tr)
  = (tr ++ map unsqueeze0 (concat (non_empty_slices x)))%list.
Proof.
  unfold classifier_forward_pass, bind, lift. cbn [volumes].
  rewrite feature_extraction_run.
  repeat match goal with
         | |- context [match ?r with Ok _ => _ | Raise _ => _ end] => destruct r; simpl
         end; reflexivity.
Qed.

(** C1.  For every volumetric batch, the calls [forward_3d] makes to the
    backbone are, in order, calls on (the unsqueezed) slices that are not
    all-zero, never on an empty slice: the calls made form an initial segment
    of the non-empty slices, and all of them when [forward_3d] returns.  When
    the backbone provides its patch tokens, [forward_3d] returns, for each
    sample, exactly one embedding per non-empty slice, in the original slice
    order.  The feature loop of [classifier_forward_pass] does the same with
    its feature model. *)
Theorem empty_slices_are_skipped (self : DINOV2Encoder.t F) (x : batch3d F)
  (tr : list (tensor F)) :
  Forall (fun scan => is_zero_matrix scan = false) (concat (non_empty_slices x))
  /\ (exists calls rest,
        snd (DINOV2Encoder.forward_3d self x tr) = tr ++ calls
        /\ map unsqueeze0 (concat (non_empty_slices x)) = calls ++ rest
        /\ (forall feats,
              fst (DINOV2Encoder.forward_3d self x tr) = Ok feats -> rest = []))
  /\ (forall tokens : tensor F -> tensor F,
        (forall y, dict_get (DINOV2Encoder.encoder self y) "x_norm_patchtokens"
                   = Ok (tokens y)) ->
        DINOV2Encoder.forward_3d self x tr
        = (Ok (map (map (fun s => tokens (unsqueeze0 s))) (non_empty_slices x)),
           tr ++ map unsqueeze0 (concat (non_empty_slices x))))
  /\ (forall (X : Type) (feature_model : tensor F -> X) (heads : wrapped_heads X F),
        mapM (feature_scans feature_model) x tr
        = (Ok (map (map (fun s => feature_model (unsqueeze0 s))) (non_empty_slices x)),
           tr ++ map unsqueeze0 (concat (non_empty_slices x)))
        /\ snd (classifier_forward_pass feature_model heads (Batch3d x) true tr)
           = tr ++ map unsqueeze0 (concat (non_empty_slices x))).
Proof.
  split; [|split; [apply forward_3d_calls|split]].
  - apply Forall_forall. intros scan Hin.
    apply in_concat in Hin. destruct Hin as [scans [Hs Hin]].
    unfold non_empty_slices in Hs. apply in_map_iff in Hs.
    destruct Hs as [scans0 [<- _]]. apply filter_In in Hin.
    destruct Hin as [_ Hne]. now apply negb_true_iff in Hne.
  - intros tokens Hk. now apply forward_3d_tokens.
  - intros X feature_model heads. split.
    + apply feature_extraction_run.
    + apply classifier_forward_pass_calls.
Qed.

(** C10.  A volumetric sample all of whose slices are the empty sentinel
    makes 3D feature extraction return an empty embedding sequence for it
    (without calling the backbone), and non-vectorized 3D decoding of that
    sequence raises: [torch.stack] is handed an empty list.  The same holds
    through the two [forward] methods of a 3D encoder and a 3D decoder. *)
Theorem all_empty_sample_breaks_decoding (self : DINOV2Encoder.t F)
  (decoder : LinearDecoder.t) (sample : list (tensor F)) (tr : list (tensor F)) :
  forallb is_zero_matrix sample = true ->
  DINOV2Encoder.forward_3d self [sample] tr = (Ok [[]], tr)
  /\ LinearDecoder.forward_3d decoder [[]] false
     = Raise (RuntimeError "stack expects a non-empty TensorList")
  /\ (DINOV2Encoder.is_3d self = true -> LinearDecoder.is_3d decoder = true ->
      DINOV2Encoder.forward self (Batch3d [sample]) tr = (Ok (Batch3d [[]]), tr)
      /\ LinearDecoder.forward decoder (Batch3d [[]])
         = Raise (RuntimeError "stack expects a non-empty TensorList")).
Proof.
  intros Hzero.
  assert (Hrun : DINOV2Encoder.forward_3d self [sample] tr = (Ok [[]], tr)).
  { unfold DINOV2Encoder.forward_3d. simpl. unfold bind, ret.
    assert (Hscans : forall tr', DINOV2Encoder.forward_scans self sample tr' = (Ok [], tr')).
    { induction sample as [|scan sample IH]; intros tr'; [reflexivity|].
      simpl in Hzero. apply andb_true_iff in Hzero. destruct Hzero as [Hz Hrest].
      simpl. rewrite Hz. simpl. now apply IH. }
    now rewrite Hscans. }
  split; [exact Hrun|]. split; [reflexivity|].
  intros Henc Hdec. split.
  - unfold DINOV2Encoder.forward. rewrite Henc. unfold bind, lift. cbn [volumes].
    now rewrite Hrun.
  - unfold LinearDecoder.forward. rewrite Hdec. reflexivity.
Qed.

End FeatureExtraction.

Lemma empty_slices_are_skipped_witness :
  DINOV2Encoder.forward_3d Fixtures.identity_encoder Fixtures.five_slices []
  = (Ok [[unsqueeze0 (Fixtures.slice 1 2); unsqueeze0 (Fixtures.slice 3 4);
          unsqueeze0 (Fixtures.slice 5 6)]],
     [unsqueeze0 (Fixtures.slice 1 2); unsqueeze0 (Fixtures.slice 3 4);
      unsqueeze0 (Fixtures.slice 5 6)]).
Proof.
  destruct (empty_slices_are_skipped Fixtures.identity_encoder Fixtures.five_slices [])
    as [_ [_ [Htokens _]]].
  apply (Htokens (fun y => y)). intros y. reflexivity.
Defined.

Lemma all_empty_sample_breaks_decoding_witness :
  DINOV2Encoder.forward Fixtures.identity_encoder
    (Batch3d [[Fixtures.slice 0 0; Fixtures.slice 0 0]]) []
  = (Ok (Batch3d [[]]), [])
  /\ LinearDecoder.forward Fixtures.decoder3d (Batch3d [[]])
     = Raise (RuntimeError "stack expects a non-empty TensorList").
Proof.
  destruct (all_empty_sample_breaks_decoding Fixtures.identity_encoder Fixtures.decoder3d
              [Fixtures.slice 0 0; Fixtures.slice 0 0] [])
    as [_ [_ Hforward]]; [reflexivity|].
  apply Hforward; reflexivity.
Defined.

(** ** Decoder sweep *)

Section Dictionaries.

Local Open Scope list_scope.

Context {V : Type}.

Lemma dict_set_fresh (d : dict V) (k : string) (v : V) :
  ~ In k (keys d) -> dict_set d k v = d ++ [(k, v)].
Proof.
  induction d as [|[k' v'] d IH]; simpl; intros Hnot; [reflexivity|].
  destruct (String.eqb_spec k' k) as [->|Hne].
  - exfalso. apply Hnot. now left.
  - rewrite IH; [reflexivity|]. intros Hin. apply Hnot. now right.
Qed.

Lemma keys_dict_set_present (d : dict V) (k : string) (v : V) :
  In k (keys d) -> keys (dict_set d k v) = keys d.
Proof.
  induction d as [|[k' v'] d IH]; simpl; intros Hin; [contradiction|].
  destruct (String.eqb_spec k' k) as [->|Hne]; [reflexivity|].
  simpl. rewrite IH; [reflexivity|]. destruct Hin as [Heq|Hin]; [contradiction|exact Hin].
Qed.

Lemma in_keys_dict_set (d : dict V) (k : string) (v : V) (x : string) :
  In x (keys (dict_set d k v)) <-> In x (keys d) \/ x = k.
Proof.
  destruct (in_dec string_dec k (keys d)) as [Hin|Hnot].
  - rewrite keys_dict_set_present by exact Hin. split; [auto|].
    intros [H | ->]; assumption.
  - rewrite dict_set_fresh by exact Hnot. unfold keys. rewrite map_app, in_app_iff.
    simpl. split.
    + intros [H|[<-|[]]]; auto.
    + intros [H | ->]; auto.
Qed.

Lemma nodup_keys_dict_set (d : dict V) (k : string) (v : V) :
  NoDup (keys d) -> NoDup (keys (dict_set d k v)).
Proof.
  intros Hnd. destruct (in_dec string_dec k (keys d)) as [Hin|Hnot].
  - now rewrite keys_dict_set_present.
  - rewrite dict_set_fresh by exact Hnot. unfold keys. rewrite map_app. simpl.
    apply NoDup_app; [exact Hnd|repeat constructor; intros []|].
    intros x Hx [<-|[]]. now apply Hnot.
Qed.

Lemma dict_set_not_nil (d : dict V) (k : string) (v : V) : dict_set d k v <> [].
Proof.
  destruct d as [|[k' v'] d]; simpl; [discriminate|].
  destruct (String.eqb k' k); discriminate.
Qed.

Lemma dict_update_fresh (acc d : dict V) :
  NoDup (keys acc ++ keys d) -> dict_update acc d = acc ++ d.
Proof.
  unfold dict_update. revert acc. induction d as [|[k v] d IH]; intros acc Hnd; simpl.
  - now rewrite app_nil_r.
  - assert (Hnot : ~ In k (keys acc)).
    { intros Hin. simpl in Hnd. apply NoDup_remove_2 in Hnd. apply Hnd.
      apply in_or_app. now left. }
    rewrite dict_set_fresh by exact Hnot. rewrite IH.
    + now rewrite <- app_assoc.
    + unfold keys in *. rewrite map_app, <- app_assoc. exact Hnd.
Qed.

End Dictionaries.

Section DecoderSweep.

Local Open Scope list_scope.

Variables (embed_dim num_classes : nat) (is_3d : bool).

Lemma setup_loop_linear (learning_rates : list Q) :
  forall (fresh : nat) (d : dict LinearDecoder.t) (g : list param_group),
  exists d' g',
    setup_loop embed_dim num_classes "linear" is_3d learning_rates fresh d g = Ok (d', g')
    /\ map lr g' = map lr g ++ learning_rates
    /\ (NoDup (keys d) -> NoDup (keys d'))
    /\ (forall k, In k (keys d') <-> In k (keys d) \/ In k (map (decoder_key "linear") learning_rates))
    /\ (learning_rates <> [] -> d' <> [])
    /\ (NoDup (keys d ++ map (decoder_key "linear") learning_rates) ->
        keys d' = keys d ++ map (decoder_key "linear") learning_rates
        /\ (Forall2 serves (values d) g -> Forall2 serves (values d') g')).
Proof.
  induction learning_rates as [|rate rest IH]; intros fresh d g.
  - exists d, g. simpl. rewrite !app_nil_r. repeat split; auto.
    intros [H|[]]. exact H.
  - simpl.
    destruct (IH (S fresh)
                 (dict_set d (decoder_key "linear" rate)
                    (LinearDecoder.__init__ fresh embed_dim 32 32 num_classes is_3d))
                 (g ++ [{| params := LinearDecoder.decoder
                                       (LinearDecoder.__init__ fresh embed_dim 32 32
                                          num_classes is_3d);
                           lr := rate |}]))
      as [d' [g' [Hrun [Hlr [Hnd [Hin [Hne Hfresh]]]]]]].
    exists d', g'. split; [exact Hrun|]. split; [|split; [|split; [|split]]].
    + rewrite Hlr, map_app, <- app_assoc. reflexivity.
    + intros H. apply Hnd. now apply nodup_keys_dict_set.
    + intros k. rewrite Hin, in_keys_dict_set. simpl. intuition.
    + intros _. destruct rest as [|rate' rest].
      * simpl in Hrun. inversion Hrun. apply dict_set_not_nil.
      * apply Hne. discriminate.
    + intros Hnodup.
      assert (Hnot : ~ In (decoder_key "linear" rate) (keys d)).
      { intros Hk. apply NoDup_remove_2 in Hnodup. apply Hnodup.
        apply in_or_app. now left. }
      rewrite (dict_set_fresh d (decoder_key "linear" rate)) in Hfresh by exact Hnot.
      unfold keys, values in Hfresh. rewrite !map_app in Hfresh. simpl in Hfresh.
      rewrite <- app_assoc in Hfresh. simpl in Hfresh.
      destruct (Hfresh Hnodup) as [Hkeys Hserve].
      split; [exact Hkeys|].
      intros Hd. apply Hserve. apply Forall2_app; [exact Hd|].
      constructor; [reflexivity|constructor].
Qed.

(** C3 (as amended).  For every non-empty list of learning rates,
    [setup_decoders] (decoder type "linear") returns an ensemble and exactly
    one optimizer parameter group per learning rate, in order, each carrying
    its learning rate.  The ensemble that is returned is never empty, its
    keys are pairwise distinct, and they are exactly the keys
    ["linear:lr=<rate to ten decimals, dot written as underscore>"] of the
    given rates.  When these keys are pairwise distinct over the list, the
    ensemble exposes exactly one decoder per learning rate, in order, and
    the i-th parameter group holds the parameters of the i-th decoder. *)
Theorem setup_decoders_sweep (distributed_enabled : bool) (fresh : nat)
  (learning_rates : list Q) :
  learning_rates <> [] ->
  exists (all : decoders) (groups : list param_group),
    setup_decoders distributed_enabled fresh embed_dim learning_rates num_classes
                   "linear" is_3d = Ok (all, groups)
    /\ map lr groups = learning_rates
    /\ NoDup (keys (AllDecoders.decoders_dict (ensemble all)))
    /\ (forall k, In k (keys (AllDecoders.decoders_dict (ensemble all)))
                  <-> In k (map (decoder_key "linear") learning_rates))
    /\ (0 < AllDecoders.__len__ (ensemble all))%nat
    /\ (NoDup (map (decoder_key "linear") learning_rates) ->
        keys (AllDecoders.decoders_dict (ensemble all))
        = map (decoder_key "linear") learning_rates
        /\ AllDecoders.__len__ (ensemble all) = List.length learning_rates
        /\ Forall2 serves (values (AllDecoders.decoders_dict (ensemble all))) groups).
Proof.
  intros Hne.
  destruct (setup_loop_linear learning_rates fresh [] [])
    as [d' [g' [Hrun [Hlr [Hnd [Hin [Hnil Hfresh]]]]]]].
  specialize (Hnd (NoDup_nil _)). specialize (Hnil Hne).
  assert (Hown : dict_update [] d' = d') by (apply dict_update_fresh; exact Hnd).
  assert (Hinit : AllDecoders.__init__ d'
                  = Ok {| AllDecoders.decoders_dict := d';
                          AllDecoders.decoder_type := LinearDecoder.DECODER_TYPE |}).
  { unfold AllDecoders.__init__. rewrite Hown.
    destruct d' as [|kv d']; [contradiction|]. reflexivity. }
  exists (if distributed_enabled
          then DistributedDataParallel {| AllDecoders.decoders_dict := d';
                                          AllDecoders.decoder_type := LinearDecoder.DECODER_TYPE |}
          else Plain {| AllDecoders.decoders_dict := d';
                        AllDecoders.decoder_type := LinearDecoder.DECODER_TYPE |}), g'.
  assert (Hens : ensemble
                   (if distributed_enabled
                    then DistributedDataParallel
                           {| AllDecoders.decoders_dict := d';
                              AllDecoders.decoder_type := LinearDecoder.DECODER_TYPE |}
                    else Plain {| AllDecoders.decoders_dict := d';
                                  AllDecoders.decoder_type := LinearDecoder.DECODER_TYPE |})
                 = {| AllDecoders.decoders_dict := d';
                      AllDecoders.decoder_type := LinearDecoder.DECODER_TYPE |})
    by (destruct distributed_enabled; reflexivity).
  rewrite Hens. simpl AllDecoders.decoders_dict. unfold AllDecoders.__len__.
  simpl AllDecoders.decoders_dict.
  split; [|split; [exact Hlr|split; [exact Hnd|split; [|split]]]].
  - unfold setup_decoders. rewrite Hrun. simpl. rewrite Hinit. reflexivity.
  - intros k. rewrite Hin. simpl. intuition.
  - destruct d'; [contradiction|simpl; lia].
  - intros Hnodup. destruct (Hfresh Hnodup) as [Hkeys Hserve]. simpl in Hkeys.
    split; [exact Hkeys|]. split.
    + rewrite <- (length_map fst d'). fold (keys d'). rewrite Hkeys. apply length_map.
    + apply Hserve. constructor.
Qed.

End DecoderSweep.

Lemma setup_decoders_sweep_witness :
  exists (all : decoders) (groups : list param_group),
    setup_decoders false 0 384 [(1 # 10)%Q; (1 # 100)%Q] 14 "linear" false = Ok (all, groups)
    /\ map lr groups = [(1 # 10)%Q; (1 # 100)%Q]
    /\ keys (AllDecoders.decoders_dict (ensemble all))
       = ["linear:lr=0_1000000000"; "linear:lr=0_0100000000"]
    /\ AllDecoders.__len__ (ensemble all) = 2%nat.
Proof.
  destruct (setup_decoders_sweep 384 14 false false 0 [(1 # 10)%Q; (1 # 100)%Q])
    as [all [groups [Hrun [Hlr [_ [_ [_ Hdistinct]]]]]]]; [discriminate|].
  destruct Hdistinct as [Hkeys [Hlen _]].
  - vm_compute. repeat constructor; simpl; intuition discriminate.
  - exists all, groups. repeat split; assumption.
Defined.

(** The rates [0.1, 0.1] yield one decoder but two parameter groups, and the
    empty list of rates yields no ensemble at all: [AllDecoders.__init__]
    raises on the empty dictionary. *)
Lemma setup_decoders_counterexample :
  (exists (all : decoders) (groups : list param_group),
     setup_decoders false 0 384 [(1 # 10)%Q; (1 # 10)%Q] 14 "linear" false = Ok (all, groups)
     /\ AllDecoders.__len__ (ensemble all) = 1%nat
     /\ List.length groups = 2%nat)
  /\ setup_decoders false 0 384 [] 14 "linear" false
     = Raise (IndexError "list index out of range").
Proof.
  split; [|reflexivity].
  eexists. eexists. split; [vm_compute; reflexivity|]. split; reflexivity.
Qed.

(** ** Tensors: blocks, concatenation *)

Section Blocks.

Local Open Scope list_scope.

Context {A : Type}.

Lemma chunks_length (sz n : nat) (l : list A) : List.length (chunks sz n l) = n.
Proof.
  revert l. induction n as [|n IH]; intros l; simpl; [reflexivity|]. now rewrite IH.
Qed.

Lemma chunks_app (sz n1 n2 : nat) (l1 l2 : list A) :
  List.length l1 = (n1 * sz)%nat ->
  chunks sz (n1 + n2) (l1 ++ l2) = chunks sz n1 l1 ++ chunks sz n2 l2.
Proof.
  revert l1. induction n1 as [|n1 IH]; intros l1 Hlen; simpl in *.
  - apply length_zero_iff_nil in Hlen. now subst.
  - assert (Hle : (sz <= List.length l1)%nat) by lia.
    rewrite firstn_app, skipn_app.
    replace (sz - List.length l1)%nat with 0%nat by lia. simpl.
    rewrite app_nil_r. f_equal. apply IH.
    rewrite length_skipn. lia.
Qed.

Lemma chunks_sizes (sz n : nat) (l : list A) :
  List.length l = (n * sz)%nat ->
  Forall (fun b => List.length b = sz) (chunks sz n l).
Proof.
  revert l. induction n as [|n IH]; intros l Hlen; simpl in *; constructor.
  - rewrite length_firstn. lia.
  - apply IH. rewrite length_skipn. lia.
Qed.

Lemma chunks_concat (sz : nat) (bs : list (list A)) :
  Forall (fun b => List.length b = sz) bs ->
  chunks sz (List.length bs) (concat bs) = bs.
Proof.
  induction 1 as [|b bs Hb Hbs IH]; simpl; [reflexivity|].
  rewrite firstn_app, skipn_app, Hb, Nat.sub_diag. simpl.
  rewrite firstn_all2, skipn_all2 by lia. simpl. rewrite app_nil_r. now rewrite IH.
Qed.

Lemma concat_chunks (sz n : nat) (l : list A) :
  List.length l = (n * sz)%nat -> concat (chunks sz n l) = l.
Proof.
  revert l. induction n as [|n IH]; intros l Hlen; simpl in *.
  - apply length_zero_iff_nil in Hlen. now subst.
  - rewrite IH; [apply firstn_skipn|]. rewrite length_skipn. lia.
Qed.

Lemma chunks_map {B} (f : A -> B) (sz n : nat) (l : list A) :
  chunks sz n (map f l) = map (map f) (chunks sz n l).
Proof.
  revert l. induction n as [|n IH]; intros l; simpl; [reflexivity|].
  now rewrite firstn_map, skipn_map, IH.
Qed.

Lemma zip_cons_length (xs : list A) (acc : list (list A)) :
  List.length xs = List.length acc -> List.length (zip_cons xs acc) = List.length xs.
Proof.
  intros Hlen. unfold zip_cons. rewrite length_map, length_combine. lia.
Qed.

Lemma transpose_length (n : nat) (xss : list (list A)) :
  Forall (fun xs => List.length xs = n) xss -> List.length (transpose n xss) = n.
Proof.
  unfold transpose. induction 1 as [|xs xss Hxs Hxss IH]; simpl.
  - apply repeat_length.
  - rewrite zip_cons_length; [exact Hxs|]. now rewrite IH.
Qed.

End Blocks.

Lemma shape_eqb_eq (s1 s2 : list nat) : shape_eqb s1 s2 = true <-> s1 = s2.
Proof.
  unfold shape_eqb. destruct (list_eq_dec Nat.eq_dec s1 s2); split; auto; discriminate.
Qed.

Lemma shape_eqb_refl (s : list nat) : shape_eqb s s = true.
Proof. now apply shape_eqb_eq. Qed.

Section Concatenation.

Local Open Scope list_scope.

Context {A : Type}.


Lemma kept_same (rest : list nat) (ts : list (tensor A)) :
  uniform rest ts ->
  fold_right Nat.add 0%nat
    (map lead (filter (fun t => negb (shape_eqb (shape t) [0%nat])) ts))
  = fold_right Nat.add 0%nat (map lead ts)
  /\ concat (map data (filter (fun t => negb (shape_eqb (shape t) [0%nat])) ts))
     = concat (map data ts)
  /\ uniform rest (filter (fun t => negb (shape_eqb (shape t) [0%nat])) ts).
Proof.
  induction 1 as [|t ts [Hshape Hwf] Hts [IHn [IHd IHu]]]; simpl.
  - repeat split. constructor.
  - destruct (shape_eqb (shape t) [0%nat]) eqn:He; simpl.
    + apply shape_eqb_eq in He. unfold wf in Hwf. rewrite He in Hwf. simpl in Hwf.
      apply length_zero_iff_nil in Hwf. unfold lead at 2. rewrite He, Hwf. simpl.
      auto.
    + rewrite IHn, IHd. repeat split.
      constructor; [split; assumption|exact IHu].
Qed.

Lemma cat0_uniform (rest : list nat) (ts : list (tensor A)) :
  ts <> [] -> uniform rest ts ->
  cat0 ts = Ok (Tensor.mk (fold_right Nat.add 0%nat (map lead ts) :: rest)
                          (concat (map data ts))).
Proof.
  intros Hne Hu. destruct (kept_same rest ts Hu) as [Hn [Hd Hk]].
  unfold cat0. destruct ts as [|t ts]; [contradiction|].
  destruct (filter (fun t => negb (shape_eqb (shape t) [0%nat])) (t :: ts))
    as [|t0 ts'] eqn:Hkept.
  - (* every tensor is the one-dimensional empty tensor *)
    rewrite <- Hn, <- Hd. simpl.
    assert (Hin : ~ In t (filter (fun t => negb (shape_eqb (shape t) [0%nat])) (t :: ts)))
      by (rewrite Hkept; intros []).
    rewrite filter_In in Hin.
    destruct (shape_eqb (shape t) [0%nat]) eqn:He.
    + apply shape_eqb_eq in He. inversion Hu as [|? ? [Hs _] _]; subst.
      rewrite He in Hs. inversion Hs. reflexivity.
    + exfalso. apply Hin. split; [now left|reflexivity].
  - rewrite <- Hn, <- Hd.
    assert (Hnd : existsb (fun t => shape_eqb (shape t) []) (t0 :: ts') = false).
    { apply not_true_is_false. intros Hex. apply existsb_exists in Hex.
      destruct Hex as [u [Hin He]]. apply shape_eqb_eq in He.
      unfold uniform in Hk. rewrite Forall_forall in Hk.
      destruct (Hk u Hin) as [Hs _]. rewrite He in Hs. discriminate. }
    rewrite Hnd.
    assert (Htail : forall u, In u (t0 :: ts') -> tail_shape u = rest).
    { intros u Hin. unfold uniform in Hk. rewrite Forall_forall in Hk.
      destruct (Hk u Hin) as [Hs _]. unfold tail_shape. now rewrite Hs. }
    assert (Hall : forallb (fun u => shape_eqb (tail_shape u) (tail_shape t0)) ts' = true).
    { apply forallb_forall. intros u Hin. apply shape_eqb_eq.
      rewrite !Htail; [reflexivity|now left|now right]. }
    rewrite Hall, (Htail t0) by now left. reflexivity.
Qed.

End Concatenation.

Section BlocksOfCat.

Local Open Scope list_scope.

Context {A : Type}.

Lemma blocks_length (t : tensor A) : List.length (blocks t) = lead t.
Proof. apply chunks_length. Qed.

Lemma uniform_data_length (rest : list nat) (t : tensor A) :
  shape t = lead t :: rest -> wf t ->
  List.length (data t) = (lead t * numel rest)%nat.
Proof. unfold wf. intros -> ->. reflexivity. Qed.

Lemma blocks_sizes (rest : list nat) (t : tensor A) :
  shape t = lead t :: rest -> wf t ->
  Forall (fun b => List.length b = numel rest) (blocks t).
Proof.
  intros Hs Hwf. unfold blocks, tail_shape. rewrite Hs. simpl tl.
  apply chunks_sizes. now apply uniform_data_length.
Qed.

Lemma total_blocks (ts : list (tensor A)) :
  List.length (concat (map blocks ts)) = fold_right Nat.add 0%nat (map lead ts).
Proof.
  induction ts as [|t ts IH]; simpl; [reflexivity|].
  now rewrite length_app, blocks_length, IH.
Qed.

Lemma blocks_cat (rest : list nat) (ts : list (tensor A)) :
  uniform rest ts ->
  chunks (numel rest) (fold_right Nat.add 0%nat (map lead ts)) (concat (map data ts))
  = concat (map blocks ts).
Proof.
  induction 1 as [|t ts [Hs Hwf] Hts IH]; simpl; [reflexivity|].
  rewrite chunks_app by now apply uniform_data_length.
  rewrite IH. f_equal. unfold blocks, tail_shape. rewrite Hs. reflexivity.
Qed.

End BlocksOfCat.

Section Postprocessing.

Local Open Scope list_scope.

Context {S F L : Type} `{Torch F} `{Int64Cast L}.

Lemma matching_uniform (c : nat) (sp : list nat) (ls : list (tensor F))
  (ts : list (tensor L)) :
  matching c sp ls ts ->
  uniform (c :: sp) ls /\ uniform sp ts
  /\ fold_right Nat.add 0%nat (map lead ts) = fold_right Nat.add 0%nat (map lead ls)
  /\ Forall2 (fun l t => List.length (blocks l) = List.length (blocks t)) ls ts.
Proof.
  induction 1 as [|l t ls ts [Hl [Ht [Hwl Hwt]]] Hrest [IHl [IHt [IHn IHb]]]].
  - repeat split; constructor.
  - assert (Hlead : lead t = lead l) by (unfold lead at 1; now rewrite Ht).
    repeat split.
    + constructor; [split; assumption|exact IHl].
    + constructor; [split; [now rewrite Hlead|assumption]|exact IHt].
    + simpl. now rewrite Hlead, IHn.
    + constructor; [now rewrite !blocks_length|exact IHb].
Qed.

Lemma slice_argmax_length (c : nat) (sp : list nat) (blk : list F) :
  List.length blk = (c * numel sp)%nat ->
  List.length (slice_argmax c sp blk) = numel sp.
Proof.
  intros Hlen. unfold slice_argmax. rewrite length_map.
  apply transpose_length. now apply chunks_sizes.
Qed.

(** C8.  For every 3D batch whose decoder output is a list of per-sample
    slice sequences (with matching per-sample target sequences), the
    postprocessor concatenates the logit sequences and the target sequences
    along the first dimension, takes the argmax over the class dimension of
    the concatenated logits and casts the concatenated targets to int64.
    Predictions and targets then have one entry per slice the decoder
    produced, sample after sample and slice after slice in both, so the r-th
    prediction map and the r-th target belong to the same slice. *)
Theorem postprocessor_flattens_slices (self : LinearPostprocessor.t S F) (samples : S)
  (ls : list (tensor F)) (ts : list (tensor L)) (c : nat) (sp : list nat) :
  LinearPostprocessor.decoder self samples = Ok (VList ls) ->
  ls <> [] -> c <> 0%nat -> matching c sp ls ts ->
  exists (logits : tensor F) (targets : tensor L) (out : LinearPostprocessor.output),
    cat0 ls = Ok logits
    /\ cat0 ts = Ok targets
    /\ argmax1 logits = Ok (LinearPostprocessor.preds out)
    /\ LinearPostprocessor.target out
       = Tensor.mk (shape targets) (map to_int64 (data targets))
    /\ LinearPostprocessor.forward self samples (VList ts) = Ok out
    /\ shape (LinearPostprocessor.preds out)
       = fold_right Nat.add 0%nat (map lead ls) :: sp
    /\ shape (LinearPostprocessor.target out)
       = fold_right Nat.add 0%nat (map lead ls) :: sp
    /\ blocks (LinearPostprocessor.preds out)
       = concat (map (fun l => map (slice_argmax c sp) (blocks l)) ls)
    /\ blocks (LinearPostprocessor.target out)
       = concat (map (fun t => map (map to_int64) (blocks t)) ts)
    /\ Forall2 (fun l t => List.length (blocks l) = List.length (blocks t)) ls ts.
Proof.
  intros Hdec Hne Hc Hm.
  destruct (matching_uniform c sp ls ts Hm) as [Hul [Hut [Hn Hb]]].
  assert (Htne : ts <> []).
  { intros ->. inversion Hm. subst. contradiction. }
  pose proof (cat0_uniform (c :: sp) ls Hne Hul) as Hcl.
  pose proof (cat0_uniform sp ts Htne Hut) as Hct.
  rewrite Hn in Hct.
  set (n := fold_right Nat.add 0%nat (map lead ls)) in *.
  set (preds := Tensor.mk (n :: sp)
                  (concat (map (slice_argmax c sp)
                               (chunks (c * numel sp) n (concat (map data ls)))))).
  assert (Harg : argmax1 (Tensor.mk (n :: c :: sp) (concat (map data ls))) = Ok preds).
  { unfold argmax1. cbn [shape]. apply Nat.eqb_neq in Hc. rewrite Hc. reflexivity. }
  exists (Tensor.mk (n :: c :: sp) (concat (map data ls))),
         (Tensor.mk (n :: sp) (concat (map data ts))),
         {| LinearPostprocessor.preds := preds;
            LinearPostprocessor.target :=
              Tensor.mk (n :: sp) (map to_int64 (concat (map data ts))) |}.
  simpl LinearPostprocessor.preds. simpl LinearPostprocessor.target.
  split; [exact Hcl|]. split; [exact Hct|]. split; [exact Harg|].
  split; [reflexivity|]. split; [|split; [reflexivity|split; [reflexivity|split; [|split]]]].
  - unfold LinearPostprocessor.forward. rewrite Hdec. simpl rbind.
    rewrite Hcl. simpl rbind. rewrite Hct. simpl rbind. simpl fst. rewrite Harg.
    reflexivity.
  - unfold blocks, tail_shape, lead, preds. simpl shape. simpl hd. simpl tl. simpl data.
    pose proof (blocks_cat (c :: sp) ls Hul) as Hblk. fold n in Hblk.
    simpl numel in Hblk. rewrite Hblk.
    assert (Hcount : n = List.length (map (slice_argmax c sp) (concat (map blocks ls)))).
    { rewrite length_map, total_blocks. reflexivity. }
    rewrite Hcount at 1. rewrite chunks_concat.
    + rewrite concat_map, map_map. reflexivity.
    + apply Forall_forall. intros b Hin. apply in_map_iff in Hin.
      destruct Hin as [blk [<- Hin]]. apply slice_argmax_length.
      apply in_concat in Hin. destruct Hin as [bs [Hbs Hin]].
      apply in_map_iff in Hbs. destruct Hbs as [l [<- Hl]].
      unfold uniform in Hul. rewrite Forall_forall in Hul.
      destruct (Hul l Hl) as [Hs Hwf].
      pose proof (blocks_sizes (c :: sp) l Hs Hwf) as Hsz.
      rewrite Forall_forall in Hsz. apply (Hsz blk Hin).
  - unfold blocks, tail_shape, lead. simpl shape. simpl hd. simpl tl. simpl data.
    rewrite chunks_map.
    pose proof (blocks_cat sp ts Hut) as Hblk. rewrite Hn in Hblk. fold n in Hblk.
    rewrite Hblk, concat_map, map_map. reflexivity.
  - exact Hb.
Qed.

End Postprocessing.

Lemma postprocessor_flattens_slices_witness :
  exists out : LinearPostprocessor.output,
    LinearPostprocessor.forward Fixtures.postprocessor tt (VList Fixtures.targets3d) = Ok out
    /\ blocks (LinearPostprocessor.preds out) = [[1; 0]; [0; 1]; [1; 0]]%Z
    /\ blocks (LinearPostprocessor.target out) = [[1; 0]; [0; 1]; [1; 1]]%Z.
Proof.
  destruct (postprocessor_flattens_slices Fixtures.postprocessor tt Fixtures.logits3d
              Fixtures.targets3d 2 [2%nat])
    as [logits [targets [out [_ [_ [_ [_ [Hrun [_ [_ [Hp [Ht _]]]]]]]]]]]].
  - reflexivity.
  - discriminate.
  - discriminate.
  - repeat constructor.
  - exists out. split; [exact Hrun|]. split; [rewrite Hp|rewrite Ht]; reflexivity.
Defined.

(** ** Tensors: stacking *)

Section Stacking.

Local Open Scope list_scope.

Context {A : Type}.

Lemma numel_squeeze (s : list nat) :
  numel (filter (fun d => negb (d =? 1)%nat) s) = numel s.
Proof.
  induction s as [|d s IH]; simpl; [reflexivity|].
  destruct (Nat.eqb_spec d 1) as [->|Hd]; simpl; lia.
Qed.

Lemma zip_cons_map {B} (f : B -> A) (g : B -> list A) (ys : list B) :
  zip_cons (map f ys) (map g ys) = map (fun y => f y :: g y) ys.
Proof.
  unfold zip_cons. induction ys as [|y ys IH]; simpl; [reflexivity|]. now rewrite IH.
Qed.

(** Transposing the table [f x y] (rows [x], columns [y]). *)
Lemma transpose_table {B C} (f : B -> C -> A) (xs : list B) (ys : list C) :
  transpose (List.length ys) (map (fun x => map (f x) ys) xs)
  = map (fun y => map (fun x => f x y) xs) ys.
Proof.
  unfold transpose. induction xs as [|x xs IH]; simpl.
  - induction ys as [|y ys IHy]; simpl; [reflexivity|]. now rewrite IHy.
  - rewrite IH. apply zip_cons_map.
Qed.

Lemma all_shapes (s : list nat) (t0 : tensor A) (ts : list (tensor A)) :
  Forall (fun t => shape t = s) (t0 :: ts) ->
  forallb (fun t => shape_eqb (shape t) (shape t0)) ts = true.
Proof.
  intros Hall. pose proof (Forall_inv Hall) as H0.
  pose proof (Forall_inv_tail Hall) as Hts. simpl in H0.
  apply forallb_forall. intros t Hin. apply shape_eqb_eq.
  rewrite Forall_forall in Hts. rewrite H0. now apply Hts.
Qed.

Lemma stack0_same_shape (s : list nat) (ts : list (tensor A)) :
  ts <> [] -> Forall (fun t => shape t = s) ts ->
  stack0 ts = Ok (Tensor.mk (List.length ts :: s) (concat (map data ts))).
Proof.
  intros Hne Hall. destruct ts as [|t0 ts]; [contradiction|].
  unfold stack0. rewrite (all_shapes s t0 ts Hall).
  pose proof (Forall_inv Hall) as H0. simpl in H0. now rewrite H0.
Qed.

Lemma stack1_same_shape (d : nat) (rest : list nat) (ts : list (tensor A)) :
  ts <> [] -> Forall (fun t => shape t = d :: rest) ts ->
  stack1 ts = Ok (Tensor.mk (d :: List.length ts :: rest)
                            (concat (map (@concat A) (transpose d (map blocks ts))))).
Proof.
  intros Hne Hall. destruct ts as [|t0 ts]; [contradiction|].
  unfold stack1. rewrite (all_shapes (d :: rest) t0 ts Hall).
  pose proof (Forall_inv Hall) as H0. simpl in H0. now rewrite H0.
Qed.

Lemma getitem_middle (pre post : list A) (x : A) :
  getitem (pre ++ x :: post) (Z.of_nat (List.length pre)) = Ok x.
Proof.
  assert (Hlt : (Z.of_nat (List.length pre) <? 0)%Z = false) by (apply Z.ltb_ge; lia).
  unfold getitem. cbv zeta. rewrite Hlt. cbv iota. rewrite Hlt.
  rewrite Nat2Z.id, nth_error_app2, Nat.sub_diag by lia. reflexivity.
Qed.

End Stacking.

Lemma enumerate_dict_fresh {V} (names : list string) (outputs : list V) :
  List.length outputs = List.length names ->
  forall (pre : list string) (acc : dict V),
    NoDup (keys acc ++ names) ->
    enumerate_dict (pre ++ names) (Z.of_nat (List.length pre)) outputs acc
    = Ok (acc ++ combine names outputs)%list.
Proof.
  revert outputs. induction names as [|name names IH]; intros outputs Hlen pre acc Hnd.
  - destruct outputs; [|discriminate]. simpl. now rewrite app_nil_r.
  - destruct outputs as [|output outputs]; [discriminate|]. simpl.
    rewrite getitem_middle. simpl rbind.
    assert (Hfresh : ~ In name (keys acc)).
    { intros Hin. apply NoDup_remove_2 in Hnd. apply Hnd. apply in_or_app. now left. }
    rewrite dict_set_fresh by exact Hfresh.
    replace (pre ++ name :: names)%list with ((pre ++ [name]) ++ names)%list
      by now rewrite <- app_assoc.
    replace (Z.of_nat (List.length pre) + 1)%Z
      with (Z.of_nat (List.length (pre ++ [name])%list))
      by (rewrite length_app; simpl; lia).
    rewrite IH.
    + now rewrite <- app_assoc.
    + simpl in Hlen. lia.
    + unfold keys in *. rewrite map_app, <- app_assoc. exact Hnd.
Qed.

(** ** What the linear decoder hands to the postprocessor *)

Section DecoderOutput.

Local Open Scope list_scope.

Context {F : Type} `{Torch F}.

Lemma forward__shape (self : LinearDecoder.t) (e : tensor F) (n : nat) :
  backend_sound F ->
  LinearDecoder.conv_in (LinearDecoder.decoder self) = LinearDecoder.in_channels self ->
  (LinearDecoder.height self * LinearDecoder.width self
   * LinearDecoder.in_channels self <> 0)%nat ->
  List.length (data e)
  = (n * (LinearDecoder.height self * LinearDecoder.width self
          * LinearDecoder.in_channels self))%nat ->
  exists out,
    LinearDecoder.forward_ self e = Ok out
    /\ shape out = [n; LinearDecoder.conv_out (LinearDecoder.decoder self); 448; 448]%nat
    /\ List.length (data out)
       = (n * LinearDecoder.conv_out (LinearDecoder.decoder self) * 448 * 448)%nat.
Proof.
  intros Hsound Hin Hper Hlen.
  unfold LinearDecoder.forward_, reshape_m1.
  apply Nat.eqb_neq in Hper. rewrite Hper, Hlen.
  apply Nat.eqb_neq in Hper.
  rewrite Nat.Div0.mod_mul, Nat.eqb_refl, Nat.div_mul by exact Hper.
  simpl rbind. unfold permute_0312. simpl shape. simpl rbind.
  unfold LinearDecoder.Conv2d_call. simpl shape. rewrite Hin, Nat.eqb_refl.
  simpl rbind. unfold interpolate_bilinear. simpl shape. simpl rbind.
  eexists. split; [reflexivity|]. split; [reflexivity|].
  cbn [data]. eapply Hsound. reflexivity.
Qed.

(** Non-vectorized 3D decoding of samples that hold at least two embeddings
    each, sample by sample. *)
Lemma slice_by_slice_decoding (self : LinearDecoder.t) (embeddings : batch3d F) :
  backend_sound F ->
  LinearDecoder.conv_in (LinearDecoder.decoder self) = LinearDecoder.in_channels self ->
  (2 <= LinearDecoder.conv_out (LinearDecoder.decoder self))%nat ->
  (LinearDecoder.height self * LinearDecoder.width self
   * LinearDecoder.in_channels self <> 0)%nat ->
  Forall (fun sample =>
            (2 <= List.length sample)%nat
            /\ Forall (fun e => List.length (data e)
                                = (LinearDecoder.height self * LinearDecoder.width self
                                   * LinearDecoder.in_channels self)%nat) sample)
         embeddings ->
  exists outs,
    LinearDecoder.forward_3d self embeddings false = Ok outs
    /\ Forall2 (fun (sample : list (tensor F)) (out : tensor F) =>
                  shape out = [List.length sample;
                               LinearDecoder.conv_out (LinearDecoder.decoder self);
                               448; 448]%nat
                  /\ wf out)
               embeddings outs.
Proof.
  intros Hsound Hin Hk Hper Hall.
  set (k := LinearDecoder.conv_out (LinearDecoder.decoder self)) in *.
  unfold LinearDecoder.forward_3d.
  apply rmap_ok.
  intros sample Hsample. rewrite Forall_forall in Hall.
  destruct (Hall sample Hsample) as [Htwo Hgrid].
  destruct (rmap_ok (fun (_ : tensor F) (out : tensor F) =>
                       shape out = [1; k; 448; 448]%nat
                       /\ List.length (data out) = (1 * k * 448 * 448)%nat)
              (LinearDecoder.forward_ self) sample) as [maps [Hmaps Hshapes]].
  { intros e He. rewrite Forall_forall in Hgrid.
    destruct (forward__shape self e 1 Hsound Hin Hper) as [out [Hout [Hs Hl]]].
    - rewrite (Hgrid e He). lia.
    - exists out. auto. }
  rewrite Hmaps. simpl rbind.
  pose proof (Forall2_length Hshapes) as Hcount.
  assert (Hmapsall : Forall (fun out : tensor F =>
                               shape out = [1; k; 448; 448]%nat
                               /\ List.length (data out) = (1 * k * 448 * 448)%nat) maps).
  { clear - Hshapes. induction Hshapes; constructor; assumption. }
  rewrite (stack0_same_shape [1; k; 448; 448]%nat).
  2:{ destruct maps; [simpl in Hcount; lia|discriminate]. }
  2:{ eapply Forall_impl; [|exact Hmapsall]. now intros out [Hs _]. }
  simpl rbind. eexists. split; [reflexivity|].
  unfold squeeze, wf. cbn [shape data filter]. rewrite <- Hcount.
  replace (List.length sample =? 1)%nat with false
    by (symmetry; apply Nat.eqb_neq; lia).
  replace (k =? 1)%nat with false by (symmetry; apply Nat.eqb_neq; lia).
  cbn [negb Nat.eqb]. split; [reflexivity|].
  rewrite (concat_lengths (1 * k * 448 * 448)).
  - rewrite length_map, <- Hcount. unfold numel. cbn [fold_right]. lia.
  - apply Forall_map. eapply Forall_impl; [|exact Hmapsall]. now intros out [_ Hl].
Qed.

(** X11.  With at least two embeddings per sample (each of one token grid)
    and at least two classes, non-vectorized 3D decoding returns, per sample,
    a sequence with one logit map per embedding. *)
Lemma decoder_output_is_slice_sequence (self : LinearDecoder.t) (embeddings : batch3d F) :
  backend_sound F ->
  LinearDecoder.conv_in (LinearDecoder.decoder self) = LinearDecoder.in_channels self ->
  (2 <= LinearDecoder.conv_out (LinearDecoder.decoder self))%nat ->
  (LinearDecoder.height self * LinearDecoder.width self
   * LinearDecoder.in_channels self <> 0)%nat ->
  Forall (fun sample =>
            (2 <= List.length sample)%nat
            /\ Forall (fun e => List.length (data e)
                                = (LinearDecoder.height self * LinearDecoder.width self
                                   * LinearDecoder.in_channels self)%nat) sample)
         embeddings ->
  exists outs,
    LinearDecoder.forward_3d self embeddings false = Ok outs
    /\ uniform [LinearDecoder.conv_out (LinearDecoder.decoder self); 448; 448]%nat outs
    /\ map lead outs = map (@List.length (tensor F)) embeddings.
Proof.
  intros Hsound Hin Hk Hper Hall.
  destruct (slice_by_slice_decoding self embeddings Hsound Hin Hk Hper Hall)
    as [outs [Hrun Houts]].
  exists outs. split; [exact Hrun|].
  clear Hrun Hall. induction Houts as [|sample out samples outs [Hs Hwf] _ [IHu IHl]].
  - split; constructor.
  - assert (Hlead : lead out = List.length sample) by (unfold lead; now rewrite Hs).
    split.
    + constructor; [|exact IHu]. split; [now rewrite Hlead|exact Hwf].
    + simpl. now rewrite Hlead, IHl.
Qed.

(** X12.  With a single embedding in a sample, [squeeze()] also drops the
    slice dimension: the sample's output is one logit map, not a sequence of
    one. *)
Lemma decoder_output_of_single_slice (self : LinearDecoder.t) (e : tensor F) :
  backend_sound F ->
  LinearDecoder.conv_in (LinearDecoder.decoder self) = LinearDecoder.in_channels self ->
  (2 <= LinearDecoder.conv_out (LinearDecoder.decoder self))%nat ->
  (LinearDecoder.height self * LinearDecoder.width self
   * LinearDecoder.in_channels self <> 0)%nat ->
  List.length (data e)
  = (LinearDecoder.height self * LinearDecoder.width self
     * LinearDecoder.in_channels self)%nat ->
  exists out,
    LinearDecoder.forward_3d self [[e]] false = Ok [out]
    /\ shape out = [LinearDecoder.conv_out (LinearDecoder.decoder self); 448; 448]%nat.
Proof.
  intros Hsound Hin Hk Hper Hlen.
  destruct (forward__shape self e 1 Hsound Hin Hper) as [map1 [Hrun [Hs _]]]; [lia|].
  unfold LinearDecoder.forward_3d. simpl rmap. rewrite Hrun. simpl rbind.
  unfold stack0. simpl forallb. cbv iota. simpl rbind.
  eexists. split; [reflexivity|].
  unfold squeeze. cbn [shape List.length]. rewrite Hs. cbn [filter].
  rewrite Nat.eqb_refl.
  replace (LinearDecoder.conv_out (LinearDecoder.decoder self) =? 1)%nat with false
    by (symmetry; apply Nat.eqb_neq; lia).
  reflexivity.
Qed.

End DecoderOutput.

(** The toy backend of the fixtures is sound. *)
Lemma toy_backend_sound : backend_sound Z.
Proof.
  intros x size n c h w Hs. simpl. rewrite repeat_length. unfold lead.
  now rewrite Hs.
Qed.

(** ** Multi-label kNN *)

Section MLkNNProperties.

Local Open Scope list_scope.

Import MLkNN.

Lemma of_nat_nonneg (n : nat) : (0 <= of_nat n)%Q.
Proof. unfold of_nat, Qle. simpl. lia. Qed.

Lemma divide_positive (a b : Q) :
  (0 < a)%Q -> (0 < b)%Q -> exists q, divide a b = Ok q /\ (0 < q)%Q /\ (q == a / b)%Q.
Proof.
  intros Ha Hb. unfold divide.
  destruct (Qeq_bool b 0) eqn:He.
  - apply Qeq_bool_iff in He. rewrite He in Hb. now apply Qlt_irrefl in Hb.
  - exists (a / b)%Q. split; [reflexivity|]. split; [|reflexivity].
    apply Qlt_shift_div_l; [exact Hb|]. now rewrite Qmult_0_l.
Qed.

Lemma normalised (p q : Q) :
  (0 < p)%Q -> (0 < q)%Q ->
  exists r, divide p (p + q) = Ok r /\ (0 <= r)%Q /\ (r <= 1)%Q.
Proof.
  intros Hp Hq.
  assert (Hs : (0 < p + q)%Q) by lra.
  destruct (divide_positive p (p + q) Hp Hs) as [r [Hr [Hpos Heq]]].
  exists r. split; [exact Hr|]. split; [now apply Qlt_le_weak|].
  rewrite Heq. apply Qle_shift_div_r; [exact Hs|]. lra.
Qed.

Lemma label_ok (labels : list (list bool)) (n l i c : nat) :
  rectangular n l labels -> (i < n)%nat -> (c < l)%nat ->
  exists b, label labels i c = Ok b.
Proof.
  intros [Hn Hrows] Hi Hc. unfold label, nth_or_raise.
  destruct (nth_error labels i) as [row|] eqn:Hrow.
  - simpl. rewrite Forall_forall in Hrows.
    specialize (Hrows row (nth_error_In _ _ Hrow)).
    destruct (nth_error row c) as [b|] eqn:Hb; [now exists b|].
    apply nth_error_None in Hb. lia.
  - apply nth_error_None in Hrow. lia.
Qed.

Lemma count_positive_ok (labels : list (list bool)) (n l c : nat) (neighbors : list nat) :
  rectangular n l labels -> (c < l)%nat ->
  Forall (fun i => (i < n)%nat) neighbors ->
  exists j, count_positive labels c neighbors = Ok j /\ (j <= List.length neighbors)%nat.
Proof.
  intros Hrect Hc. induction 1 as [|i rest Hi Hrest [j [Hj Hle]]]; simpl.
  - exists 0%nat. split; [reflexivity|lia].
  - destruct (label_ok labels n l i c Hrect Hi Hc) as [b Hb]. rewrite Hb, Hj. simpl.
    exists (if b then S j else j). split; [reflexivity|]. destruct b; lia.
Qed.

Lemma bump_ok (h : list nat) (j : nat) :
  (j < List.length h)%nat ->
  exists h', bump h j = Ok h' /\ List.length h' = List.length h.
Proof.
  revert j. induction h as [|n h IH]; intros j Hj; simpl in *; [lia|].
  destruct j as [|j].
  - exists (S n :: h). split; reflexivity.
  - destruct (IH j) as [h' [Hb Hl]]; [lia|]. rewrite Hb. simpl.
    exists (n :: h'). split; [reflexivity|]. simpl. now rewrite Hl.
Qed.

Lemma other_neighbors_ok (nn : search) (k : nat) (features : list feature) (i : nat)
  (x : feature) :
  search_contract nn ->
  (List.length (other_neighbors nn k features i x) <= k)%nat
  /\ Forall (fun j => (j < List.length features)%nat) (other_neighbors nn k features i x).
Proof.
  intros Hnn. unfold other_neighbors. split.
  - rewrite length_firstn. lia.
  - destruct (Hnn features (S k) x) as [_ Hall].
    rewrite Forall_forall in *. intros j Hj.
    apply Hall. apply in_firstn in Hj. apply filter_In in Hj. tauto.
Qed.

Lemma accumulate_ok (nn : search) (k : nat) (features : list feature)
  (labels : list (list bool)) (l c : nat) :
  search_contract nn -> rectangular (List.length features) l labels -> (c < l)%nat ->
  forall (todo : list feature) (i : nat) (np nn_ : nat) (hp hn : list nat),
    (i + List.length todo = List.length features)%nat ->
    List.length hp = S k -> List.length hn = S k ->
    exists np' nn' hp' hn',
      accumulate nn k features labels c i todo (np, nn_, hp, hn) = Ok (np', nn', hp', hn')
      /\ List.length hp' = S k /\ List.length hn' = S k.
Proof.
  intros Hnn Hrect Hc. induction todo as [|x todo IH]; intros i np nn_ hp hn Hi Hhp Hhn.
  - exists np, nn_, hp, hn. repeat split; assumption.
  - simpl in Hi. simpl.
    destruct (other_neighbors_ok nn k features i x Hnn) as [Hlen Hvalid].
    destruct (count_positive_ok labels _ l c _ Hrect Hc Hvalid) as [j [Hj Hle]].
    rewrite Hj. simpl.
    destruct (label_ok labels _ l i c Hrect ltac:(lia) Hc) as [b Hb]. rewrite Hb. simpl.
    destruct b.
    + destruct (bump_ok hp j ltac:(lia)) as [hp' [Hbump Hl]]. rewrite Hbump. simpl.
      apply IH; [lia|congruence|assumption].
    + destruct (bump_ok hn j ltac:(lia)) as [hn' [Hbump Hl]]. rewrite Hbump. simpl.
      apply IH; [lia|assumption|congruence].
Qed.

Lemma likelihood_positive (k : nat) (h : list nat) (j : nat) :
  List.length h = S k -> (j <= k)%nat ->
  exists q, likelihood k h j = Ok q /\ (0 < q)%Q.
Proof.
  intros Hlen Hj. unfold likelihood, nth_or_raise.
  destruct (nth_error h j) as [count|] eqn:Hc.
  - simpl.
    pose proof (of_nat_nonneg count). pose proof (of_nat_nonneg (fold_right Nat.add 0%nat h)).
    assert (Hk : (1 <= of_nat (S k))%Q) by (unfold of_nat, Qle; simpl; lia).
    destruct (divide_positive (1 + of_nat count)
                (of_nat (S k) + of_nat (fold_right Nat.add 0%nat h)))
      as [q [Hq [Hpos _]]]; [lra|lra|].
    now exists q.
  - apply nth_error_None in Hc. lia.
Qed.

Lemma prior_positive (n_c n : nat) : exists q, prior n_c n = Ok q /\ (0 < q)%Q.
Proof.
  unfold prior. pose proof (of_nat_nonneg n_c). pose proof (of_nat_nonneg n).
  destruct (divide_positive (1 + of_nat n_c) (2 + of_nat n)) as [q [Hq [Hpos _]]];
    [lra|lra|]. now exists q.
Qed.

Lemma posterior_ok (self : t) (c j : nat) :
  List.length (n_pos self) = num_classes self ->
  List.length (n_neg self) = num_classes self ->
  List.length (hist_pos self) = num_classes self ->
  List.length (hist_neg self) = num_classes self ->
  Forall (fun h => List.length h = S (k self)) (hist_pos self) ->
  Forall (fun h => List.length h = S (k self)) (hist_neg self) ->
  (c < num_classes self)%nat -> (j <= k self)%nat ->
  exists p, posterior self c j = Ok p /\ unit_interval (fst p) /\ unit_interval (snd p).
Proof.
  intros Hnp Hnn Hhp Hhn Hfp Hfn Hc Hj. unfold posterior, nth_or_raise.
  destruct (nth_error (n_pos self) c) as [np|] eqn:E1;
    [|apply nth_error_None in E1; lia].
  destruct (nth_error (n_neg self) c) as [nn_|] eqn:E2;
    [|apply nth_error_None in E2; lia].
  destruct (nth_error (hist_pos self) c) as [hp|] eqn:E3;
    [|apply nth_error_None in E3; lia].
  destruct (nth_error (hist_neg self) c) as [hn|] eqn:E4;
    [|apply nth_error_None in E4; lia].
  simpl.
  rewrite Forall_forall in Hfp, Hfn.
  pose proof (Hfp hp (nth_error_In _ _ E3)) as Hlp.
  pose proof (Hfn hn (nth_error_In _ _ E4)) as Hln.
  destruct (prior_positive np (List.length (train_features self))) as [pp [Hpp Hpp0]].
  destruct (prior_positive nn_ (List.length (train_features self))) as [pn [Hpn Hpn0]].
  destruct (likelihood_positive (k self) hp j Hlp Hj) as [lp [Hlp' Hlp0]].
  destruct (likelihood_positive (k self) hn j Hln Hj) as [ln [Hln' Hln0]].
  rewrite Hpp, Hpn, Hlp', Hln'. simpl.
  assert (Ht : (0 < pp * lp)%Q) by (apply Qmult_lt_0_compat; assumption).
  assert (Hf : (0 < pn * ln)%Q) by (apply Qmult_lt_0_compat; assumption).
  destruct (normalised (pp * lp) (pn * ln) Ht Hf) as [r1 [Hr1 [H10 H11]]].
  destruct (normalised (pn * ln) (pp * lp) Hf Ht) as [r2 [Hr2 [H20 H21]]].
  rewrite Hr1. simpl.
  unfold divide in Hr2 |- *.
  assert (Hsum : Qeq_bool (pp * lp + pn * ln) 0 = false).
  { destruct (Qeq_bool (pp * lp + pn * ln) 0) eqn:He; [|reflexivity].
    apply Qeq_bool_iff in He. lra. }
  rewrite Hsum. simpl.
  eexists. split; [reflexivity|]. simpl. split; [split; assumption|].
  assert (Hsum' : Qeq_bool (pn * ln + pp * lp) 0 = false).
  { destruct (Qeq_bool (pn * ln + pp * lp) 0) eqn:He; [|reflexivity].
    apply Qeq_bool_iff in He. lra. }
  rewrite Hsum' in Hr2. inversion Hr2 as [Hr2q]. subst r2. clear Hr2.
  assert (Heq : (pn * ln / (pp * lp + pn * ln) == pn * ln / (pn * ln + pp * lp))%Q).
  { apply Qmult_comp; [reflexivity|]. apply Qinv_comp. apply Qplus_comm. }
  split; rewrite Heq; assumption.
Qed.

Lemma fit_ok (nn : search) (k0 : nat) (features : list feature)
  (labels : list (list bool)) (d l : nat) :
  search_contract nn -> features <> [] ->
  Forall (fun x => List.length x = d) features ->
  rectangular (List.length features) l labels ->
  exists self,
    fit nn k0 features labels = Ok self
    /\ k self = k0 /\ train_features self = features /\ train_labels self = labels
    /\ dim self = d /\ num_classes self = l
    /\ List.length (n_pos self) = l /\ List.length (n_neg self) = l
    /\ List.length (hist_pos self) = l /\ List.length (hist_neg self) = l
    /\ Forall (fun h => List.length h = S k0) (hist_pos self)
    /\ Forall (fun h => List.length h = S k0) (hist_neg self).
Proof.
  intros Hnn Hne Hdim Hrect.
  destruct features as [|x0 xs]; [contradiction|].
  destruct Hrect as [Hrows Hcols].
  destruct labels as [|y0 ys]; [discriminate|].
  assert (Hd : List.length x0 = d) by now inversion Hdim.
  assert (Hl : List.length y0 = l) by now inversion Hcols.
  destruct (rmap_ok (fun (_ : nat) (s : nat * nat * list nat * list nat) =>
                       List.length (snd (fst s)) = S k0 /\ List.length (snd s) = S k0)
              (class_statistics nn k0 (x0 :: xs) (y0 :: ys)) (seq 0 l))
    as [stats [Hstats Hall]].
  { intros c Hc. apply in_seq in Hc. unfold class_statistics.
    destruct (accumulate_ok nn k0 (x0 :: xs) (y0 :: ys) l c Hnn (conj Hrows Hcols)
                ltac:(lia) (x0 :: xs) 0%nat 0%nat 0%nat (repeat 0%nat (S k0))
                (repeat 0%nat (S k0)))
      as [np [nn_ [hp [hn [Hacc [Hp Hn]]]]]];
      [reflexivity|apply repeat_length|apply repeat_length|].
    exists (np, nn_, hp, hn). split; [exact Hacc|]. split; assumption. }
  unfold fit.
  replace (negb (List.length (x0 :: xs) =? List.length (y0 :: ys))%nat) with false
    by (symmetry; apply negb_false_iff, Nat.eqb_eq; now rewrite Hrows).
  replace (negb (forallb (fun x => (List.length x =? List.length x0)%nat) (x0 :: xs)))
    with false.
  2:{ symmetry. apply negb_false_iff, forallb_forall. intros x Hx.
      rewrite Forall_forall in Hdim. apply Nat.eqb_eq. rewrite Hd. now apply Hdim. }
  replace (negb (forallb (fun y => (List.length y =? List.length y0)%nat) (y0 :: ys)))
    with false.
  2:{ symmetry. apply negb_false_iff, forallb_forall. intros y Hy.
      rewrite Forall_forall in Hcols. apply Nat.eqb_eq. rewrite Hl. now apply Hcols. }
  rewrite Hl, Hstats. simpl rbind.
  eexists. split; [reflexivity|]. simpl.
  pose proof (Forall2_length Hall) as Hlen. rewrite length_seq in Hlen.
  rewrite !length_map.
  assert (Hs : Forall (fun s : nat * nat * list nat * list nat =>
                         List.length (snd (fst s)) = S k0 /\ List.length (snd s) = S k0)
                      stats).
  { clear - Hall. induction Hall; constructor; assumption. }
  repeat split; auto.
  - apply Forall_map. eapply Forall_impl; [|exact Hs]. now intros s [H _].
  - apply Forall_map. eapply Forall_impl; [|exact Hs]. now intros s [_ H].
Qed.

(** C2.  For every [k] and every non-empty training set (feature vectors of
    one dimension, a rectangular binary label matrix), whatever the labels
    are (in particular also for classes that are all-positive or
    all-negative in training), [fit] followed by [predict_proba] and by
    [predict] on queries of the training dimension (the training set itself
    included) returns: no division raises, and every posterior probability
    produced, positive and negative, lies in [0,1]. *)
Theorem mlknn_fit_predict_is_safe (nn : search) (k0 : nat) (features : list feature)
  (labels : list (list bool)) (queries : list feature) (d l : nat) :
  search_contract nn -> features <> [] ->
  Forall (fun x => List.length x = d) features ->
  rectangular (List.length features) l labels ->
  Forall (fun q => List.length q = d) queries ->
  exists (self : t) (probabilities : list (list (Q * Q))) (predicted : list (list bool)),
    fit nn k0 features labels = Ok self
    /\ predict_proba nn self queries = Ok probabilities
    /\ predict nn self queries = Ok predicted
    /\ Forall2 (fun (_ : feature) row =>
                  Forall2 (fun (_ : nat) p => unit_interval (fst p) /\ unit_interval (snd p))
                          (seq 0 l) row)
               queries probabilities.
Proof.
  intros Hnn Hne Hdim Hrect Hq.
  destruct (fit_ok nn k0 features labels d l Hnn Hne Hdim Hrect)
    as [self [Hfit [Hk [Hx [Hy [Hd [Hl [Hnp [Hnn_ [Hhp [Hhn [Hfp Hfn]]]]]]]]]]]].
  destruct (rmap_ok (fun (_ : feature) (row : list (Q * Q)) =>
                       Forall2 (fun (_ : nat) p =>
                                  unit_interval (fst p) /\ unit_interval (snd p))
                               (seq 0 l) row)
              (query_posteriors nn self) queries)
    as [probabilities [Hrun Hall]].
  { intros q Hin. rewrite Forall_forall in Hq. unfold query_posteriors.
    rewrite Hd, (Hq q Hin), Nat.eqb_refl. simpl negb. cbv iota.
    rewrite Hl. apply rmap_ok. intros c Hc. apply in_seq in Hc.
    destruct (Hnn (train_features self) (k self) q) as [Hlen Hvalid].
    destruct (count_positive_ok (train_labels self) (List.length (train_features self))
                l c (nn (train_features self) (k self) q))
      as [j [Hj Hle]]; [now rewrite Hy, Hx|lia|exact Hvalid|].
    rewrite Hj. simpl rbind.
    apply posterior_ok; rewrite ?Hl, ?Hk; try assumption; lia. }
  exists self, probabilities.
  eexists. split; [exact Hfit|]. split; [exact Hrun|]. split; [|exact Hall].
  unfold predict. unfold predict_proba in Hrun. unfold predict_proba. rewrite Hrun.
  reflexivity.
Qed.

End MLkNNProperties.

Lemma mlknn_fit_predict_is_safe_witness :
  exists (self : MLkNN.t) (probabilities : list (list (Q * Q))),
    MLkNN.fit Fixtures.first_indices 1 [[0%Q]; [1%Q]; [2%Q]]
              [[true; false]; [false; false]; [true; false]] = Ok self
    /\ MLkNN.predict_proba Fixtures.first_indices self [[0%Q]; [1%Q]; [2%Q]] = Ok probabilities
    /\ List.length probabilities = 3%nat.
Proof.
  destruct (mlknn_fit_predict_is_safe Fixtures.first_indices 1 [[0%Q]; [1%Q]; [2%Q]]
              [[true; false]; [false; false]; [true; false]]
              [[0%Q]; [1%Q]; [2%Q]] 1 2)
    as [self [probabilities [predicted [Hfit [Hproba [_ Hall]]]]]].
  - intros refs k q. unfold Fixtures.first_indices. split.
    + rewrite length_firstn. apply Nat.le_min_l.
    + apply Forall_forall. intros i Hi. apply in_firstn in Hi. apply in_seq in Hi.
      apply Hi.
  - discriminate.
  - repeat constructor.
  - split; [reflexivity|repeat constructor].
  - repeat constructor.
  - exists self, probabilities. split; [exact Hfit|]. split; [exact Hproba|].
    symmetry. exact (Forall2_length Hall).
Defined.


(** ** Classifier-head dispatch *)

Section Dispatch.

Local Open Scope list_scope.

Context {X F : Type} `{Torch F}.

Lemma heads_forward (m : AllClassifiers.t X F) (inputs : list X) :
  NoDup (keys (AllClassifiers.classifiers_dict m)) ->
  AllClassifiers.forward m inputs
  = map (fun kv => (fst kv, snd kv inputs)) (AllClassifiers.classifiers_dict m).
Proof.
  intros Hnd. unfold AllClassifiers.forward. rewrite dict_update_fresh; [reflexivity|].
  simpl. unfold keys in *. rewrite map_map. simpl. exact Hnd.
Qed.

(** X17.  With at least two heads (and a non-empty batch, and heads whose
    outputs all have one shape [s]) the 3D dispatch returns the heads' names
    in declaration order, each with its squeezed outputs stacked over the
    batch. *)
Lemma dispatch_with_several_heads (feature_model : tensor F -> X)
  (heads : wrapped_heads X F) (x : batch3d F) (tr : list (tensor F)) (s : list nat) :
  let table := AllClassifiers.classifiers_dict (module heads) in
  let batch_features :=
    map (map (fun scan => feature_model (unsqueeze0 scan))) (non_empty_slices x) in
  NoDup (keys table) -> (2 <= List.length table)%nat -> x <> [] ->
  (forall kv batch_feature,
      In kv table -> In batch_feature batch_features ->
      shape (snd kv batch_feature) = s /\ wf (snd kv batch_feature)) ->
  fst (classifier_forward_pass feature_model heads (Batch3d x) true tr)
  = Ok (map (fun kv =>
               (fst kv,
                Tensor.mk (List.length x :: filter (fun d => negb (d =? 1)%nat) s)
                          (concat (map (fun batch_feature => data (snd kv batch_feature))
                                       batch_features))))
            table).
Proof.
  intros table batch_features Hnd Htwo Hne Hout.
  set (s' := filter (fun d => negb (d =? 1)%nat) s).
  set (h := List.length table).
  assert (Hb : List.length batch_features = List.length x).
  { unfold batch_features, non_empty_slices. now rewrite !length_map. }
  unfold classifier_forward_pass, bind, lift. cbn [volumes].
  rewrite feature_extraction_run. fold batch_features.
  (* per sample: stack over the heads, then squeeze *)
  set (stacked := fun batch_feature : list X =>
         Tensor.mk (h :: s') (concat (map (fun kv : string * (list X -> tensor F) =>
                                             data (snd kv batch_feature)) table))).
  rewrite (rmap_map_total _ _ stacked).
  2:{ intros bf Hbf.
      rewrite heads_forward by exact Hnd. fold table. unfold values. rewrite map_map.
      simpl snd.
      rewrite (stack0_same_shape s).
      - simpl rbind. unfold squeeze, stacked. simpl shape. simpl data.
        rewrite !length_map, map_map. fold h. cbn [filter].
        replace (negb (h =? 1)%nat) with true
          by (symmetry; apply negb_true_iff, Nat.eqb_neq; unfold h; lia).
        reflexivity.
      - destruct table; [simpl in Htwo; lia|discriminate].
      - apply Forall_forall. intros t Ht. apply in_map_iff in Ht.
        destruct Ht as [kv [<- Hkv]]. now apply Hout. }
  (* over the batch: stack along the second dimension *)
  rewrite (stack1_same_shape h s').
  2:{ destruct batch_features; [|discriminate].
      simpl in Hb. destruct x; [contradiction|discriminate]. }
  2:{ apply Forall_forall. intros t Ht. apply in_map_iff in Ht.
      destruct Ht as [bf [<- _]]. reflexivity. }
  rewrite !map_map, length_map, Hb.
  assert (Hblocks : forall bf, In bf batch_features ->
            blocks (stacked bf)
            = map (fun kv : string * (list X -> tensor F) => data (snd kv bf)) table).
  { intros bf Hbf. unfold blocks, stacked, tail_shape, lead. simpl.
    replace h with (List.length (map (fun kv : string * (list X -> tensor F) =>
                                        data (snd kv bf)) table))
      by (now rewrite length_map).
    apply chunks_concat. apply Forall_forall. intros b Hin.
    apply in_map_iff in Hin. destruct Hin as [kv [<- Hkv]].
    destruct (Hout kv bf Hkv Hbf) as [Hs Hwf]. unfold wf in Hwf.
    rewrite Hwf, Hs. unfold s'. now rewrite numel_squeeze. }
  rewrite (map_ext_in _ _ _ Hblocks).
  unfold h. rewrite (transpose_table (fun bf kv => data (snd kv bf)) batch_features table).
  fold h. rewrite map_map.
  (* back to one entry per head *)
  unfold rows. simpl shape. simpl data.
  set (entry := fun kv : string * (list X -> tensor F) =>
         concat (map (fun bf => data (snd kv bf)) batch_features)).
  replace h with (List.length (map entry table)) at 1 by (now rewrite length_map).
  rewrite chunks_concat.
  2:{ apply Forall_forall. intros b Hin. apply in_map_iff in Hin.
      destruct Hin as [kv [<- Hkv]]. unfold entry.
      rewrite (concat_lengths (numel s')).
      - rewrite length_map, Hb. reflexivity.
      - apply Forall_forall. intros d Hd. apply in_map_iff in Hd.
        destruct Hd as [bf [<- Hbf]]. destruct (Hout kv bf Hkv Hbf) as [Hs Hwf].
        unfold wf in Hwf. rewrite Hwf, Hs. unfold s'. now rewrite numel_squeeze. }
  fold table. unfold keys.
  pose proof (enumerate_dict_fresh (map fst table)
                (map (Tensor.mk (List.length x :: s')) (map entry table))) as Henum.
  specialize (Henum ltac:(now rewrite !length_map) [] []). simpl in Henum.
  rewrite Henum by exact Hnd.
  rewrite map_map, combine_map. reflexivity.
Qed.

(** X18.  With a single head the 3D dispatch never returns the mapping from
    that head's name to an entry, whatever the batch and whatever the shape
    of the head's outputs. *)
Lemma dispatch_with_one_head (feature_model : tensor F -> X) (name : string)
  (head : list X -> tensor F) (x : batch3d F) (tr : list (tensor F)) (s : list nat) :
  let heads := {| module := {| AllClassifiers.classifiers_dict := [(name, head)] |} |} in
  let batch_features :=
    map (map (fun scan => feature_model (unsqueeze0 scan))) (non_empty_slices x) in
  x <> [] ->
  (forall batch_feature, In batch_feature batch_features ->
                         shape (head batch_feature) = s) ->
  forall entry : tensor F,
    fst (classifier_forward_pass feature_model heads (Batch3d x) true tr)
    <> Ok [(name, entry)].
Proof.
  intros heads batch_features Hne Hout entry.
  set (s' := filter (fun d => negb (d =? 1)%nat) s).
  assert (Hs' : ~ In 1%nat s').
  { unfold s'. intros Hin. apply filter_In in Hin. destruct Hin as [_ Hin]. discriminate. }
  assert (Hb : batch_features <> []).
  { unfold batch_features, non_empty_slices. destruct x; [contradiction|discriminate]. }
  unfold classifier_forward_pass, bind, lift. cbn [volumes].
  rewrite feature_extraction_run. fold batch_features.
  rewrite (rmap_map_total _ _ (fun bf => Tensor.mk s' (data (head bf) ++ []))).
  2:{ intros bf Hbf. unfold heads. simpl. unfold stack0. simpl.
      unfold squeeze. simpl. rewrite (Hout bf Hbf). reflexivity. }
  destruct s' as [|d rest] eqn:Hshape.
  - (* the outputs are scalars once squeezed: no second dimension to stack along *)
    unfold stack1. destruct batch_features as [|bf bfs]; [contradiction|].
    simpl map. cbv iota.
    replace (forallb _ _) with true.
    + simpl. discriminate.
    + symmetry. apply forallb_forall. intros t Ht. apply in_map_iff in Ht.
      destruct Ht as [bf' [<- _]]. reflexivity.
  - rewrite (stack1_same_shape d rest).
    2:{ destruct batch_features; [contradiction|discriminate]. }
    2:{ apply Forall_forall. intros t Ht. apply in_map_iff in Ht.
        destruct Ht as [bf [<- _]]. reflexivity. }
    unfold rows. simpl shape.
    set (all := concat _).
    destruct d as [|[|d]].
    + simpl. discriminate.
    + exfalso. apply Hs'. now left.
    + simpl. discriminate.
Qed.

End Dispatch.

(** C9.  The 3D dispatch is to return a mapping from head name to that
    head's outputs stacked over the batch, the names in declaration order.
    With two heads it does.  With a single head it does not: the stack over
    the classifiers has a leading dimension of size one, [squeeze()] drops
    it, the later iteration runs over the logits instead of over the heads,
    and looking up the name of a second head raises [IndexError]. *)
Theorem single_head_dispatch_raises :
  fst (classifier_forward_pass Fixtures.total_feature Fixtures.two_heads
         Fixtures.two_volumes true [])
  = Ok [("a", Tensor.mk [2; 3]%nat [10; 1; 2; 11; 1; 2]%Z);
        ("b", Tensor.mk [2; 3]%nat [21; 10; 20; 11; 10; 20]%Z)]
  /\ fst (classifier_forward_pass Fixtures.total_feature Fixtures.one_head
            Fixtures.two_volumes true [])
     = Raise (IndexError "list index out of range").
Proof.
  split; vm_compute; reflexivity.
Qed.

(* ====================================================================== *)
(** * Part III.  Further properties                                        *)
(* ====================================================================== *)

(** ** dinov2/data/datasets/shenzhen.py: samples *)

Lemma getitem_out_of_range {A} (l : list A) (i : Z) :
  (Z.of_nat (List.length l) <= i \/ i < - Z.of_nat (List.length l))%Z ->
  getitem l i = Raise (IndexError "list index out of range").
Proof.
  intros Hout. unfold getitem. cbv zeta.
  destruct (Z.ltb_spec i 0) as [Hneg|Hpos].
  - destruct (Z.ltb_spec (i + Z.of_nat (List.length l)) 0) as [_|Hge]; [reflexivity|].
    lia.
  - destruct (Z.ltb_spec i 0) as [Hneg|_]; [lia|].
    destruct (nth_error l (Z.to_nat i)) eqn:Hnth; [|reflexivity].
    assert (Z.to_nat i < List.length l)%nat by (apply nth_error_Some; congruence).
    lia.
Qed.

Lemma getitem_negative {A} (l : list A) (i : Z) :
  (- Z.of_nat (List.length l) <= i < 0)%Z ->
  getitem l i = getitem l (i + Z.of_nat (List.length l)).
Proof.
  intros Hin. unfold getitem. cbv zeta.
  destruct (Z.ltb_spec i 0) as [_|Hpos]; [|lia].
  destruct (Z.ltb_spec (i + Z.of_nat (List.length l)) 0) as [Hneg|_]; [lia|].
  destruct (Z.ltb_spec (i + Z.of_nat (List.length l)) 0) as [Hneg|_]; [lia|].
  reflexivity.
Qed.

(** X1.  Sample indices follow Python's list indexing.  An index outside
    [-len, len) makes [get_target], [get_image_data] and [__getitem__] (with
    or without transforms) raise [IndexError] before any file is read (the
    trace is unchanged); a negative index in range addresses the same sample
    as the index plus the length. *)
Theorem sample_index_bounds {F} (to_float : Z -> F)
  (transforms : option (tensor F -> tensor Z -> tensor F * tensor Z))
  (w : World) (self : Shenzhen.t) (index : Z) (tr : list event) :
  let n := Z.of_nat (Shenzhen.__len__ self) in
  ((n <= index \/ index < - n)%Z ->
   Shenzhen.get_target w self index tr
   = (Raise (IndexError "list index out of range"), tr)
   /\ Shenzhen.get_image_data to_float w self index tr
      = (Raise (IndexError "list index out of range"), tr)
   /\ Shenzhen.__getitem__ to_float transforms w self index tr
      = (Raise (IndexError "list index out of range"), tr))
  /\ ((- n <= index < 0)%Z ->
      Shenzhen.get_target w self index tr = Shenzhen.get_target w self (index + n) tr
      /\ Shenzhen.get_image_data to_float w self index tr
         = Shenzhen.get_image_data to_float w self (index + n) tr).
Proof.
  intros n. unfold n, Shenzhen.__len__. split.
  - intros Hout.
    unfold Shenzhen.__getitem__, Shenzhen.get_target, Shenzhen.get_image_data, bind, lift.
    rewrite (getitem_out_of_range _ _ Hout). repeat split.
  - intros Hin.
    unfold Shenzhen.get_target, Shenzhen.get_image_data, bind, lift.
    rewrite (getitem_negative _ _ Hin). split; reflexivity.
Qed.

Lemma sample_index_bounds_witness :
  Shenzhen.get_target Fixtures.world_masks Fixtures.index_masks 2 []
  = (Raise (IndexError "list index out of range"), [])
  /\ Shenzhen.get_target Fixtures.world_masks Fixtures.index_masks (-2) []
     = Shenzhen.get_target Fixtures.world_masks Fixtures.index_masks 0 [].
Proof.
  destruct (sample_index_bounds (fun z : Z => z) None Fixtures.world_masks Fixtures.index_masks
              2 []) as [Hout _].
  destruct (sample_index_bounds (fun z : Z => z) None Fixtures.world_masks Fixtures.index_masks
              (-2) []) as [_ Hneg].
  split.
  - apply Hout. left. simpl. lia.
  - apply Hneg. simpl. lia.
Defined.

(** X2.  Constructing the dataset for a supported split whose directory
    does not exist raises [FileNotFoundError] for that directory at the
    first listing: nothing is logged and no object is built. *)
Theorem missing_split_directory (w : World) (split : _Split.member) (root : string)
  (tr : list event) :
  In (_Split.value split) ["train"; "val"; "test"] ->
  fs_dirs w (root ++ os_sep ++ _Split.value split) = None ->
  Shenzhen.__init__ w split root tr
  = (Raise (FileNotFoundError (root ++ os_sep ++ _Split.value split)),
     (tr ++ [Listdir (root ++ os_sep ++ _Split.value split)])%list).
Proof.
  intros Hin Hdir.
  unfold Shenzhen.__init__, Shenzhen._define_split_dir, Shenzhen._check_size, listdir,
    bind, lift, emit, raise.
  apply value_recognized in Hin. rewrite Hin. simpl negb. cbv iota.
  rewrite Hdir. reflexivity.
Qed.

Lemma missing_split_directory_witness :
  Shenzhen.__init__ Fixtures.world360 _Split.VAL "/data" []
  = (Raise (FileNotFoundError "/data/val"), [Listdir "/data/val"]).
Proof.
  apply (missing_split_directory Fixtures.world360 _Split.VAL "/data" []).
  - simpl. auto.
  - reflexivity.
Defined.

Section Elements.

Local Open Scope list_scope.

Context {A : Type}.

Lemma chunks_nth_error (sz n p : nat) (l : list A) :
  (p < n)%nat ->
  nth_error (chunks sz n l) p = Some (firstn sz (skipn (p * sz) l)).
Proof.
  revert p l. induction n as [|n IH]; intros p l Hp; [lia|].
  destruct p as [|p]; simpl; [reflexivity|].
  rewrite IH by lia. now rewrite skipn_skipn, Nat.add_comm.
Qed.

Lemma nth_error_block (sz p k : nat) (l : list A) :
  (k < sz)%nat ->
  nth_error (firstn sz (skipn (p * sz) l)) k = nth_error l (p * sz + k).
Proof.
  intros Hk. rewrite nth_error_firstn.
  apply Nat.ltb_lt in Hk. rewrite Hk. now rewrite nth_error_skipn.
Qed.

Lemma nth_error_concat_uniform (m i j : nat) (ls : list (list A)) (b : list A) :
  Forall (fun x => List.length x = m) ls ->
  nth_error ls i = Some b -> (j < m)%nat ->
  nth_error (concat ls) (i * m + j) = nth_error b j.
Proof.
  intros Hall. revert i. induction Hall as [|x ls Hx Hls IH]; intros i Hb Hj.
  - destruct i; discriminate.
  - destruct i as [|i]; simpl in *.
    + inversion Hb; subst. rewrite nth_error_app1 by lia. reflexivity.
    + rewrite nth_error_app2 by lia.
      replace (m + i * m + j - List.length x)%nat with (i * m + j)%nat by lia.
      now apply IH.
Qed.

Lemma row_as_table (d : A) (c : nat) (r : list A) :
  List.length r = c -> r = map (fun k => nth k r d) (seq 0 c).
Proof.
  intros <-. apply nth_ext with (d := d) (d' := d).
  - now rewrite length_map, length_seq.
  - intros n Hn.
    rewrite (nth_indep (map (fun k => nth k r d) (seq 0 (List.length r))) d (nth 0 r d))
      by now rewrite length_map, length_seq.
    rewrite (map_nth (fun k => nth k r d) (seq 0 (List.length r)) 0%nat n).
    now rewrite seq_nth.
Qed.

Lemma transpose_rows (d : A) (c : nat) (rows : list (list A)) :
  Forall (fun r => List.length r = c) rows ->
  transpose c rows = map (fun k => map (fun r => nth k r d) rows) (seq 0 c).
Proof.
  intros Hall.
  assert (Hrows : rows = map (fun r => map (fun k => nth k r d) (seq 0 c)) rows).
  { induction Hall as [|r rows Hr _ IH]; simpl; [reflexivity|].
    now rewrite <- IH, <- (row_as_table d c r Hr). }
  rewrite Hrows at 1.
  pose proof (transpose_table (fun (r : list A) (k : nat) => nth k r d) rows (seq 0 c))
    as Ht.
  rewrite length_seq in Ht. exact Ht.
Qed.

End Elements.

Lemma image_element {A} (h w c k p : nat) (l : list A) (x : A) :
  List.length l = (h * w * c)%nat -> (k < c)%nat -> (p < h * w)%nat ->
  nth_error l (p * c + k) = Some x ->
  nth_error (concat (transpose c (chunks c (h * w) l))) (k * (h * w) + p) = Some x.
Proof.
  intros Hlen Hk Hp Hx.
  pose proof (chunks_sizes c (h * w) l Hlen) as Hsizes.
  rewrite (transpose_rows x c _ Hsizes).
  rewrite (nth_error_concat_uniform (h * w) k p _
             (map (fun r => nth k r x) (chunks c (h * w) l))).
  - rewrite nth_error_map, (chunks_nth_error c (h * w) p l Hp). simpl.
    f_equal. apply nth_error_nth. now rewrite nth_error_block.
  - apply Forall_forall. intros b Hb. apply in_map_iff in Hb.
    destruct Hb as [i [<- _]]. now rewrite length_map, chunks_length.
  - rewrite nth_error_map, nth_error_seq.
    apply Nat.ltb_lt in Hk. now rewrite Hk.
  - exact Hp.
Qed.

(** X3.  [get_image_data] reads exactly one file and returns the image
    channel first.  An image array that is not three-dimensional makes it
    raise (the [permute(2, 0, 1)] does not apply); for an [h x w x c] array
    the result has shape [c; h; w] and its element at (k, i, j) is the
    float of the pixel at (i, j, k). *)
Theorem image_is_channel_first {F} (to_float : Z -> F) (w : World) (self : Shenzhen.t)
  (index : Z) (tr : list event) (name : string) (img : tensor Z) :
  getitem (Shenzhen.images self) index = Ok name ->
  fs_images w (Shenzhen._split_dir self ++ os_sep ++ name) = Some img ->
  (List.length (shape img) <> 3%nat ->
   Shenzhen.get_image_data to_float w self index tr
   = (Raise (RuntimeError "permute: number of dimensions does not match"),
      (tr ++ [Imread (Shenzhen._split_dir self ++ os_sep ++ name)])%list))
  /\ (forall h wd c : nat,
        shape img = [h; wd; c] -> wf img ->
        exists t : tensor F,
          Shenzhen.get_image_data to_float w self index tr
          = (Ok t, (tr ++ [Imread (Shenzhen._split_dir self ++ os_sep ++ name)])%list)
          /\ shape t = [c; h; wd]
          /\ forall (k i j : nat) (x : Z),
               (k < c)%nat -> (i < h)%nat -> (j < wd)%nat ->
               nth_error (data img) ((i * wd + j) * c + k) = Some x ->
               nth_error (data t) ((k * h + i) * wd + j) = Some (to_float x)).
Proof.
  intros Hname Himg.
  unfold Shenzhen.get_image_data, imread, bind, lift, emit, ret.
  rewrite Hname. cbv beta iota. rewrite Himg. cbv beta iota. split.
  - intros Hdims. unfold permute_201.
    destruct (shape img) as [|h [|wd [|c [|x rest]]]]; try reflexivity.
    now contradiction Hdims.
  - intros h wd c Hshape Hwf. unfold permute_201. rewrite Hshape. cbv beta iota.
    eexists. split; [reflexivity|]. split; [reflexivity|].
    intros k i j x Hk Hi Hj Hx. cbn [data]. rewrite nth_error_map.
    unfold wf in Hwf. rewrite Hshape in Hwf. simpl in Hwf.
    replace ((k * h + i) * wd + j)%nat with (k * (h * wd) + (i * wd + j))%nat by lia.
    rewrite (image_element h wd c k (i * wd + j) (data img) x); [reflexivity|lia|exact Hk| |exact Hx].
    nia.
Qed.

Lemma image_is_channel_first_witness :
  exists t : tensor Z,
    Shenzhen.get_image_data (fun z : Z => z) Fixtures.world_pixels Fixtures.index_pixels 0 []
    = (Ok t, [Imread "/data/train/x.png"])
    /\ shape t = [3; 1; 2]%nat
    /\ nth_error (data t) 1 = Some 40%Z.
Proof.
  destruct (image_is_channel_first (fun z : Z => z) Fixtures.world_pixels
              Fixtures.index_pixels 0 [] "x.png"
              (Tensor.mk [1; 2; 3]%nat [10; 20; 30; 40; 50; 60]%Z))
    as [_ Hrgb]; [reflexivity|reflexivity|].
  destruct (Hrgb 1%nat 2%nat 3%nat) as [t [Hrun [Hshape Helem]]]; [reflexivity|reflexivity|].
  exists t. split; [exact Hrun|]. split; [exact Hshape|].
  apply (Helem 0%nat 0%nat 1%nat 40%Z); [lia|lia|lia|reflexivity].
Defined.

(** X4.  [__getitem__] on a constructed dataset.  If the image file is
    missing it raises after that single read, and the mask is never read.
    Otherwise it reads the image and then the mask
    [<first component>_mask.png], raising if that file is missing; it hands the channel-first image and the
    remapped mask (with a new leading dimension) to the transforms, if there
    are any, and returns the image with the target from which [squeeze()]
    has dropped every dimension of size one.  Without transforms that is the
    added leading dimension, and also a height or width of one; a mask
    without such a dimension keeps its own shape. *)
Theorem sample_is_image_and_squeezed_target {F} (to_float : Z -> F)
  (transforms : option (tensor F -> tensor Z -> tensor F * tensor Z)) (w : World)
  (split : _Split.member) (root : string) (tr0 tr1 tr : list event)
  (self : Shenzhen.t) (index : Z) (name : string) :
  Shenzhen.__init__ w split root tr0 = (Ok self, tr1) ->
  getitem (Shenzhen.images self) index = Ok name ->
  let image_path := Shenzhen._split_dir self ++ os_sep ++ name in
  let mask_path := Shenzhen._masks_path self ++ os_sep
                   ++ hd EmptyString (Py.split "." name) ++ "_mask.png" in
  (fs_images w image_path = None ->
   Shenzhen.__getitem__ to_float transforms w self index tr
   = (Raise (FileNotFoundError image_path), (tr ++ [Imread image_path])%list))
  /\ (forall (img : tensor Z) (h wd c : nat),
        fs_images w image_path = Some img -> shape img = [h; wd; c] ->
        fs_images w mask_path = None ->
        Shenzhen.__getitem__ to_float transforms w self index tr
        = (Raise (FileNotFoundError mask_path),
           (tr ++ [Imread image_path; Imread mask_path])%list))
  /\ (forall (img mask : tensor Z) (h wd c : nat),
        fs_images w image_path = Some img -> shape img = [h; wd; c] ->
        fs_images w mask_path = Some mask ->
        exists (image : tensor F) (target : tensor Z),
          Shenzhen.__getitem__ to_float transforms w self index tr
          = (Ok (match transforms with
                 | Some f => (fst (f image target), squeeze (snd (f image target)))
                 | None => (image, squeeze target)
                 end),
             (tr ++ [Imread image_path; Imread mask_path])%list)
          /\ shape image = [c; h; wd]
          /\ shape target = 1%nat :: shape mask
          /\ data target = map (fun v => if (v =? 255)%Z then 1%Z else v) (data mask)
          /\ shape (squeeze target) = filter (fun d => negb (d =? 1)%nat) (shape mask)
          /\ (Forall (fun d => d <> 1%nat) (shape mask) ->
              shape (squeeze target) = shape mask)).
Proof.
  intros Hinit Hname image_path mask_path.
  destruct (init_attributes _ _ _ _ _ _ Hinit) as [Hmap _].
  unfold Shenzhen.__getitem__, Shenzhen.get_image_data, Shenzhen.get_target, imread,
    bind, lift, emit, ret, raise.
  rewrite Hname. cbv beta iota. fold image_path. split; [|split].
  - intros Hnone. rewrite Hnone. reflexivity.
  - intros img h wd c Himg Hshape Hmask. rewrite Himg. cbv beta iota.
    unfold permute_201. rewrite Hshape. cbv beta iota.
    rewrite (getitem_0_hd EmptyString) by apply split_not_nil. cbv beta iota.
    fold mask_path. rewrite Hmask. cbv beta iota. now rewrite <- app_assoc.
  - intros img mask h wd c Himg Hshape Hmask. rewrite Himg. cbv beta iota.
    unfold permute_201. rewrite Hshape. cbv beta iota.
    rewrite (getitem_0_hd EmptyString) by apply split_not_nil. cbv beta iota.
    fold mask_path. rewrite Hmask. cbv beta iota. rewrite Hmap.
    eexists. eexists. split.
    + simpl dict_get. cbv beta iota. rewrite <- app_assoc.
      destruct transforms as [f|]; reflexivity.
    + cbn [fst snd shape data squeeze unsqueeze0 Shenzhen.masked_assign filter Nat.eqb negb].
      repeat split.
      intros Hall. induction Hall as [|d rest Hd _ IH]; simpl; [reflexivity|].
      apply Nat.eqb_neq in Hd. rewrite Hd. simpl. now rewrite IH.
Qed.

Lemma sample_is_image_and_squeezed_target_witness :
  exists (image target : tensor Z),
    Shenzhen.__getitem__ (fun z : Z => z) None Fixtures.world_pixels Fixtures.index_pixels 0 []
    = (Ok (image, squeeze target), [Imread "/data/train/x.png"; Imread "/data/masks/x_mask.png"])
    /\ shape (squeeze target) = [2%nat]
    /\ data target = [1; 7]%Z.
Proof.
  destruct (sample_is_image_and_squeezed_target (fun z : Z => z) None Fixtures.world_pixels
              _Split.TRAIN "/data" []
              [Listdir "/data/train"; Log INFO "360 scans are missing from TRAIN set";
               Listdir "/data/train"]
              [] Fixtures.index_pixels 0 "x.png") as [_ [_ Hok]]; [reflexivity|reflexivity|].
  destruct (Hok (Tensor.mk [1; 2; 3]%nat [10; 20; 30; 40; 50; 60]%Z)
                (Tensor.mk [1; 2]%nat [255; 7]%Z) 1%nat 2%nat 3%nat)
    as [image [target [Hrun [_ [_ [Hdata [Hshape _]]]]]]]; [reflexivity|reflexivity|reflexivity|].
  exists image, target. split; [exact Hrun|]. split; [exact Hshape|exact Hdata].
Defined.

(** ** The split arithmetic of [make_splits] *)

Lemma rmap_total {A B} (f : A -> result B) (g : A -> B) (xs : list A) :
  (forall x, In x xs -> f x = Ok (g x)) -> rmap f xs = Ok (map g xs).
Proof.
  intros Hf. rewrite <- (map_id xs) at 1. now apply rmap_map_total.
Qed.

Section Frames.

Local Open Scope list_scope.

Context {A : Type}.

Lemma listed_In (labels : list nat) (i : nat) : listed labels i = true <-> In i labels.
Proof.
  unfold listed. rewrite existsb_exists. split.
  - intros [x [Hin Heq]]. apply Nat.eqb_eq in Heq. now subst.
  - intros Hin. exists i. split; [exact Hin|apply Nat.eqb_refl].
Qed.

Lemma iloc_rows (d : A) (frame : list A) (positions : list nat) :
  Forall (fun i => (i < List.length frame)%nat) positions ->
  iloc frame positions = Ok (map (fun i => nth i frame d) positions).
Proof.
  intros Hall. unfold iloc. apply rmap_total. intros i Hi.
  rewrite Forall_forall in Hall. specialize (Hall i Hi).
  destruct (nth_error frame i) as [a|] eqn:Hnth.
  - now rewrite (nth_error_nth _ _ d Hnth).
  - apply nth_error_None in Hnth. lia.
Qed.

Lemma iloc_out_of_bounds (frame : list A) (positions : list nat) :
  Exists (fun i => (List.length frame <= i)%nat) positions ->
  iloc frame positions = Raise (IndexError "positional indexers are out-of-bounds").
Proof.
  unfold iloc. induction 1 as [i rest Hi|i rest _ IH]; simpl.
  - apply nth_error_None in Hi. now rewrite Hi.
  - rewrite IH. destruct (nth_error frame i); reflexivity.
Qed.

Lemma combine_seq (d : A) (frame : list A) :
  combine (seq 0 (List.length frame)) frame
  = map (fun i => (i, nth i frame d)) (seq 0 (List.length frame)).
Proof.
  rewrite (row_as_table d (List.length frame) frame eq_refl) at 2.
  rewrite <- (map_id (seq 0 (List.length frame))) at 1.
  apply (combine_map (fun i : nat => i)).
Qed.

Lemma drop_rows (d : A) (frame : list A) (labels : list nat) :
  Forall (fun i => (i < List.length frame)%nat) labels ->
  drop frame labels
  = Ok (map (fun i => nth i frame d)
            (filter (fun i => negb (listed labels i)) (seq 0 (List.length frame)))).
Proof.
  intros Hall. unfold drop.
  replace (forallb (fun i => (i <? List.length frame)%nat) labels) with true.
  - rewrite (combine_seq d). f_equal.
    induction (seq 0 (List.length frame)) as [|i l IH]; simpl; [reflexivity|].
    fold (listed labels i). destruct (listed labels i); simpl; now rewrite IH.
  - symmetry. apply forallb_forall. intros i Hi. apply Nat.ltb_lt.
    rewrite Forall_forall in Hall. now apply Hall.
Qed.

Lemma positions_split (n : nat) (labels : list nat) :
  NoDup labels -> Forall (fun i => (i < n)%nat) labels ->
  Permutation (labels ++ filter (fun i => negb (listed labels i)) (seq 0 n)) (seq 0 n).
Proof.
  intros Hnd Hall. apply NoDup_Permutation.
  - apply NoDup_app; [exact Hnd|apply NoDup_filter, seq_NoDup|].
    intros i Hi Hf. apply filter_In in Hf. destruct Hf as [_ Hf].
    apply negb_true_iff in Hf. apply listed_In in Hi. congruence.
  - apply seq_NoDup.
  - intros i. rewrite in_app_iff, filter_In, in_seq. split.
    + intros [Hi|[Hi _]]; [|lia]. rewrite Forall_forall in Hall. specialize (Hall i Hi). lia.
    + intros Hi. destruct (listed labels i) eqn:Hl.
      * left. now apply listed_In.
      * right. split; [lia|reflexivity].
Qed.

(** Taking some rows and dropping the same rows splits a frame. *)
Lemma iloc_drop_split (frame : list A) (labels : list nat) :
  NoDup labels -> Forall (fun i => (i < List.length frame)%nat) labels ->
  exists taken rest,
    iloc frame labels = Ok taken /\ drop frame labels = Ok rest
    /\ Permutation (taken ++ rest) frame
    /\ List.length taken = List.length labels
    /\ List.length rest = (List.length frame - List.length labels)%nat.
Proof.
  intros Hnd Hall. destruct frame as [|d frame'] eqn:Hframe.
  - destruct labels as [|i labels]; [|inversion Hall; simpl in *; lia].
    exists [], []. repeat split. constructor.
  - rewrite <- Hframe in *. clear Hframe frame'.
    exists (map (fun i => nth i frame d) labels),
           (map (fun i => nth i frame d)
                (filter (fun i => negb (listed labels i)) (seq 0 (List.length frame)))).
    split; [now apply iloc_rows|]. split; [now apply drop_rows|].
    pose proof (positions_split (List.length frame) labels Hnd Hall) as Hperm.
    split; [|split].
    + rewrite <- map_app.
      apply Permutation_trans
        with (map (fun i => nth i frame d) (seq 0 (List.length frame))).
      * now apply Permutation_map.
      * rewrite <- (row_as_table d (List.length frame) frame eq_refl).
        apply Permutation_refl.
    + apply length_map.
    + rewrite length_map. apply Permutation_length in Hperm.
      rewrite length_app, length_seq in Hperm. lia.
Qed.

End Frames.

Lemma range_facts (stop step count : nat) :
  List.length (range_step 0 stop step) = count ->
  nodup Nat.eq_dec (range_step 0 stop step) = range_step 0 stop step ->
  forallb (fun i => (i <? stop)%nat) (range_step 0 stop step) = true ->
  List.length (range_step 0 stop step) = count
  /\ NoDup (range_step 0 stop step)
  /\ Forall (fun i => (i < stop)%nat) (range_step 0 stop step).
Proof.
  intros Hlen Hnd Hlt. split; [exact Hlen|]. split.
  - rewrite <- Hnd. apply NoDup_nodup.
  - apply Forall_forall. intros i Hi. rewrite forallb_forall in Hlt.
    apply Nat.ltb_lt. now apply Hlt.
Qed.

Lemma test_list_facts :
  List.length (range_step 0 566 (math_ceil 566 114)) = 114%nat
  /\ NoDup (range_step 0 566 (math_ceil 566 114))
  /\ Forall (fun i => (i < 566)%nat) (range_step 0 566 (math_ceil 566 114)).
Proof. apply range_facts; vm_compute; reflexivity. Qed.

Lemma val_list_facts :
  List.length (range_step 0 452 (math_ceil 452 91)) = 91%nat
  /\ NoDup (range_step 0 452 (math_ceil 452 91))
  /\ Forall (fun i => (i < 452)%nat) (range_step 0 452 (math_ceil 452 91)).
Proof. apply range_facts; vm_compute; reflexivity. Qed.

(** The three sets [make_splits] selects from a frame of at least 566
    rows. *)
Lemma select_splits_sets (images : list string) :
  (566 <= List.length images)%nat ->
  exists train_set val_set test_set,
    select_splits images = Ok (train_set, val_set, test_set)
    /\ List.length test_set = 114%nat
    /\ List.length val_set = 91%nat
    /\ List.length train_set = (List.length images - 205)%nat
    /\ Permutation (train_set ++ val_set ++ test_set)%list images.
Proof.
  intros Hn. unfold select_splits.
  destruct test_list_facts as [Htl [Htnd Htlt]].
  destruct val_list_facts as [Hvl [Hvnd Hvlt]].
  set (test_list := range_step 0 566 (math_ceil 566 114)) in *.
  set (val_list := range_step 0 452 (math_ceil 452 91)) in *.
  destruct (iloc_drop_split images test_list Htnd)
    as [test_set [train_val_set [Ht [Htv [Hp1 [Hl1 Hl2]]]]]].
  { eapply Forall_impl; [|exact Htlt]. intros i Hi. simpl in Hi. lia. }
  destruct (iloc_drop_split train_val_set val_list Hvnd)
    as [val_set [train_set [Hv [Htr [Hp2 [Hl3 Hl4]]]]]].
  { eapply Forall_impl; [|exact Hvlt]. intros i Hi. simpl in Hi. lia. }
  exists train_set, val_set, test_set.
  cbv zeta. rewrite Ht. simpl rbind. rewrite Htv. simpl rbind.
  rewrite Hv. simpl rbind. rewrite Htr. simpl rbind.
  split; [reflexivity|]. split; [lia|]. split; [lia|]. split; [lia|].
  rewrite app_assoc. apply Permutation_trans with (test_set ++ train_val_set)%list.
  - apply Permutation_trans with ((train_set ++ val_set) ++ test_set)%list.
    + apply Permutation_refl.
    + rewrite Permutation_app_comm. apply Permutation_app_head.
      rewrite Permutation_app_comm. exact Hp2.
  - exact Hp1.
Qed.


(** X5.  The index arithmetic of [make_splits].  From a frame of at least
    566 images it selects 114 test, 91 validation and all remaining
    training images; the three sets together are a rearrangement of the
    frame (no image is lost or taken twice).  For exactly 566 images the
    sizes are the lengths [_Split.length] declares: 361, 91 and 114. *)
Theorem select_splits_partition (images : list string) :
  (566 <= List.length images)%nat ->
  exists train_set val_set test_set,
    select_splits images = Ok (train_set, val_set, test_set)
    /\ List.length test_set = 114%nat
    /\ List.length val_set = 91%nat
    /\ List.length train_set = (List.length images - 205)%nat
    /\ Permutation (train_set ++ val_set ++ test_set)%list images
    /\ (List.length images = 566%nat ->
        _Split.length _Split.TRAIN = Ok (Z.of_nat (List.length train_set))
        /\ _Split.length _Split.VAL = Ok (Z.of_nat (List.length val_set))
        /\ _Split.length _Split.TEST = Ok (Z.of_nat (List.length test_set))).
Proof.
  intros Hn.
  destruct (select_splits_sets images Hn)
    as [train_set [val_set [test_set [Hsel [Htest [Hval [Htrain Hperm]]]]]]].
  exists train_set, val_set, test_set.
  split; [exact Hsel|]. split; [exact Htest|]. split; [exact Hval|].
  split; [exact Htrain|]. split; [exact Hperm|].
  intros H566. rewrite Htrain, Hval, Htest, H566. repeat split.
Qed.

Lemma select_splits_partition_witness :
  exists train_set val_set test_set,
    select_splits (Fixtures.files 600) = Ok (train_set, val_set, test_set)
    /\ List.length test_set = 114%nat
    /\ List.length val_set = 91%nat
    /\ List.length train_set = (List.length (Fixtures.files 600) - 205)%nat
    /\ Permutation (train_set ++ val_set ++ test_set)%list (Fixtures.files 600)
    /\ (List.length (Fixtures.files 600) = 566%nat ->
        _Split.length _Split.TRAIN = Ok (Z.of_nat (List.length train_set))
        /\ _Split.length _Split.VAL = Ok (Z.of_nat (List.length val_set))
        /\ _Split.length _Split.TEST = Ok (Z.of_nat (List.length test_set))).
Proof.
  apply (select_splits_partition (Fixtures.files 600)).
  unfold Fixtures.files. rewrite length_map, length_seq. lia.
Defined.

Lemma select_splits_too_few (images : list string) :
  (List.length images < 566)%nat ->
  select_splits images = Raise (IndexError "positional indexers are out-of-bounds").
Proof.
  intros Hn. unfold select_splits. cbv zeta.
  rewrite iloc_out_of_bounds; [reflexivity|].
  apply Exists_exists. exists 565%nat. split; [|lia].
  apply (proj1 (listed_In _ 565%nat)). vm_compute. reflexivity.
Qed.

(** X6.  With fewer than 566 images that have a mask, [make_splits] raises
    [IndexError] at the selection of the test rows, and the disk is as it
    was: no split directory has been created and no file moved. *)
Theorem make_splits_needs_566_images
  (data_dir : string) (disk : Disk.fs) (image_entries mask_entries : list string) :
  Disk.lookup disk (data_dir ++ os_sep ++ "CXR_png") = Some image_entries ->
  Disk.lookup disk (data_dir ++ os_sep ++ "masks") = Some mask_entries ->
  (List.length (images_with_masks image_entries mask_entries) < 566)%nat ->
  make_splits data_dir disk
  = (Raise (IndexError "positional indexers are out-of-bounds"), disk).
Proof.
  intros Himg Hmask Hfew. unfold make_splits. cbv zeta.
  unfold Disk.bind at 1. unfold Disk.listdir at 1. rewrite Himg.
  unfold Disk.bind at 1. unfold Disk.listdir at 1. rewrite Hmask.
  unfold Disk.bind at 1. unfold Disk.lift.
  now rewrite (select_splits_too_few _ Hfew).
Qed.

Lemma make_splits_needs_566_images_witness :
  make_splits "/d" Fixtures.small_disk
  = (Raise (IndexError "positional indexers are out-of-bounds"), Fixtures.small_disk).
Proof.
  apply (make_splits_needs_566_images "/d" Fixtures.small_disk ["a.png"; "b.png"] ["a_mask.png"]).
  - reflexivity.
  - reflexivity.
  - vm_compute. lia.
Defined.

(** ** File names and sample keys *)

Lemma split_app (sep : ascii) (a b : string) :
  Py.split sep (a ++ String sep b) = (Py.split sep a ++ Py.split sep b)%list.
Proof.
  induction a as [|c a IH]; simpl.
  - now rewrite Ascii.eqb_refl.
  - destruct (Ascii.eqb c sep); [now rewrite IH|].
    rewrite IH. pose proof (split_not_nil sep a) as Hnil.
    destruct (Py.split sep a) as [|h t]; [contradiction|reflexivity].
Qed.

Lemma split_without_sep (sep : ascii) (s : string) :
  contains sep s = false -> Py.split sep s = [s].
Proof.
  induction s as [|c s IH]; simpl; [reflexivity|].
  intros Hc. apply orb_false_iff in Hc. destruct Hc as [Hc Hs].
  rewrite Hc, (IH Hs). reflexivity.
Qed.

Lemma slice_to_minus_one {A} (l : list A) (x : A) : slice_to (l ++ [x])%list (-1) = l.
Proof.
  unfold slice_to. simpl (_ <? _)%Z. cbv iota.
  rewrite length_app. simpl List.length.
  replace (Z.to_nat (Z.of_nat (List.length l + 1) + -1)) with (List.length l + 0)%nat by lia.
  rewrite firstn_app_2. simpl. apply app_nil_r.
Qed.

Lemma join_split_replace (sep other : ascii) (s : string) :
  join (String other EmptyString) (Py.split sep s) = Py.replace sep other s.
Proof.
  induction s as [|c s IH]; simpl; [reflexivity|].
  pose proof (split_not_nil sep s) as Hnil.
  destruct (Ascii.eqb c sep).
  - destruct (Py.split sep s) as [|h t]; [contradiction|].
    simpl in *. now rewrite IH.
  - destruct (Py.split sep s) as [|h t]; [contradiction|].
    destruct t as [|h' t]; simpl in *; now rewrite <- IH.
Qed.

Lemma replace_absent (a b : ascii) (s : string) :
  contains a s = false -> Py.replace a b s = s.
Proof.
  induction s as [|c s IH]; simpl; [reflexivity|].
  intros Hc. apply orb_false_iff in Hc. destruct Hc as [Hc Hs].
  now rewrite Hc, (IH Hs).
Qed.

Lemma mask_key_of (stem suffix : string) :
  contains "_" suffix = false -> mask_key (stem ++ String "_" suffix) = stem.
Proof.
  intros Hs. unfold mask_key.
  rewrite split_app, (split_without_sep _ _ Hs), slice_to_minus_one.
  apply (join_split "_").
Qed.

Lemma image_key_of (stem ext : string) :
  contains "." ext = false ->
  image_key (stem ++ String "." ext) = Py.replace "." "_" stem.
Proof.
  intros Hs. unfold image_key.
  rewrite split_app, (split_without_sep _ _ Hs), slice_to_minus_one.
  apply join_split_replace.
Qed.

(** X7.  The keys [make_splits] compares.  For a stem without a dot, the
    image [<stem>.png] and the mask [<stem>_mask.png] have the same key, the
    stem itself (underscores in the stem are kept); so an image listed with
    its mask is a row of the frame, under its own file name. *)
Theorem image_and_mask_names_meet
  (stem : string) (image_entries mask_entries : list string) :
  contains "." stem = false ->
  In (stem ++ ".png") image_entries ->
  In (stem ++ "_mask.png") mask_entries ->
  image_key (stem ++ ".png") = stem
  /\ mask_key (stem ++ "_mask.png") = stem
  /\ In (stem ++ ".png") (images_with_masks image_entries mask_entries).
Proof.
  intros Hdot Himg Hmask.
  assert (Hik : image_key (stem ++ ".png") = stem)
    by (rewrite (image_key_of stem "png" eq_refl); now apply replace_absent).
  assert (Hmk : mask_key (stem ++ "_mask.png") = stem)
    by apply (mask_key_of stem "mask.png" eq_refl).
  split; [exact Hik|]. split; [exact Hmk|].
  unfold images_with_masks. cbv zeta.
  apply in_map_iff. exists stem. split; [reflexivity|].
  apply filter_In. split.
  - apply in_map_iff. exists (stem ++ ".png"). now split.
  - apply existsb_exists. exists stem. split; [|apply String.eqb_refl].
    apply in_map_iff. exists (stem ++ "_mask.png"). now split.
Qed.

Lemma image_and_mask_names_meet_witness :
  image_key ("CHNCXR_0001_0" ++ ".png") = "CHNCXR_0001_0"
  /\ mask_key ("CHNCXR_0001_0" ++ "_mask.png") = "CHNCXR_0001_0"
  /\ In ("CHNCXR_0001_0" ++ ".png")
        (images_with_masks ["x.png"; "CHNCXR_0001_0.png"] ["CHNCXR_0001_0_mask.png"]).
Proof.
  apply (image_and_mask_names_meet "CHNCXR_0001_0").
  - reflexivity.
  - right. left. reflexivity.
  - left. reflexivity.
Defined.

(** ** What [make_splits] does to the disk *)

Section Moves.

Local Open Scope list_scope.

Lemma lookup_update_same (disk : Disk.fs) (dir : string) (entries : list string) :
  Disk.lookup (Disk.update disk dir entries) dir = Some entries.
Proof.
  induction disk as [|[d old] disk IH]; simpl.
  - now rewrite String.eqb_refl.
  - destruct (String.eqb d dir) eqn:Hd; simpl; now rewrite Hd.
Qed.

Lemma lookup_update_other (disk : Disk.fs) (dir other : string) (entries : list string) :
  dir <> other ->
  Disk.lookup (Disk.update disk dir entries) other = Disk.lookup disk other.
Proof.
  intros Hne. induction disk as [|[d old] disk IH]; simpl.
  - apply String.eqb_neq in Hne. now rewrite Hne.
  - destruct (String.eqb_spec d dir) as [->|Hd]; simpl.
    + apply String.eqb_neq in Hne. now rewrite Hne.
    + now rewrite IH.
Qed.

Lemma path_split_file (dir name : string) :
  contains "/" name = false ->
  Disk.path_split (dir ++ String "/" name) = (dir, name).
Proof.
  intros Hname. unfold Disk.path_split. cbv zeta.
  rewrite split_app, (split_without_sep _ _ Hname).
  rewrite removelast_last, last_last. now rewrite (join_split "/").
Qed.

Lemma remove_name_absent (name : string) (entries : list string) :
  ~ In name entries -> Disk.remove_name name entries = entries.
Proof.
  induction entries as [|e entries IH]; intros Hnot; simpl; [reflexivity|].
  destruct (String.eqb_spec e name) as [->|Hne].
  - exfalso. apply Hnot. now left.
  - rewrite IH; [reflexivity|]. intros Hin. apply Hnot. now right.
Qed.

Lemma remove_name_filter (name : string) (entries : list string) :
  NoDup entries ->
  Disk.remove_name name entries = filter (fun e => negb (String.eqb e name)) entries.
Proof.
  induction 1 as [|e entries Hnot _ IH]; simpl; [reflexivity|].
  destruct (String.eqb_spec e name) as [->|Hne]; simpl.
  - rewrite <- IH. symmetry. now apply remove_name_absent.
  - now rewrite IH.
Qed.

Lemma existsb_name (name : string) (entries : list string) :
  existsb (String.eqb name) entries = true <-> In name entries.
Proof.
  rewrite existsb_exists. split.
  - intros [e [Hin Heq]]. apply String.eqb_eq in Heq. now subst.
  - intros Hin. exists name. split; [exact Hin|apply String.eqb_refl].
Qed.

(** One [shutil.move] of a file that exists into a directory that exists and
    holds no file of that name. *)
Lemma move_file (disk : Disk.fs) (sdir ddir name : string) (src dst : list string) :
  sdir <> ddir -> contains "/" name = false ->
  Disk.lookup disk sdir = Some src -> Disk.lookup disk ddir = Some dst ->
  In name src -> ~ In name dst ->
  Disk.move (sdir ++ String "/" name) (ddir ++ String "/" name) disk
  = (Ok tt, Disk.update (Disk.update disk sdir (Disk.remove_name name src))
                        ddir (dst ++ [name])).
Proof.
  intros Hdirs Hname Hsrc Hdst Hin Hnot. unfold Disk.move.
  rewrite !path_split_file by exact Hname. rewrite Hsrc.
  apply existsb_name in Hin. rewrite Hin. simpl negb. cbv iota.
  rewrite lookup_update_other by exact Hdirs. rewrite Hdst.
  now rewrite (remove_name_absent name dst Hnot).
Qed.

Lemma moved_away (names src : list string) (name : string) :
  filter (fun e => negb (existsb (String.eqb e) names))
         (filter (fun e => negb (String.eqb e name)) src)
  = filter (fun e => negb (existsb (String.eqb e) (name :: names))) src.
Proof.
  induction src as [|e src IH]; simpl; [reflexivity|].
  destruct (String.eqb e name); simpl; [exact IH|].
  destruct (existsb (String.eqb e) names); simpl; now rewrite IH.
Qed.

(** A loop of moves from one directory into another. *)
Lemma move_files (sdir ddir : string) (names : list string) :
  sdir <> ddir -> NoDup names -> Forall (fun name => contains "/" name = false) names ->
  forall (disk : Disk.fs) (src dst : list string),
    Disk.lookup disk sdir = Some src -> Disk.lookup disk ddir = Some dst ->
    NoDup src -> incl names src -> (forall name, In name names -> ~ In name dst) ->
    exists disk',
      Disk.for_each (fun image => Disk.move (sdir ++ os_sep ++ image) (ddir ++ os_sep ++ image))
                    names disk = (Ok tt, disk')
      /\ Disk.lookup disk' sdir
         = Some (filter (fun e => negb (existsb (String.eqb e) names)) src)
      /\ Disk.lookup disk' ddir = Some (dst ++ names)
      /\ (forall other, other <> sdir -> other <> ddir ->
                        Disk.lookup disk' other = Disk.lookup disk other).
Proof.
  intros Hdirs Hnd Hnames. induction Hnd as [|name names Hfresh Hnd IH];
    intros disk src dst Hsrc Hdst Hnsrc Hincl Hnew.
  - exists disk. simpl. rewrite app_nil_r. repeat split; try assumption.
    rewrite Hsrc. f_equal. symmetry. apply forallb_filter_id. now apply forallb_forall.
  - cbn [Disk.for_each]. unfold Disk.bind at 1. unfold os_sep. cbn [append].
    rewrite (move_file disk sdir ddir name src dst); try assumption.
    2:{ now inversion Hnames. }
    2:{ apply Hincl. now left. }
    2:{ apply Hnew. now left. }
    rewrite (remove_name_filter name src Hnsrc).
    destruct (IH (Forall_inv_tail Hnames)
                 (Disk.update (Disk.update disk sdir
                                 (filter (fun e => negb (String.eqb e name)) src))
                              ddir (dst ++ [name]))
                 (filter (fun e => negb (String.eqb e name)) src) (dst ++ [name]))
      as [disk' [Hrun [Hs [Hd Hother]]]].
    + rewrite lookup_update_other by (intros Heq; apply Hdirs; now symmetry).
      apply lookup_update_same.
    + apply lookup_update_same.
    + now apply NoDup_filter.
    + intros e He. apply filter_In. split; [apply Hincl; now right|].
      apply negb_true_iff, String.eqb_neq. intros ->. contradiction.
    + intros e He Hin. apply in_app_or in Hin. destruct Hin as [Hin|[<-|[]]].
      * apply (Hnew e); [now right|exact Hin].
      * contradiction.
    + exists disk'. split; [exact Hrun|]. split; [|split].
      * rewrite Hs. f_equal. apply moved_away.
      * rewrite Hd. now rewrite <- app_assoc.
      * intros other Hos Hod. rewrite (Hother other Hos Hod).
        rewrite lookup_update_other by (intros Heq; apply Hod; now symmetry).
        apply lookup_update_other. intros Heq. apply Hos. now symmetry.
Qed.

End Moves.

Section Splitting.

Local Open Scope list_scope.

Lemma nodup_app_apart {A} (a b : list A) (e : A) :
  NoDup (a ++ b) -> In e a -> ~ In e b.
Proof.
  induction a as [|x a IH]; simpl; intros Hnd Ha Hb; [contradiction|].
  inversion Hnd as [|? ? Hnot Hnd']; subst. destruct Ha as [->|Ha].
  - apply Hnot. apply in_or_app. now right.
  - now apply (IH Hnd' Ha).
Qed.

Lemma filter_twice {A} (f g : A -> bool) (l : list A) :
  filter f (filter g l) = filter (fun x => f x && g x) l.
Proof.
  induction l as [|x l IH]; simpl; [reflexivity|].
  destruct (g x); simpl; [|now rewrite andb_false_r].
  rewrite andb_true_r. destruct (f x); now rewrite IH.
Qed.

Lemma forallb_filter_nil {A} (f : A -> bool) (l : list A) :
  forallb (fun x => negb (f x)) l = true -> filter f l = [].
Proof.
  induction l as [|x l IH]; simpl; [reflexivity|].
  intros Hall. apply andb_true_iff in Hall. destruct Hall as [Hx Hl].
  apply negb_true_iff in Hx. rewrite Hx. now apply IH.
Qed.

Lemma append_cancel (a b c : string) : (a ++ b = a ++ c)%string -> b = c.
Proof.
  induction a as [|x a IH]; simpl; intros Heq; [exact Heq|].
  inversion Heq. now apply IH.
Qed.

Lemma frame_of_png_entries (image_entries mask_entries : list string) :
  Forall (fun e => (image_key e ++ ".png")%string = e) image_entries ->
  images_with_masks image_entries mask_entries
  = filter (fun e => existsb (String.eqb (image_key e)) (map mask_key mask_entries))
           image_entries.
Proof.
  unfold images_with_masks. cbv zeta.
  induction 1 as [|e entries He _ IH]; simpl; [reflexivity|].
  destruct (existsb (String.eqb (image_key e)) (map mask_key mask_entries)); simpl.
  - now rewrite He, IH.
  - exact IH.
Qed.

Lemma makedirs_empty (disk : Disk.fs) (path : string) :
  Disk.lookup disk path = None \/ Disk.lookup disk path = Some [] ->
  exists disk',
    Disk.makedirs path disk = (Ok tt, disk')
    /\ Disk.lookup disk' path = Some []
    /\ (forall other, other <> path -> Disk.lookup disk' other = Disk.lookup disk other).
Proof.
  intros [Hnone|Hempty]; unfold Disk.makedirs.
  - rewrite Hnone. eexists. split; [reflexivity|]. split.
    + apply lookup_update_same.
    + intros other Hne. apply lookup_update_other. intros Heq. apply Hne. now symmetry.
  - rewrite Hempty. exists disk. auto.
Qed.

Lemma not_listed (names : list string) (e : string) :
  negb (existsb (String.eqb e) names) = true <-> ~ In e names.
Proof.
  rewrite negb_true_iff, <- not_true_iff_false, existsb_name. reflexivity.
Qed.

(** X25.  [make_splits] on a dataset directory that is not yet split: the
    three split directories are missing or empty, the image directory lists
    each file once, under a name without a slash that its key gives back
    ([<stem>.png] with a stem without a dot), and at least 566 images have a
    mask.  Then it returns; afterwards [train], [val] and [test] hold
    exactly the three selected sets, in selection order, the image directory
    keeps exactly the files that have no mask, in their order, and the mask
    directory is as it was.  A second run on the resulting disk finds no
    image with a mask: it raises [IndexError] and changes nothing. *)
Theorem make_splits_moves_the_sets (data_dir : string) (disk : Disk.fs)
  (image_entries mask_entries : list string) :
  Disk.lookup disk (data_dir ++ os_sep ++ "CXR_png") = Some image_entries ->
  Disk.lookup disk (data_dir ++ os_sep ++ "masks") = Some mask_entries ->
  NoDup image_entries ->
  Forall (fun e => contains "/" e = false /\ (image_key e ++ ".png")%string = e)
         image_entries ->
  (forall split, In split ["train"; "val"; "test"]%string ->
                 Disk.lookup disk (data_dir ++ os_sep ++ split) = None
                 \/ Disk.lookup disk (data_dir ++ os_sep ++ split) = Some []) ->
  (566 <= List.length (images_with_masks image_entries mask_entries))%nat ->
  exists (train_set val_set test_set : list string) (disk' : Disk.fs),
    select_splits (images_with_masks image_entries mask_entries)
    = Ok (train_set, val_set, test_set)
    /\ make_splits data_dir disk = (Ok tt, disk')
    /\ Disk.lookup disk' (data_dir ++ os_sep ++ "train") = Some train_set
    /\ Disk.lookup disk' (data_dir ++ os_sep ++ "val") = Some val_set
    /\ Disk.lookup disk' (data_dir ++ os_sep ++ "test") = Some test_set
    /\ Disk.lookup disk' (data_dir ++ os_sep ++ "CXR_png")
       = Some (filter (fun e => negb (existsb (String.eqb e)
                                        (images_with_masks image_entries mask_entries)))
                      image_entries)
    /\ Disk.lookup disk' (data_dir ++ os_sep ++ "masks") = Some mask_entries
    /\ make_splits data_dir disk'
       = (Raise (IndexError "positional indexers are out-of-bounds"), disk').
Proof.
  intros Himg Hmask Hnd Hnames Hdirs Hmany.
  set (images := images_with_masks image_entries mask_entries) in *.
  assert (Hframe : images = filter (fun e => existsb (String.eqb (image_key e))
                                                     (map mask_key mask_entries))
                                   image_entries).
  { apply frame_of_png_entries. eapply Forall_impl; [|exact Hnames]. now intros e [_ He]. }
  assert (Hincl : incl images image_entries).
  { intros e He. rewrite Hframe in He. apply filter_In in He. tauto. }
  assert (Hndi : NoDup images) by (rewrite Hframe; now apply NoDup_filter).
  destruct (select_splits_sets images Hmany)
    as [train_set [val_set [test_set [Hsel [_ [_ [_ Hperm]]]]]]].
  assert (Hparts : NoDup (train_set ++ val_set ++ test_set))
    by (apply (Permutation_NoDup (Permutation_sym Hperm)); exact Hndi).
  assert (Hin : forall e, In e (train_set ++ val_set ++ test_set) <-> In e images).
  { intros e. split; intros He.
    - apply (Permutation_in _ Hperm He).
    - apply (Permutation_in _ (Permutation_sym Hperm) He). }
  assert (Hslash : forall set, incl set images ->
                               Forall (fun name => contains "/" name = false) set).
  { intros set Hset. apply Forall_forall. intros e He.
    rewrite Forall_forall in Hnames. apply Hnames, Hincl, Hset, He. }
  assert (Htrain : incl train_set images)
    by (intros e He; apply Hin, in_or_app; now left).
  assert (Hval : incl val_set images)
    by (intros e He; apply Hin, in_or_app; right; apply in_or_app; now left).
  assert (Htest : incl test_set images)
    by (intros e He; apply Hin, in_or_app; right; apply in_or_app; now right).
  pose proof (NoDup_app_remove_r _ _ Hparts) as Hndtrain.
  pose proof (NoDup_app_remove_l _ _ Hparts) as Hrest.
  pose proof (NoDup_app_remove_r _ _ Hrest) as Hndval.
  pose proof (NoDup_app_remove_l _ _ Hrest) as Hndtest.
  assert (Hdisj1 : forall e, In e train_set -> ~ In e (val_set ++ test_set)).
  { intros e He. now apply (nodup_app_apart _ _ e Hparts). }
  assert (Hdisj2 : forall e, In e val_set -> ~ In e test_set).
  { intros e He. now apply (nodup_app_apart _ _ e Hrest). }
  (* the directories are pairwise different *)
  assert (Hdiff : forall a b : string, a <> b ->
                    (data_dir ++ os_sep ++ a)%string <> (data_dir ++ os_sep ++ b)%string).
  { intros a b Hab Heq. apply append_cancel in Heq. apply append_cancel in Heq.
    contradiction. }
  exists train_set, val_set, test_set.
  unfold make_splits. cbv zeta.
  unfold Disk.bind at 1. unfold Disk.listdir at 1. rewrite Himg.
  unfold Disk.bind at 1. unfold Disk.listdir at 1. rewrite Hmask.
  unfold Disk.bind at 1. unfold Disk.lift. fold images. rewrite Hsel. cbn [fst snd].
  (* the three directories *)
  destruct (makedirs_empty disk (data_dir ++ os_sep ++ "train")%string)
    as [disk1 [Hrun1 [Hnew1 Hold1]]]; [apply Hdirs; simpl; auto|].
  destruct (makedirs_empty disk1 (data_dir ++ os_sep ++ "val")%string)
    as [disk2 [Hrun2 [Hnew2 Hold2]]].
  { rewrite Hold1 by (apply Hdiff; discriminate). apply Hdirs. simpl. auto. }
  destruct (makedirs_empty disk2 (data_dir ++ os_sep ++ "test")%string)
    as [disk3 [Hrun3 [Hnew3 Hold3]]].
  { rewrite Hold2, Hold1 by (apply Hdiff; discriminate). apply Hdirs. simpl. auto. }
  unfold Disk.bind at 1. cbn [Disk.for_each].
  unfold Disk.bind at 1. rewrite Hrun1.
  unfold Disk.bind at 1. rewrite Hrun2.
  unfold Disk.bind at 1. rewrite Hrun3. unfold Disk.ret at 1.
  (* training images *)
  destruct (move_files (data_dir ++ os_sep ++ "CXR_png")%string
              (data_dir ++ os_sep ++ "train")%string train_set
              (Hdiff "CXR_png"%string "train"%string ltac:(discriminate)) Hndtrain (Hslash _ Htrain)
              disk3 image_entries [])
    as [disk4 [Hrun4 [Hsrc4 [Hdst4 Hold4]]]].
  { rewrite Hold3, Hold2, Hold1 by (apply Hdiff; discriminate). exact Himg. }
  { rewrite Hold3, Hold2 by (apply Hdiff; discriminate). exact Hnew1. }
  { exact Hnd. }
  { intros e He. apply Hincl, Htrain, He. }
  { intros e _ []. }
  unfold Disk.bind at 1. rewrite Hrun4.
  (* validation images *)
  destruct (move_files (data_dir ++ os_sep ++ "CXR_png")%string
              (data_dir ++ os_sep ++ "val")%string val_set
              (Hdiff "CXR_png"%string "val"%string ltac:(discriminate)) Hndval (Hslash _ Hval)
              disk4 (filter (fun e => negb (existsb (String.eqb e) train_set)) image_entries) [])
    as [disk5 [Hrun5 [Hsrc5 [Hdst5 Hold5]]]].
  { exact Hsrc4. }
  { rewrite Hold4, Hold3 by (apply Hdiff; discriminate). exact Hnew2. }
  { now apply NoDup_filter. }
  { intros e He. apply filter_In. split; [apply Hincl, Hval, He|].
    apply not_listed. intros Ht. apply (Hdisj1 e Ht). apply in_or_app. now left. }
  { intros e _ []. }
  unfold Disk.bind at 1. rewrite Hrun5.
  (* test images *)
  destruct (move_files (data_dir ++ os_sep ++ "CXR_png")%string
              (data_dir ++ os_sep ++ "test")%string test_set
              (Hdiff "CXR_png"%string "test"%string ltac:(discriminate)) Hndtest (Hslash _ Htest)
              disk5
              (filter (fun e => negb (existsb (String.eqb e) val_set))
                      (filter (fun e => negb (existsb (String.eqb e) train_set))
                              image_entries)) [])
    as [disk6 [Hrun6 [Hsrc6 [Hdst6 Hold6]]]].
  { exact Hsrc5. }
  { rewrite Hold5, Hold4 by (apply Hdiff; discriminate). exact Hnew3. }
  { now apply NoDup_filter, NoDup_filter. }
  { intros e He. apply filter_In. split; [apply filter_In; split|].
    - apply Hincl, Htest, He.
    - apply not_listed. intros Ht. apply (Hdisj1 e Ht). apply in_or_app. now right.
    - apply not_listed. intros Hv. apply (Hdisj2 e Hv He). }
  { intros e _ []. }
  assert (Hleft : Disk.lookup disk6 (data_dir ++ os_sep ++ "CXR_png")
                  = Some (filter (fun e => negb (existsb (String.eqb e) images))
                                 image_entries)).
  { rewrite Hsrc6. f_equal. rewrite !filter_twice. apply filter_ext. intros e.
    assert (Hor : existsb (String.eqb e) images
                  = existsb (String.eqb e) train_set
                    || existsb (String.eqb e) val_set
                    || existsb (String.eqb e) test_set).
    { apply eq_true_iff_eq. rewrite !orb_true_iff, !existsb_name, <- Hin, !in_app_iff.
      tauto. }
    rewrite Hor.
    destruct (existsb (String.eqb e) train_set), (existsb (String.eqb e) val_set),
      (existsb (String.eqb e) test_set); reflexivity. }
  assert (Hmasks : Disk.lookup disk6 (data_dir ++ os_sep ++ "masks") = Some mask_entries).
  { rewrite Hold6, Hold5, Hold4, Hold3, Hold2, Hold1 by (apply Hdiff; discriminate).
    exact Hmask. }
  exists disk6. split; [reflexivity|]. split; [exact Hrun6|].
  split; [|split; [|split; [|split; [|split]]]].
  - rewrite Hold6, Hold5 by (apply Hdiff; discriminate). exact Hdst4.
  - rewrite Hold6 by (apply Hdiff; discriminate). exact Hdst5.
  - exact Hdst6.
  - exact Hleft.
  - exact Hmasks.
  - (* a second run finds no image with a mask *)
    unfold Disk.bind at 1. unfold Disk.listdir at 1. rewrite Hleft.
    unfold Disk.bind at 1. unfold Disk.listdir at 1. rewrite Hmasks.
    unfold Disk.bind at 1. unfold Disk.lift.
    rewrite select_splits_too_few; [reflexivity|].
    rewrite frame_of_png_entries.
    + rewrite filter_twice.
      replace (filter _ image_entries) with (@nil string); [simpl; lia|].
      symmetry. apply forallb_filter_nil. apply forallb_forall. intros e He.
      destruct (existsb (String.eqb (image_key e)) (map mask_key mask_entries)) eqn:Hhas;
        [|reflexivity].
      assert (Hrow : In e images) by (rewrite Hframe; apply filter_In; now split).
      apply existsb_name in Hrow. now rewrite Hrow.
    + apply Forall_forall. intros e He. apply filter_In in He. destruct He as [He _].
      rewrite Forall_forall in Hnames. now apply Hnames.
Qed.

End Splitting.

Lemma nodup_by_computation (l : list string) :
  nodup string_dec l = l -> NoDup l.
Proof. intros <-. apply NoDup_nodup. Qed.

Lemma forall_by_computation {A} (f : A -> bool) (P : A -> Prop) (l : list A) :
  (forall a, f a = true -> P a) -> forallb f l = true -> Forall P l.
Proof.
  intros Hf Hall. apply Forall_forall. intros a Ha. apply Hf.
  rewrite forallb_forall in Hall. now apply Hall.
Qed.

Lemma make_splits_moves_the_sets_witness :
  exists (train_set val_set test_set : list string) (disk' : Disk.fs),
    select_splits (images_with_masks ("other.png" :: Fixtures.files 566)%list (Fixtures.mask_files 566))
    = Ok (train_set, val_set, test_set)
    /\ make_splits "/d" Fixtures.disk566 = (Ok tt, disk')
    /\ Disk.lookup disk' "/d/train" = Some train_set
    /\ Disk.lookup disk' "/d/val" = Some val_set
    /\ Disk.lookup disk' "/d/test" = Some test_set
    /\ Disk.lookup disk' "/d/CXR_png"
       = Some (filter (fun e => negb (existsb (String.eqb e)
                                        (images_with_masks
                                           ("other.png" :: Fixtures.files 566)%list
                                           (Fixtures.mask_files 566))))
                      ("other.png" :: Fixtures.files 566)%list)
    /\ Disk.lookup disk' "/d/masks" = Some (Fixtures.mask_files 566)
    /\ make_splits "/d" disk'
       = (Raise (IndexError "positional indexers are out-of-bounds"), disk').
Proof.
  apply (make_splits_moves_the_sets "/d" Fixtures.disk566
           ("other.png" :: Fixtures.files 566)%list (Fixtures.mask_files 566)).
  - reflexivity.
  - reflexivity.
  - apply nodup_by_computation. vm_compute. reflexivity.
  - apply (forall_by_computation
             (fun e => negb (contains "/" e) && String.eqb (image_key e ++ ".png") e)).
    + intros e He. apply andb_true_iff in He. destruct He as [Hs He].
      apply negb_true_iff in Hs. apply String.eqb_eq in He. now split.
    + vm_compute. reflexivity.
  - intros split Hin. left. simpl in Hin.
    destruct Hin as [<-|[<-|[<-|[]]]]; reflexivity.
  - vm_compute. apply le_n.
Defined.

(** ** dinov2/eval/segmentation/utils.py: the decoders *)

(** X8.  When [setup_decoders] fails.  Without learning rates it raises
    [IndexError] whatever the decoder type (the ensemble reads the first
    decoder of an empty dictionary); with learning rates and a decoder type
    other than "linear" it raises [UnboundLocalError]: no decoder was
    constructed when [decoder.cuda()] is reached. *)
Theorem setup_decoders_failures (distributed_enabled : bool) (fresh embed_dim : nat)
  (learning_rates : list Q) (num_classes : nat) (decoder_type : string) (is_3d : bool) :
  (learning_rates = [] ->
   setup_decoders distributed_enabled fresh embed_dim learning_rates num_classes
                  decoder_type is_3d
   = Raise (IndexError "list index out of range"))
  /\ (learning_rates <> [] -> decoder_type <> "linear" ->
      setup_decoders distributed_enabled fresh embed_dim learning_rates num_classes
                     decoder_type is_3d
      = Raise (UnboundLocalError "decoder")).
Proof.
  split.
  - intros ->. reflexivity.
  - intros Hne Htype. destruct learning_rates as [|rate rest]; [contradiction|].
    unfold setup_decoders. simpl setup_loop.
    apply String.eqb_neq in Htype. rewrite Htype. reflexivity.
Qed.

Lemma setup_decoders_failures_witness :
  setup_decoders false 0 384 [] 14 "mlp" true
  = Raise (IndexError "list index out of range")
  /\ setup_decoders false 0 384 [(1 # 10)%Q] 14 "mlp" true
     = Raise (UnboundLocalError "decoder").
Proof.
  split.
  - apply (setup_decoders_failures false 0 384 [] 14 "mlp" true). reflexivity.
  - apply (setup_decoders_failures false 0 384 [(1 # 10)%Q] 14 "mlp" true);
      discriminate.
Defined.

Lemma replace_removes (a b : ascii) (s : string) :
  a <> b -> contains a (Py.replace a b s) = false.
Proof.
  intros Hab. induction s as [|c s IH]; simpl; [reflexivity|].
  rewrite IH, orb_false_r.
  destruct (Ascii.eqb_spec c a) as [->|Hc].
  - apply Ascii.eqb_neq. congruence.
  - now apply Ascii.eqb_neq.
Qed.

Lemma replace_app (a b : ascii) (s t : string) :
  Py.replace a b (s ++ t) = Py.replace a b s ++ Py.replace a b t.
Proof.
  induction s as [|c s IH]; simpl; [reflexivity|]. now rewrite IH.
Qed.

(** X9.  The key under which a decoder is stored never contains a dot: every
    dot of the decoder type and of the formatted rate is written as an
    underscore, and the text [":lr="] stands between the two. *)
Theorem decoder_key_has_no_dot (decoder_type : string) (rate : Q) :
  contains "." (decoder_key decoder_type rate) = false
  /\ decoder_key decoder_type rate
     = Py.replace "." "_" decoder_type ++ ":lr=" ++ Py.replace "." "_" (format_10f rate).
Proof.
  unfold decoder_key. split.
  - apply replace_removes. discriminate.
  - now rewrite !replace_app.
Qed.

Section LogitMaps.

Local Open Scope list_scope.

Context {F : Type} `{Torch F}.

(** X10.  [LinearDecoder.forward_] reads its input as token grids of
    [height x width x in_channels] values, whatever the input's own shape.
    An input holding [n] such grids gives logits of shape
    [n; num_classes; 448; 448], with as many elements; an input whose element
    count is no multiple of the grid size makes the [reshape] raise. *)
Theorem linear_decoder_logit_map (self : LinearDecoder.t) (e : tensor F) :
  backend_sound F ->
  LinearDecoder.conv_in (LinearDecoder.decoder self) = LinearDecoder.in_channels self ->
  (LinearDecoder.height self * LinearDecoder.width self
   * LinearDecoder.in_channels self <> 0)%nat ->
  (forall n : nat,
     List.length (data e)
     = (n * (LinearDecoder.height self * LinearDecoder.width self
             * LinearDecoder.in_channels self))%nat ->
     exists out,
       LinearDecoder.forward_ self e = Ok out
       /\ shape out = [n; LinearDecoder.conv_out (LinearDecoder.decoder self); 448; 448]%nat
       /\ wf out)
  /\ ((List.length (data e)) mod (LinearDecoder.height self * LinearDecoder.width self
                                  * LinearDecoder.in_channels self) <> 0%nat ->
      LinearDecoder.forward_ self e
      = Raise (RuntimeError "shape is invalid for input size")).
Proof.
  intros Hsound Hin Hper. split.
  - intros n Hlen.
    destruct (forward__shape self e n Hsound Hin Hper Hlen) as [out [Hrun [Hs Hl]]].
    exists out. split; [exact Hrun|]. split; [exact Hs|].
    unfold wf. rewrite Hs, Hl. unfold numel. cbn [fold_right]. lia.
  - intros Hmod. unfold LinearDecoder.forward_, reshape_m1.
    apply Nat.eqb_neq in Hper. rewrite Hper.
    apply Nat.eqb_neq in Hmod. rewrite Hmod. reflexivity.
Qed.

(** X13.  Vectorized 3D decoding ([vectorized=True]) of samples that each
    hold at least one embedding, the embeddings of a sample sharing one shape
    and holding one token grid each, returns for every sample logits of shape
    [slices; num_classes; 448; 448]: the slice axis is kept also for a sample
    with a single slice (where the slice-by-slice mode drops it). *)
Theorem vectorized_decoding_keeps_slice_axis (self : LinearDecoder.t)
  (embeddings : batch3d F) :
  backend_sound F ->
  LinearDecoder.conv_in (LinearDecoder.decoder self) = LinearDecoder.in_channels self ->
  (LinearDecoder.height self * LinearDecoder.width self
   * LinearDecoder.in_channels self <> 0)%nat ->
  Forall (fun sample =>
            sample <> []
            /\ exists s, Forall (fun e => shape e = s
                                          /\ List.length (data e)
                                             = (LinearDecoder.height self
                                                * LinearDecoder.width self
                                                * LinearDecoder.in_channels self)%nat)
                                sample)
         embeddings ->
  exists outs,
    LinearDecoder.forward_3d self embeddings true = Ok outs
    /\ Forall2 (fun sample out =>
                  shape out = [List.length sample;
                               LinearDecoder.conv_out (LinearDecoder.decoder self);
                               448; 448]%nat)
               embeddings outs.
Proof.
  intros Hsound Hin Hper Hall. unfold LinearDecoder.forward_3d.
  apply rmap_ok. intros sample Hsample. rewrite Forall_forall in Hall.
  destruct (Hall sample Hsample) as [Hne [s Hgrid]].
  rewrite (stack0_same_shape s); [|exact Hne|].
  2:{ eapply Forall_impl; [|exact Hgrid]. now intros e [Hs _]. }
  simpl rbind.
  destruct (forward__shape self
              (squeeze (Tensor.mk (List.length sample :: s) (concat (map data sample))))
              (List.length sample) Hsound Hin Hper) as [out [Hrun [Hs _]]].
  - cbn [squeeze data].
    rewrite (concat_lengths (LinearDecoder.height self * LinearDecoder.width self
                             * LinearDecoder.in_channels self)).
    + now rewrite length_map.
    + apply Forall_map. eapply Forall_impl; [|exact Hgrid]. now intros e [_ Hl].
  - exists out. split; [exact Hrun|exact Hs].
Qed.

End LogitMaps.

Lemma decoder_output_is_slice_sequence_witness :
  exists outs,
    LinearDecoder.forward_3d Fixtures.decoder3d
      [[Fixtures.slice 1 2; Fixtures.slice 3 4];
       [Fixtures.slice 5 6; Fixtures.slice 7 8; Fixtures.slice 9 0]] false = Ok outs
    /\ uniform [3; 448; 448]%nat outs
    /\ map lead outs = [2; 3]%nat.
Proof.
  apply (decoder_output_is_slice_sequence Fixtures.decoder3d
           [[Fixtures.slice 1 2; Fixtures.slice 3 4];
            [Fixtures.slice 5 6; Fixtures.slice 7 8; Fixtures.slice 9 0]]).
  - exact toy_backend_sound.
  - reflexivity.
  - simpl. lia.
  - discriminate.
  - repeat constructor; simpl; lia.
Defined.

Lemma decoder_output_of_single_slice_witness :
  exists out,
    LinearDecoder.forward_3d Fixtures.decoder3d [[Fixtures.slice 1 2]] false = Ok [out]
    /\ shape out = [3; 448; 448]%nat.
Proof.
  apply (decoder_output_of_single_slice Fixtures.decoder3d (Fixtures.slice 1 2)).
  - exact toy_backend_sound.
  - reflexivity.
  - simpl. lia.
  - discriminate.
  - reflexivity.
Defined.

Lemma linear_decoder_logit_map_witness :
  exists out,
    LinearDecoder.forward_ Fixtures.decoder3d (Tensor.mk [2; 2; 1]%nat [1; 2; 3; 4]%Z) = Ok out
    /\ shape out = [2; 3; 448; 448]%nat
    /\ wf out.
Proof.
  destruct (linear_decoder_logit_map Fixtures.decoder3d (Tensor.mk [2; 2; 1]%nat [1; 2; 3; 4]%Z))
    as [Hok _].
  - exact toy_backend_sound.
  - reflexivity.
  - discriminate.
  - apply (Hok 2%nat). reflexivity.
Defined.

Lemma vectorized_decoding_keeps_slice_axis_witness :
  exists outs,
    LinearDecoder.forward_3d Fixtures.decoder3d
      [[Fixtures.slice 1 2]; [Fixtures.slice 5 6; Fixtures.slice 7 8]] true = Ok outs
    /\ Forall2 (fun sample out => shape out = [List.length sample; 3; 448; 448]%nat)
               [[Fixtures.slice 1 2]; [Fixtures.slice 5 6; Fixtures.slice 7 8]] outs.
Proof.
  apply (vectorized_decoding_keeps_slice_axis Fixtures.decoder3d
           [[Fixtures.slice 1 2]; [Fixtures.slice 5 6; Fixtures.slice 7 8]]).
  - exact toy_backend_sound.
  - reflexivity.
  - discriminate.
  - repeat constructor; try discriminate; exists [1; 2]%nat; repeat constructor.
Defined.



Lemma rmap_forall2 {A B} (f : A -> result B) (xs : list A) (ys : list B) :
  Forall2 (fun x y => f x = Ok y) xs ys -> rmap f xs = Ok ys.
Proof.
  induction 1 as [|x y xs ys Hxy _ IH]; simpl; [reflexivity|].
  now rewrite Hxy, IH.
Qed.

Lemma keys_combine {V} (ks : list string) (vs : list V) :
  List.length ks = List.length vs -> keys (combine ks vs) = ks.
Proof.
  revert vs. induction ks as [|k ks IH]; intros [|v vs] Hlen; try discriminate.
  - reflexivity.
  - simpl. f_equal. apply IH. simpl in Hlen. lia.
Qed.

Section Ensemble.

Local Open Scope list_scope.

Context {F : Type} `{Torch F}.

(** The decoders of an ensemble with distinct keys, all returning. *)
Lemma ensemble_forward (self : AllDecoders.t) (inputs : batch F) (outs : list (value F)) :
  NoDup (keys (AllDecoders.decoders_dict self)) ->
  Forall2 (fun kv out => LinearDecoder.forward (snd kv) inputs = Ok out)
          (AllDecoders.decoders_dict self) outs ->
  AllDecoders.forward self inputs
  = Ok (combine (keys (AllDecoders.decoders_dict self)) outs).
Proof.
  intros Hnd Houts. unfold AllDecoders.forward.
  set (own := AllDecoders.decoders_dict self) in *.
  rewrite (rmap_forall2 _ own (combine (keys own) outs)).
  - simpl rbind. rewrite dict_update_fresh; [reflexivity|].
    simpl. rewrite keys_combine; [exact Hnd|].
    unfold keys. rewrite length_map. exact (Forall2_length Houts).
  - clear Hnd. induction Houts as [|kv out own' outs' Hkv _ IH]; simpl; constructor.
    + now rewrite Hkv.
    + exact IH.
Qed.


End Ensemble.


(** ** The sweep applied *)

Section SweepApplied.

Local Open Scope list_scope.

Context {F : Type} `{Torch F}.

Lemma values_dict_set {V} (P : V -> Prop) (d : dict V) (k : string) (v : V) :
  Forall P (values d) -> P v -> Forall P (values (dict_set d k v)).
Proof.
  intros Hd Hv. induction d as [|[k' v'] d IH]; simpl.
  - now constructor.
  - simpl in Hd. destruct (String.eqb k' k); simpl.
    + constructor; [exact Hv|now apply Forall_inv_tail in Hd].
    + constructor; [now apply Forall_inv in Hd|]. apply IH. now apply Forall_inv_tail in Hd.
Qed.

(** Every decoder the loop stores is a [LinearDecoder] over 32 x 32 token
    grids of [embed_dim] channels with [num_classes] outputs. *)
Lemma setup_loop_decoders (embed_dim num_classes : nat) (is_3d : bool)
  (learning_rates : list Q) :
  forall (fresh : nat) (d d' : dict LinearDecoder.t) (g g' : list param_group),
    setup_loop embed_dim num_classes "linear" is_3d learning_rates fresh d g = Ok (d', g') ->
    Forall (fun dec => exists i, dec = LinearDecoder.__init__ i embed_dim 32 32 num_classes is_3d)
           (values d) ->
    Forall (fun dec => exists i, dec = LinearDecoder.__init__ i embed_dim 32 32 num_classes is_3d)
           (values d').
Proof.
  induction learning_rates as [|rate rest IH]; intros fresh d d' g g' Hrun Hd.
  - simpl in Hrun. inversion Hrun. now subst.
  - simpl in Hrun. eapply IH; [exact Hrun|].
    apply values_dict_set; [exact Hd|]. now exists fresh.
Qed.

(** X26.  The sweep applied to a 2D batch.  For a non-empty list of learning
    rates and embeddings holding [n] grids of 32 x 32 tokens of [embed_dim]
    channels, the ensemble returned by [setup_decoders] (2D, decoder type
    "linear") answers with one entry per decoder, under the decoder's key
    and in the ensemble's order, each a logit tensor of shape
    [n; num_classes; 448; 448]. *)
Theorem sweep_decodes_a_batch (distributed_enabled : bool) (fresh embed_dim : nat)
  (learning_rates : list Q) (num_classes : nat) (e : tensor F) (n : nat) :
  backend_sound F ->
  learning_rates <> [] -> embed_dim <> 0%nat ->
  List.length (data e) = (n * (32 * 32 * embed_dim))%nat ->
  exists (all : decoders) (groups : list param_group) (outs : dict (value F)),
    setup_decoders distributed_enabled fresh embed_dim learning_rates num_classes
                   "linear" false = Ok (all, groups)
    /\ AllDecoders.forward (ensemble all) (Batch2d e) = Ok outs
    /\ keys outs = keys (AllDecoders.decoders_dict (ensemble all))
    /\ Forall (fun kv => exists t, snd kv = VTensor t
                                   /\ shape t = [n; num_classes; 448; 448]%nat
                                   /\ wf t)
              outs.
Proof.
  intros Hsound Hne Hdim Hlen.
  destruct (setup_loop_linear embed_dim num_classes false learning_rates fresh [] [])
    as [d' [g' [Hrun [_ [Hnd [_ [Hnil _]]]]]]].
  specialize (Hnd (NoDup_nil _)). specialize (Hnil Hne).
  pose proof (setup_loop_decoders embed_dim num_classes false learning_rates fresh
                [] d' [] g' Hrun (Forall_nil _)) as Hdecs.
  assert (Hown : dict_update [] d' = d') by (apply dict_update_fresh; exact Hnd).
  set (all := {| AllDecoders.decoders_dict := d';
                 AllDecoders.decoder_type := LinearDecoder.DECODER_TYPE |}).
  assert (Hinit : AllDecoders.__init__ d' = Ok all).
  { unfold AllDecoders.__init__. rewrite Hown.
    destruct d' as [|kv d']; [contradiction|]. reflexivity. }
  assert (Heach : forall dec, In dec (values d') ->
            exists t, LinearDecoder.forward dec (Batch2d e) = Ok (VTensor t)
                      /\ shape t = [n; num_classes; 448; 448]%nat /\ wf t).
  { intros dec Hdec. rewrite Forall_forall in Hdecs.
    destruct (Hdecs dec Hdec) as [i ->].
    destruct (forward__shape (LinearDecoder.__init__ i embed_dim 32 32 num_classes false)
                e n Hsound eq_refl) as [t [Ht [Hs Hl]]].
    - simpl. lia.
    - exact Hlen.
    - exists t. unfold LinearDecoder.forward. cbn [LinearDecoder.is_3d LinearDecoder.__init__].
      rewrite Ht. split; [reflexivity|]. split; [exact Hs|].
      unfold wf. rewrite Hs, Hl. unfold numel. cbn [fold_right LinearDecoder.conv_out
        LinearDecoder.decoder LinearDecoder.__init__]. lia. }
  assert (Houts : exists outs : list (value F),
            Forall2 (fun kv out => LinearDecoder.forward (snd kv) (Batch2d e) = Ok out) d' outs
            /\ Forall (fun out => exists t, out = VTensor t
                                            /\ shape t = [n; num_classes; 448; 448]%nat
                                            /\ wf t) outs).
  { clear - Heach. induction d' as [|[k dec] d' IH].
    - exists []. split; constructor.
    - destruct (Heach dec) as [t [Ht Hshape]]; [now left|].
      destruct IH as [outs [Hrun Hall]].
      + intros dec' Hin. apply Heach. now right.
      + exists (VTensor t :: outs). split; constructor; try assumption.
        now exists t. }
  destruct Houts as [outs [Houts Hshapes]].
  exists (if distributed_enabled then DistributedDataParallel all else Plain all), g',
         (combine (keys d') outs).
  assert (Hens : ensemble (if distributed_enabled then DistributedDataParallel all
                           else Plain all) = all)
    by (destruct distributed_enabled; reflexivity).
  rewrite Hens. cbn [AllDecoders.decoders_dict all].
  assert (Hcount : List.length (keys d') = List.length outs).
  { unfold keys. rewrite length_map. exact (Forall2_length Houts). }
  split; [|split; [|split]].
  - unfold setup_decoders. rewrite Hrun. simpl rbind. rewrite Hinit. reflexivity.
  - now apply (ensemble_forward all).
  - now apply keys_combine.
  - apply Forall_forall. intros [k out] Hin. apply in_combine_r in Hin.
    rewrite Forall_forall in Hshapes. exact (Hshapes out Hin).
Qed.

End SweepApplied.

Lemma sweep_decodes_a_batch_witness :
  exists (all : decoders) (groups : list param_group) (outs : dict (value Z)),
    setup_decoders false 0 1 [(1 # 10)%Q; (1 # 100)%Q] 3 "linear" false = Ok (all, groups)
    /\ AllDecoders.forward (ensemble all)
         (Batch2d (Tensor.mk [2; 1024; 1]%nat (repeat 0%Z 2048))) = Ok outs
    /\ keys outs = keys (AllDecoders.decoders_dict (ensemble all))
    /\ Forall (fun kv => exists t, snd kv = VTensor t
                                   /\ shape t = [2; 3; 448; 448]%nat
                                   /\ wf t)
              outs.
Proof.
  apply (sweep_decodes_a_batch false 0 1 [(1 # 10)%Q; (1 # 100)%Q] 3
           (Tensor.mk [2; 1024; 1]%nat (repeat 0%Z 2048)) 2).
  - exact toy_backend_sound.
  - discriminate.
  - discriminate.
  - cbn [data]. rewrite repeat_length. reflexivity.
Defined.

(** ** Predictions *)

Section Columns.

Local Open Scope list_scope.

Context {A : Type}.

Lemma zip_cons_columns (m : nat) (xs : list A) (acc : list (list A)) :
  Forall (fun col => List.length col = m) acc ->
  Forall (fun col => List.length col = S m) (zip_cons xs acc).
Proof.
  intros Hacc. unfold zip_cons. apply Forall_map.
  apply Forall_forall. intros [x col] Hin. simpl.
  apply in_combine_r in Hin. rewrite Forall_forall in Hacc. now rewrite (Hacc col Hin).
Qed.

Lemma transpose_columns (n : nat) (xss : list (list A)) :
  Forall (fun col => List.length col = List.length xss) (transpose n xss).
Proof.
  unfold transpose. induction xss as [|xs xss IH]; simpl.
  - apply Forall_forall. intros col Hin. apply repeat_spec in Hin. now subst.
  - now apply zip_cons_columns.
Qed.

End Columns.

Section Predictions.

Local Open Scope list_scope.

Context {S F L : Type} `{Torch F} `{Int64Cast L}.

Lemma argmax_from_bound (l : list F) (best : F) (besti i : nat) :
  (besti < i)%nat -> (argmax_from best besti i l < i + List.length l)%nat.
Proof.
  revert best besti i. induction l as [|x l IH]; intros best besti i Hlt; simpl.
  - lia.
  - destruct (lt best x).
    + specialize (IH x i (Datatypes.S i)). lia.
    + specialize (IH best besti (Datatypes.S i)). lia.
Qed.

Lemma argmax_list_bound (l : list F) :
  l <> [] -> (0 <= argmax_list l < Z.of_nat (List.length l))%Z.
Proof.
  destruct l as [|x l]; [contradiction|]. intros _. unfold argmax_list.
  pose proof (argmax_from_bound l x 0 1). simpl List.length. lia.
Qed.

Lemma slice_argmax_bound (c : nat) (sp : list nat) (blk : list F) :
  c <> 0%nat ->
  Forall (fun p => (0 <= p < Z.of_nat c)%Z) (slice_argmax c sp blk).
Proof.
  intros Hc. unfold slice_argmax. apply Forall_map.
  pose proof (transpose_columns (numel sp) (chunks (numel sp) c blk)) as Hcols.
  rewrite chunks_length in Hcols.
  eapply Forall_impl; [|exact Hcols]. intros col Hlen. simpl in Hlen.
  rewrite <- Hlen. apply argmax_list_bound. destruct col; [simpl in Hlen; lia|discriminate].
Qed.

Lemma argmax1_classes (t : tensor F) (n c : nat) (rest : list nat) :
  shape t = n :: c :: rest -> wf t -> c <> 0%nat ->
  exists preds,
    argmax1 t = Ok preds
    /\ shape preds = n :: rest /\ wf preds
    /\ Forall (fun p => (0 <= p < Z.of_nat c)%Z) (data preds).
Proof.
  intros Hs Hwf Hc. unfold argmax1. rewrite Hs.
  apply Nat.eqb_neq in Hc. rewrite Hc. apply Nat.eqb_neq in Hc.
  eexists. split; [reflexivity|]. split; [reflexivity|].
  unfold wf in *. rewrite Hs in Hwf. cbn [shape data]. fold (slice_argmax c rest).
  assert (Hlen : List.length (data t) = (n * (c * numel rest))%nat).
  { rewrite Hwf. unfold numel. cbn [fold_right]. lia. }
  pose proof (chunks_sizes (c * numel rest) n (data t) Hlen) as Hsizes.
  split.
  - rewrite (concat_lengths (numel rest)).
    + rewrite length_map, chunks_length. unfold numel. cbn [fold_right]. reflexivity.
    + apply Forall_map. eapply Forall_impl; [|exact Hsizes].
      intros blk Hblk. simpl in Hblk. now apply slice_argmax_length.
  - apply Forall_concat. apply Forall_map. apply Forall_forall.
    intros blk _. now apply slice_argmax_bound.
Qed.

(** X15.  [LinearPostprocessor.forward] on 2D output.  When the decoder
    returns a single logit tensor of shape [n; c; rest...], the predictions
    have shape [n; rest...], one per position, and every prediction is a
    class index in [0, c); the targets are returned cast to int64 with their
    own shape.  With [c = 0] the [argmax] raises [IndexError]. *)
Theorem postprocessor_predicts_class_indices (self : LinearPostprocessor.t S F)
  (samples : S) (logits : tensor F) (targets : tensor L) (n c : nat) (rest : list nat) :
  LinearPostprocessor.decoder self samples = Ok (VTensor logits) ->
  shape logits = n :: c :: rest -> wf logits ->
  (c = 0%nat ->
   LinearPostprocessor.forward self samples (VTensor targets)
   = Raise (IndexError "argmax(): Expected reduction dim 1 to have non-zero size"))
  /\ (c <> 0%nat ->
      exists preds,
        LinearPostprocessor.forward self samples (VTensor targets)
        = Ok {| LinearPostprocessor.preds := preds;
                LinearPostprocessor.target :=
                  Tensor.mk (shape targets) (map to_int64 (data targets)) |}
        /\ shape preds = n :: rest /\ wf preds
        /\ Forall (fun p => (0 <= p < Z.of_nat c)%Z) (data preds)).
Proof.
  intros Hdec Hs Hwf. unfold LinearPostprocessor.forward. rewrite Hdec. simpl rbind.
  cbn [fst snd]. split.
  - intros ->. unfold argmax1. rewrite Hs. reflexivity.
  - intros Hc. destruct (argmax1_classes logits n c rest Hs Hwf Hc)
      as [preds [Hrun [Hshape [Hwfp Hrange]]]].
    exists preds. rewrite Hrun. simpl rbind. auto.
Qed.

End Predictions.

Lemma postprocessor_predicts_class_indices_witness :
  exists preds,
    LinearPostprocessor.forward
      {| LinearPostprocessor.decoder :=
           fun x : tensor Z => Ok (VTensor x) |}
      (Tensor.mk [1; 3; 2]%nat [5; 1; 7; 2; 7; 9]%Z)
      (VTensor (Tensor.mk [1; 2]%nat [1; 2]%Z))
    = Ok {| LinearPostprocessor.preds := preds;
            LinearPostprocessor.target := Tensor.mk [1; 2]%nat (map to_int64 [1; 2]%Z) |}
    /\ shape preds = [1; 2]%nat /\ wf preds
    /\ Forall (fun p => (0 <= p < 3)%Z) (data preds).
Proof.
  destruct (postprocessor_predicts_class_indices
              {| LinearPostprocessor.decoder := fun x : tensor Z => Ok (VTensor x) |}
              (Tensor.mk [1; 3; 2]%nat [5; 1; 7; 2; 7; 9]%Z)
              (Tensor.mk [1; 3; 2]%nat [5; 1; 7; 2; 7; 9]%Z)
              (Tensor.mk [1; 2]%nat [1; 2]%Z) 1 3 [2%nat]
              eq_refl eq_refl eq_refl) as [_ Hok].
  apply Hok. discriminate.
Defined.

(** ** From a volumetric batch to predictions *)

Section Pipeline.

Local Open Scope list_scope.

Context {F L : Type} `{Torch F} `{Int64Cast L}.

Lemma sum_of_leads {A B} (n : A -> nat) (xs : list A) (ts : list (tensor B))
  (rest : list nat) :
  Forall2 (fun x t => shape t = n x :: rest /\ wf t) xs ts ->
  uniform rest ts
  /\ fold_right Nat.add 0%nat (map lead ts) = fold_right Nat.add 0%nat (map n xs).
Proof.
  induction 1 as [|x t xs ts [Hs Hwf] _ [IHu IHl]]; simpl.
  - split; [constructor|reflexivity].
  - assert (Hlead : lead t = n x) by (unfold lead; now rewrite Hs).
    split.
    + constructor; [|exact IHu]. split; [now rewrite Hlead|exact Hwf].
    + now rewrite Hlead, IHl.
Qed.

Lemma forall2_in {A B} (P : A -> B -> Prop) (xs : list A) (ys : list B) (x : A) :
  Forall2 P xs ys -> In x xs -> exists y, In y ys /\ P x y.
Proof.
  induction 1 as [|a b xs ys Hab _ IH]; intros Hin; [contradiction|].
  destruct Hin as [->|Hin].
  - exists b. split; [now left|exact Hab].
  - destruct (IH Hin) as [y [Hy HP]]. exists y. split; [now right|exact HP].
Qed.

Lemma uniform_cat_wf {A} (rest : list nat) (ts : list (tensor A)) :
  uniform rest ts ->
  List.length (concat (map data ts))
  = (fold_right Nat.add 0%nat (map lead ts) * numel rest)%nat.
Proof.
  induction 1 as [|t ts [Hs Hwf] _ IH]; cbn [map concat fold_right]; [reflexivity|].
  rewrite length_app, (uniform_data_length _ _ Hs Hwf), IH. lia.
Qed.

Lemma sum_of_lengths {A} (xss : list (list A)) :
  fold_right Nat.add 0%nat (map (@List.length A) xss) = List.length (concat xss).
Proof.
  induction xss as [|xs xss IH]; simpl; [reflexivity|]. now rewrite length_app, IH.
Qed.

(** X27.  From a volumetric batch to predictions.  Let every sample keep at
    least two slices that are not all zero, let the backbone return one token
    grid per slice and the decoder have at least two classes, and let the
    targets hold one 448 x 448 map per retained slice.  Then the 3D encoder
    returns one embedding per retained slice, and the postprocessor over the
    3D linear decoder returns predictions and targets of shape
    [retained slices of the whole batch; 448; 448], every prediction a class
    index below the number of classes. *)
Theorem volumes_to_predictions (enc : DINOV2Encoder.t F) (dec : LinearDecoder.t)
  (tokens : tensor F -> tensor F) (x : batch3d F) (ts : list (tensor L))
  (tr : list (tensor F)) :
  backend_sound F ->
  DINOV2Encoder.is_3d enc = true -> LinearDecoder.is_3d dec = true ->
  (forall y, dict_get (DINOV2Encoder.encoder enc y) "x_norm_patchtokens" = Ok (tokens y)) ->
  Forall (fun s => List.length (data (tokens (unsqueeze0 s)))
                    = (LinearDecoder.height dec * LinearDecoder.width dec
                       * LinearDecoder.in_channels dec)%nat)
         (concat (non_empty_slices x)) ->
  LinearDecoder.conv_in (LinearDecoder.decoder dec) = LinearDecoder.in_channels dec ->
  (2 <= LinearDecoder.conv_out (LinearDecoder.decoder dec))%nat ->
  (LinearDecoder.height dec * LinearDecoder.width dec
   * LinearDecoder.in_channels dec <> 0)%nat ->
  x <> [] ->
  Forall2 (fun sample t =>
             (2 <= List.length (filter non_empty sample))%nat
             /\ shape t = [List.length (filter non_empty sample); 448; 448]%nat
             /\ wf t)
          x ts ->
  exists (features : batch3d F) (out : LinearPostprocessor.output),
    DINOV2Encoder.forward enc (Batch3d x) tr
    = (Ok (Batch3d features), tr ++ map unsqueeze0 (concat (non_empty_slices x)))
    /\ map (@List.length (tensor F)) features
       = map (@List.length (tensor F)) (non_empty_slices x)
    /\ LinearPostprocessor.forward
         {| LinearPostprocessor.decoder := LinearDecoder.forward dec |}
         (Batch3d features) (VList ts) = Ok out
    /\ shape (LinearPostprocessor.preds out)
       = [List.length (concat (non_empty_slices x)); 448; 448]%nat
    /\ shape (LinearPostprocessor.target out)
       = [List.length (concat (non_empty_slices x)); 448; 448]%nat
    /\ wf (LinearPostprocessor.preds out)
    /\ Forall (fun p => (0 <= p < Z.of_nat (LinearDecoder.conv_out
                                              (LinearDecoder.decoder dec)))%Z)
              (data (LinearPostprocessor.preds out)).
Proof.
  intros Hsound Henc Hdec Htok Hgrid Hin Hk Hper Hne Hts.
  set (k := LinearDecoder.conv_out (LinearDecoder.decoder dec)) in *.
  set (features := map (map (fun s => tokens (unsqueeze0 s))) (non_empty_slices x)).
  exists features.
  assert (Hrun : DINOV2Encoder.forward enc (Batch3d x) tr
                 = (Ok (Batch3d features),
                    tr ++ map unsqueeze0 (concat (non_empty_slices x)))).
  { unfold DINOV2Encoder.forward. rewrite Henc. unfold bind at 1. unfold lift.
    cbn [volumes]. unfold bind at 1.
    now rewrite (forward_3d_tokens enc tokens x tr Htok). }
  assert (Hcounts : map (@List.length (tensor F)) features
                    = map (@List.length (tensor F)) (non_empty_slices x)).
  { unfold features. rewrite map_map. apply map_ext. intros sample. apply length_map. }
  destruct (slice_by_slice_decoding dec features Hsound Hin Hk Hper)
    as [outs [Hdecode Houts]].
  { unfold features, non_empty_slices. rewrite map_map. apply Forall_map.
    apply Forall_forall. intros sample Hsample. rewrite length_map. split.
    - destruct (forall2_in _ _ _ _ Hts Hsample) as [t [_ [Htwo _]]]. exact Htwo.
    - apply Forall_map. apply Forall_forall. intros s Hs.
      rewrite Forall_forall in Hgrid. apply Hgrid. apply in_concat.
      exists (filter non_empty sample). split; [|exact Hs].
      unfold non_empty_slices. now apply in_map. }
  assert (Hlogits : Forall2 (fun (sample : list (tensor F)) (out : tensor F) =>
                               shape out = List.length (filter non_empty sample)
                                           :: [k; 448; 448]%nat /\ wf out) x outs).
  { unfold features, non_empty_slices in Houts. rewrite map_map in Houts.
    clear - Houts. remember (map _ x) as fs eqn:Hfs. revert x Hfs.
    induction Houts as [|f out fs outs [Hs Hwf] _ IH]; intros x Hfs.
    - destruct x; [constructor|discriminate].
    - destruct x as [|sample x]; [discriminate|]. simpl in Hfs. inversion Hfs; subst.
      constructor; [|now apply IH]. rewrite length_map in Hs. now split. }
  destruct (sum_of_leads (fun sample : list (tensor F) =>
                            List.length (filter non_empty sample))
              x outs [k; 448; 448]%nat Hlogits) as [Hu Hsum].
  destruct (sum_of_leads (fun sample : list (tensor F) =>
                            List.length (filter non_empty sample))
              x ts [448; 448]%nat) as [Hut Hsumt].
  { eapply Forall2_impl; [|exact Hts]. intros sample t [_ Hrest]. exact Hrest. }
  assert (Htotal : fold_right Nat.add 0%nat
                     (map (fun sample : list (tensor F) =>
                             List.length (filter non_empty sample)) x)
                   = List.length (concat (non_empty_slices x))).
  { rewrite <- sum_of_lengths. unfold non_empty_slices. now rewrite map_map. }
  rewrite Htotal in Hsum, Hsumt.
  assert (Houtsne : outs <> []).
  { intros ->. inversion Hlogits; subst. contradiction. }
  assert (Htsne : ts <> []).
  { intros ->. inversion Hts; subst. contradiction. }
  pose proof (cat0_uniform _ outs Houtsne Hu) as Hcat. rewrite Hsum in Hcat.
  pose proof (cat0_uniform _ ts Htsne Hut) as Hcatt. rewrite Hsumt in Hcatt.
  set (total := List.length (concat (non_empty_slices x))) in *.
  destruct (argmax1_classes
              (Tensor.mk (total :: [k; 448; 448]%nat) (concat (map data outs)))
              total k [448; 448]%nat eq_refl)
    as [preds [Hpreds [Hshape [Hwf Hrange]]]].
  { unfold wf. cbn [shape data]. rewrite (uniform_cat_wf _ _ Hu), Hsum.
    reflexivity. }
  { subst k. lia. }
  eexists. split; [exact Hrun|]. split; [exact Hcounts|].
  unfold LinearPostprocessor.forward. cbn [LinearPostprocessor.decoder].
  unfold LinearDecoder.forward. rewrite Hdec. cbn [volumes]. simpl rbind.
  rewrite Hdecode. simpl rbind. rewrite Hcat. simpl rbind. rewrite Hcatt. simpl rbind.
  cbn [fst snd]. rewrite Hpreds. simpl rbind.
  split; [reflexivity|]. cbn [LinearPostprocessor.preds LinearPostprocessor.target shape].
  split; [exact Hshape|]. split; [reflexivity|]. split; [exact Hwf|exact Hrange].
Qed.

End Pipeline.

Lemma volumes_to_predictions_witness :
  exists (features : batch3d Z) (out : LinearPostprocessor.output),
    DINOV2Encoder.forward Fixtures.identity_encoder (Batch3d Fixtures.five_slices) []
    = (Ok (Batch3d features),
       [] ++ map unsqueeze0 (concat (non_empty_slices Fixtures.five_slices)))%list
    /\ map (@List.length (tensor Z)) features
       = map (@List.length (tensor Z)) (non_empty_slices Fixtures.five_slices)
    /\ LinearPostprocessor.forward
         {| LinearPostprocessor.decoder := LinearDecoder.forward Fixtures.decoder3d |}
         (Batch3d features)
         (VList [Tensor.mk [3; 448; 448]%nat (repeat 0%Z (numel [3; 448; 448]%nat))])
       = Ok out
    /\ shape (LinearPostprocessor.preds out)
       = [List.length (concat (non_empty_slices Fixtures.five_slices)); 448; 448]%nat
    /\ shape (LinearPostprocessor.target out)
       = [List.length (concat (non_empty_slices Fixtures.five_slices)); 448; 448]%nat
    /\ wf (LinearPostprocessor.preds out)
    /\ Forall (fun p => (0 <= p < Z.of_nat (LinearDecoder.conv_out
                                              (LinearDecoder.decoder Fixtures.decoder3d)))%Z)
              (data (LinearPostprocessor.preds out)).
Proof.
  apply (volumes_to_predictions Fixtures.identity_encoder Fixtures.decoder3d
           (fun y : tensor Z => y) Fixtures.five_slices
           [Tensor.mk [3; 448; 448]%nat (repeat 0%Z (numel [3; 448; 448]%nat))] []).
  - exact toy_backend_sound.
  - reflexivity.
  - reflexivity.
  - intros y. reflexivity.
  - repeat constructor.
  - reflexivity.
  - simpl. lia.
  - discriminate.
  - discriminate.
  - constructor; [|constructor]. split; [simpl; lia|]. split; [reflexivity|].
    unfold wf. cbn [data shape]. apply repeat_length.
Defined.

(** ** Samples that keep a single slice *)

Section SingleSlices.

Local Open Scope list_scope.

Context {F L : Type} `{Torch F} `{Int64Cast L}.

(** Non-vectorized 3D decoding of samples that hold one embedding each. *)
Lemma single_slice_decoding (self : LinearDecoder.t) (embeddings : batch3d F) :
  backend_sound F ->
  LinearDecoder.conv_in (LinearDecoder.decoder self) = LinearDecoder.in_channels self ->
  (2 <= LinearDecoder.conv_out (LinearDecoder.decoder self))%nat ->
  (LinearDecoder.height self * LinearDecoder.width self
   * LinearDecoder.in_channels self <> 0)%nat ->
  Forall (fun sample =>
            exists e, sample = [e]
                      /\ List.length (data e)
                         = (LinearDecoder.height self * LinearDecoder.width self
                            * LinearDecoder.in_channels self)%nat)
         embeddings ->
  exists outs,
    LinearDecoder.forward_3d self embeddings false = Ok outs
    /\ Forall2 (fun (sample : list (tensor F)) (out : tensor F) =>
                  shape out = [LinearDecoder.conv_out (LinearDecoder.decoder self);
                               448; 448]%nat
                  /\ wf out)
               embeddings outs.
Proof.
  intros Hsound Hin Hk Hper Hall.
  set (k := LinearDecoder.conv_out (LinearDecoder.decoder self)) in *.
  unfold LinearDecoder.forward_3d. apply rmap_ok.
  intros sample Hsample. rewrite Forall_forall in Hall.
  destruct (Hall sample Hsample) as [e [-> Hlen]].
  destruct (forward__shape self e 1 Hsound Hin Hper) as [map1 [Hrun [Hs Hl]]]; [lia|].
  simpl rmap. rewrite Hrun. simpl rbind.
  unfold stack0. simpl forallb. cbv iota. simpl rbind.
  eexists. split; [reflexivity|].
  unfold squeeze, wf. cbn [shape data List.length map concat]. rewrite Hs. cbn [filter].
  rewrite Nat.eqb_refl. fold k.
  replace (k =? 1)%nat with false by (symmetry; apply Nat.eqb_neq; lia).
  cbn [negb Nat.eqb]. split; [reflexivity|].
  rewrite app_nil_r, Hl. fold k. unfold numel. cbn [fold_right]. lia.
Qed.

(** X28.  A 3D batch in which every sample keeps exactly one slice.  The
    decoder's outputs have lost their slice dimension, so the postprocessor
    concatenates them along the class dimension and takes the argmax over the
    image height.  Nothing raises: the predictions have shape
    [samples * num_classes; 448] and are row numbers below 448, not class
    indices per pixel. *)
Theorem single_slice_batch_is_misread (dec : LinearDecoder.t) (embeddings : batch3d F)
  (ts : list (tensor L)) (rest : list nat) :
  backend_sound F ->
  LinearDecoder.is_3d dec = true ->
  LinearDecoder.conv_in (LinearDecoder.decoder dec) = LinearDecoder.in_channels dec ->
  (2 <= LinearDecoder.conv_out (LinearDecoder.decoder dec))%nat ->
  (LinearDecoder.height dec * LinearDecoder.width dec
   * LinearDecoder.in_channels dec <> 0)%nat ->
  embeddings <> [] ->
  Forall (fun sample =>
            exists e, sample = [e]
                      /\ List.length (data e)
                         = (LinearDecoder.height dec * LinearDecoder.width dec
                            * LinearDecoder.in_channels dec)%nat)
         embeddings ->
  ts <> [] -> uniform rest ts ->
  exists out : LinearPostprocessor.output,
    LinearPostprocessor.forward
      {| LinearPostprocessor.decoder := LinearDecoder.forward dec |}
      (Batch3d embeddings) (VList ts) = Ok out
    /\ shape (LinearPostprocessor.preds out)
       = [(List.length embeddings
           * LinearDecoder.conv_out (LinearDecoder.decoder dec))%nat; 448%nat]
    /\ Forall (fun p => (0 <= p < 448)%Z) (data (LinearPostprocessor.preds out)).
Proof.
  intros Hsound Hdec Hin Hk Hper Hne Hall Htsne Hut.
  set (k := LinearDecoder.conv_out (LinearDecoder.decoder dec)) in *.
  destruct (single_slice_decoding dec embeddings Hsound Hin Hk Hper Hall)
    as [outs [Hdecode Houts]].
  assert (Hlogits : Forall2 (fun (sample : list (tensor F)) (out : tensor F) =>
                               shape out = k :: [448; 448]%nat /\ wf out)
                            embeddings outs) by exact Houts.
  destruct (sum_of_leads (fun _ : list (tensor F) => k) embeddings outs
              [448; 448]%nat Hlogits) as [Hu Hsum].
  assert (Htotal : fold_right Nat.add 0%nat (map (fun _ : list (tensor F) => k) embeddings)
                   = (List.length embeddings * k)%nat).
  { clear. induction embeddings as [|s l IH]; simpl; [reflexivity|]. now rewrite IH. }
  rewrite Htotal in Hsum.
  assert (Houtsne : outs <> []).
  { intros ->. inversion Houts; subst. contradiction. }
  pose proof (cat0_uniform _ outs Houtsne Hu) as Hcat. rewrite Hsum in Hcat.
  pose proof (cat0_uniform _ ts Htsne Hut) as Hcatt.
  destruct (argmax1_classes
              (Tensor.mk ((List.length embeddings * k)%nat :: [448; 448]%nat)
                         (concat (map data outs)))
              (List.length embeddings * k) 448 [448%nat] eq_refl)
    as [preds [Hpreds [Hshape [_ Hrange]]]].
  { unfold wf. cbn [shape data]. rewrite (uniform_cat_wf _ _ Hu), Hsum. reflexivity. }
  { discriminate. }
  eexists.
  unfold LinearPostprocessor.forward. cbn [LinearPostprocessor.decoder].
  unfold LinearDecoder.forward. rewrite Hdec. cbn [volumes rbind].
  rewrite Hdecode. cbn [rbind]. rewrite Hcat. cbn [rbind]. rewrite Hcatt.
  cbn [rbind fst snd]. rewrite Hpreds. cbn [rbind].
  split; [reflexivity|]. cbn [LinearPostprocessor.preds].
  split; [exact Hshape|exact Hrange].
Qed.

End SingleSlices.

Lemma single_slice_batch_is_misread_witness :
  exists out : LinearPostprocessor.output,
    LinearPostprocessor.forward
      {| LinearPostprocessor.decoder := LinearDecoder.forward Fixtures.decoder3d |}
      (Batch3d [[Fixtures.slice 1 2]; [Fixtures.slice 3 4]])
      (VList [Tensor.mk [1; 2]%nat [0; 1]%Z; Tensor.mk [1; 2]%nat [1; 1]%Z]) = Ok out
    /\ shape (LinearPostprocessor.preds out)
       = [(List.length [[Fixtures.slice 1 2]; [Fixtures.slice 3 4]]
           * LinearDecoder.conv_out (LinearDecoder.decoder Fixtures.decoder3d))%nat; 448%nat]
    /\ Forall (fun p => (0 <= p < 448)%Z) (data (LinearPostprocessor.preds out)).
Proof.
  apply (single_slice_batch_is_misread Fixtures.decoder3d
           [[Fixtures.slice 1 2]; [Fixtures.slice 3 4]]
           [Tensor.mk [1; 2]%nat [0; 1]%Z; Tensor.mk [1; 2]%nat [1; 1]%Z] [2%nat]).
  - exact toy_backend_sound.
  - reflexivity.
  - reflexivity.
  - simpl. lia.
  - discriminate.
  - discriminate.
  - repeat constructor; eexists; split; reflexivity.
  - discriminate.
  - repeat constructor.
Defined.

(** ** The encoder without patch tokens, and in 2D mode *)

Lemma dict_get_absent {V} (d : dict V) (k : string) :
  ~ In k (keys d) -> dict_get d k = Raise (KeyError k).
Proof.
  induction d as [|[k' v] d IH]; intros Hnot; simpl; [reflexivity|].
  destruct (String.eqb_spec k' k) as [->|Hne].
  - exfalso. apply Hnot. now left.
  - apply IH. intros Hin. apply Hnot. now right.
Qed.

Section Encoder.

Local Open Scope list_scope.

Context {F : Type} `{Torch F}.

Lemma forward_scans_without_tokens (self : DINOV2Encoder.t F) (scans : list (tensor F))
  (tr : list (tensor F)) :
  (forall y, ~ In "x_norm_patchtokens" (keys (DINOV2Encoder.encoder self y))) ->
  DINOV2Encoder.forward_scans self scans tr
  = match filter non_empty scans with
    | [] => (Ok [], tr)
    | scan :: _ => (Raise (KeyError "x_norm_patchtokens"), tr ++ [unsqueeze0 scan])
    end.
Proof.
  intros Hkey. induction scans as [|scan scans IH]; simpl; [reflexivity|].
  unfold non_empty at 1. destruct (negb (is_zero_matrix scan)).
  - unfold bind, DINOV2Encoder.forward_, emit, lift. cbv beta iota.
    now rewrite (dict_get_absent _ _ (Hkey (unsqueeze0 scan))).
  - exact IH.
Qed.

(** X16.  A backbone whose output has no entry ["x_norm_patchtokens"].  In
    2D mode the encoder calls it once, on the batch as given, and raises
    [KeyError].  In 3D mode it raises [KeyError] after exactly one call, on
    the first slice that is not all zero; a batch without such a slice is
    answered (one empty sequence per sample) without any call. *)
Theorem encoder_without_patch_tokens (self : DINOV2Encoder.t F) (tr : list (tensor F)) :
  (forall y, ~ In "x_norm_patchtokens" (keys (DINOV2Encoder.encoder self y))) ->
  (forall t : tensor F,
     DINOV2Encoder.is_3d self = false ->
     DINOV2Encoder.forward self (Batch2d t) tr
     = (Raise (KeyError "x_norm_patchtokens"), tr ++ [t]))
  /\ (forall x : batch3d F,
        DINOV2Encoder.is_3d self = true ->
        DINOV2Encoder.forward self (Batch3d x) tr
        = match concat (non_empty_slices x) with
          | [] => (Ok (Batch3d (map (fun _ => []) x)), tr)
          | scan :: _ => (Raise (KeyError "x_norm_patchtokens"), tr ++ [unsqueeze0 scan])
          end).
Proof.
  intros Hkey. split.
  - intros t H2d. unfold DINOV2Encoder.forward. rewrite H2d.
    unfold bind, DINOV2Encoder.forward_, emit, lift. cbv beta iota.
    now rewrite (dict_get_absent _ _ (Hkey t)).
  - intros x H3d. unfold DINOV2Encoder.forward. rewrite H3d.
    unfold bind at 1. unfold lift. cbn [volumes]. unfold DINOV2Encoder.forward_3d.
    revert tr. induction x as [|sample x IH]; intros tr.
    + reflexivity.
    + unfold bind at 1. cbn [mapM]. unfold bind at 1.
      rewrite (forward_scans_without_tokens self sample tr Hkey).
      unfold non_empty_slices. cbn [map concat].
      destruct (filter non_empty sample) as [|scan rest] eqn:Hsample.
      * cbn [app]. unfold bind at 1. specialize (IH tr). unfold bind at 1 in IH.
        fold (non_empty_slices x).
        destruct (mapM (DINOV2Encoder.forward_scans self) x tr) as [[feats|e] tr'] eqn:Hrest.
        -- unfold ret in *. cbv beta iota in *.
           destruct (concat (non_empty_slices x)); inversion IH; subst; reflexivity.
        -- cbv beta iota in *. destruct (concat (non_empty_slices x)); inversion IH.
           reflexivity.
      * reflexivity.
Qed.

End Encoder.

Lemma encoder_without_patch_tokens_witness :
  DINOV2Encoder.forward
    {| DINOV2Encoder.encoder := fun x : tensor Z => [("x_norm_clstoken", x)];
       DINOV2Encoder.is_3d := true |}
    (Batch3d [[Fixtures.slice 0 0; Fixtures.slice 1 2; Fixtures.slice 3 4]]) []
  = (Raise (KeyError "x_norm_patchtokens"), [unsqueeze0 (Fixtures.slice 1 2)]).
Proof.
  destruct (encoder_without_patch_tokens
              {| DINOV2Encoder.encoder := fun x : tensor Z => [("x_norm_clstoken", x)];
                 DINOV2Encoder.is_3d := true |} []) as [_ H3d].
  - intros y [Heq|[]]. discriminate.
  - apply (H3d [[Fixtures.slice 0 0; Fixtures.slice 1 2; Fixtures.slice 3 4]]). reflexivity.
Defined.

Lemma dispatch_with_several_heads_witness :
  fst (classifier_forward_pass Fixtures.total_feature Fixtures.two_heads
         (Batch3d [[Fixtures.slice 1 2; Fixtures.slice 0 0; Fixtures.slice 3 4];
                   [Fixtures.slice 0 0; Fixtures.slice 5 6]]) true [])
  = Ok [("a", Tensor.mk [2; 3]%nat [10; 1; 2; 11; 1; 2]%Z);
        ("b", Tensor.mk [2; 3]%nat [21; 10; 20; 11; 10; 20]%Z)].
Proof.
  rewrite (dispatch_with_several_heads Fixtures.total_feature Fixtures.two_heads
             [[Fixtures.slice 1 2; Fixtures.slice 0 0; Fixtures.slice 3 4];
              [Fixtures.slice 0 0; Fixtures.slice 5 6]] [] [3%nat]).
  - reflexivity.
  - repeat constructor; simpl; intuition discriminate.
  - simpl. lia.
  - discriminate.
  - intros kv batch_feature Hkv _. simpl in Hkv.
    destruct Hkv as [<-|[<-|[]]]; split; reflexivity.
Defined.

Lemma dispatch_with_one_head_witness :
  fst (classifier_forward_pass Fixtures.total_feature Fixtures.one_head
         (Batch3d [[Fixtures.slice 1 2; Fixtures.slice 0 0; Fixtures.slice 3 4];
                   [Fixtures.slice 0 0; Fixtures.slice 5 6]]) true [])
  <> Ok [("a", Tensor.mk [2; 3]%nat [10; 1; 2; 11; 1; 2]%Z)]
  /\ fst (classifier_forward_pass Fixtures.total_feature Fixtures.one_head
            (Batch3d [[Fixtures.slice 1 2; Fixtures.slice 0 0; Fixtures.slice 3 4];
                      [Fixtures.slice 0 0; Fixtures.slice 5 6]]) true [])
     <> Ok [("a", Tensor.mk [3; 2]%nat [10; 11; 1; 1; 2; 2]%Z)].
Proof.
  split;
    apply (dispatch_with_one_head Fixtures.total_feature "a" Fixtures.head_a
             [[Fixtures.slice 1 2; Fixtures.slice 0 0; Fixtures.slice 3 4];
              [Fixtures.slice 0 0; Fixtures.slice 5 6]] [] [3%nat]);
    first [discriminate | intros batch_feature _; reflexivity].
Defined.

(** ** dinov2/eval/classification/utils.py: the other paths *)

Section Dispatch2d.

Local Open Scope list_scope.

Context {X F : Type} `{Torch F}.

(** X19.  The 2D dispatch calls the feature model exactly once, on the whole
    batch (no slice is skipped, an all-zero batch included), and returns one
    entry per head, in declaration order: the head's output on the
    one-element feature list. *)
Theorem dispatch_2d_calls_once (feature_model : tensor F -> X)
  (heads : wrapped_heads X F) (x : tensor F) (tr : list (tensor F)) :
  NoDup (keys (AllClassifiers.classifiers_dict (module heads))) ->
  classifier_forward_pass feature_model heads (Batch2d x) false tr
  = (Ok (map (fun kv => (fst kv, snd kv [feature_model x]))
             (AllClassifiers.classifiers_dict (module heads))),
     tr ++ [x]).
Proof.
  intros Hnd. unfold classifier_forward_pass, call_feature_model, bind, emit, ret.
  cbv beta iota. now rewrite heads_forward.
Qed.

(** X20.  The 3D dispatch on a batch without samples, or with heads whose
    dictionary is empty, raises [RuntimeError]: [torch.stack] is handed an
    empty list.  The feature model has been called on every non-empty slice
    before. *)
Theorem dispatch_3d_needs_samples_and_heads (feature_model : tensor F -> X)
  (heads : wrapped_heads X F) (x : batch3d F) (tr : list (tensor F)) :
  x = [] \/ AllClassifiers.classifiers_dict (module heads) = [] ->
  classifier_forward_pass feature_model heads (Batch3d x) true tr
  = (Raise (RuntimeError "stack expects a non-empty TensorList"),
     tr ++ map unsqueeze0 (concat (non_empty_slices x))).
Proof.
  intros Hdeg. unfold classifier_forward_pass. cbn [volumes].
  unfold bind at 1. unfold lift at 1. cbv beta iota.
  unfold bind at 1. rewrite feature_extraction_run. cbv beta iota.
  destruct x as [|sample x].
  - reflexivity.
  - destruct Hdeg as [Hx|Hheads]; [discriminate|].
    unfold AllClassifiers.forward. rewrite Hheads.
    unfold non_empty_slices. cbn [map rmap values dict_update fold_left stack0 rbind].
    reflexivity.
Qed.

End Dispatch2d.

Lemma dispatch_2d_calls_once_witness :
  classifier_forward_pass Fixtures.total_feature Fixtures.two_heads
    (Batch2d (Fixtures.slice 0 0)) false []
  = (Ok [("a", Tensor.mk [3%nat] [0; 1; 2]%Z); ("b", Tensor.mk [3%nat] [0; 10; 20]%Z)],
     [Fixtures.slice 0 0]).
Proof.
  apply (dispatch_2d_calls_once Fixtures.total_feature Fixtures.two_heads
           (Fixtures.slice 0 0) []).
  repeat constructor; simpl; intuition discriminate.
Defined.

Lemma dispatch_3d_needs_samples_and_heads_witness :
  classifier_forward_pass Fixtures.total_feature
    {| module := {| AllClassifiers.classifiers_dict := [] |} |}
    (Batch3d [[Fixtures.slice 1 2; Fixtures.slice 0 0]]) true []
  = (Raise (RuntimeError "stack expects a non-empty TensorList"),
     [unsqueeze0 (Fixtures.slice 1 2)]).
Proof.
  rewrite (dispatch_3d_needs_samples_and_heads Fixtures.total_feature
             {| module := {| AllClassifiers.classifiers_dict := [] |} |}
             [[Fixtures.slice 1 2; Fixtures.slice 0 0]] []).
  - reflexivity.
  - right. reflexivity.
Defined.

(** ** dinov2/eval/mlknn.py: the sampling helpers *)

Section ClassIndices.

Local Open Scope list_scope.

Lemma in_insert_unique (x y : Z) (l : list Z) :
  In y (insert_unique x l) <-> y = x \/ In y l.
Proof.
  induction l as [|z l IH]; simpl.
  - intuition.
  - destruct (Z.ltb_spec x z) as [Hlt|Hge].
    + simpl. intuition.
    + destruct (Z.eqb_spec x z) as [->|Hne].
      * simpl. intuition.
      * simpl. rewrite IH. intuition.
Qed.

Lemma insert_unique_sorted (x : Z) (l : list Z) :
  StronglySorted Z.lt l -> StronglySorted Z.lt (insert_unique x l).
Proof.
  induction 1 as [|z l Hs IH Hall]; simpl.
  - repeat constructor.
  - destruct (Z.ltb_spec x z) as [Hlt|Hge].
    + constructor; [now constructor|]. constructor; [exact Hlt|].
      eapply Forall_impl; [|exact Hall]. intros a Ha. simpl in Ha. lia.
    + destruct (Z.eqb_spec x z) as [->|Hne].
      * now constructor.
      * constructor; [exact IH|]. apply Forall_forall. intros a Ha.
        apply in_insert_unique in Ha. destruct Ha as [->|Ha]; [lia|].
        rewrite Forall_forall in Hall. now apply Hall.
Qed.

Lemma unique_sorted (labels : list Z) : StronglySorted Z.lt (unique labels).
Proof.
  unfold unique. induction labels as [|x labels IH]; simpl; [constructor|].
  now apply insert_unique_sorted.
Qed.

Lemma in_unique (labels : list Z) (x : Z) : In x (unique labels) <-> In x labels.
Proof.
  unfold unique. induction labels as [|y labels IH]; simpl; [reflexivity|].
  rewrite in_insert_unique, IH. intuition.
Qed.

Lemma sorted_nodup (l : list Z) : StronglySorted Z.lt l -> NoDup l.
Proof.
  induction 1 as [|z l Hs IH Hall]; constructor; [|exact IH].
  intros Hin. rewrite Forall_forall in Hall. specialize (Hall z Hin). lia.
Qed.

Lemma index_of_nth (l : list Z) (i : nat) :
  NoDup l -> (i < List.length l)%nat -> index_of (nth i l 0%Z) l = i.
Proof.
  revert i. induction l as [|y l IH]; intros i Hnd Hi; simpl in *; [lia|].
  inversion Hnd as [|? ? Hnot Hnd']; subst.
  destruct i as [|i].
  - now rewrite Z.eqb_refl.
  - destruct (Z.eqb_spec (nth i l 0%Z) y) as [Heq|Hne].
    + exfalso. apply Hnot. rewrite <- Heq. apply nth_In. lia.
    + f_equal. apply IH; [exact Hnd'|lia].
Qed.

Lemma nth_index_of (l : list Z) (x : Z) :
  In x l -> (index_of x l < List.length l)%nat /\ nth (index_of x l) l 0%Z = x.
Proof.
  induction l as [|y l IH]; intros Hin; [contradiction|]. simpl.
  destruct (Z.eqb_spec x y) as [->|Hne].
  - split; [lia|reflexivity].
  - destruct Hin as [->|Hin]; [contradiction|].
    destruct (IH Hin). split; [lia|assumption].
Qed.

Lemma filter_combine_seq {A} (f : A -> bool) (l : list A) (start : nat) :
  map fst (filter (fun row => f (snd row)) (combine (seq start (List.length l)) l))
  = filter (fun i => match nth_error l (i - start) with
                     | Some a => f a
                     | None => false
                     end)
           (seq start (List.length l)).
Proof.
  revert start. induction l as [|a l IH]; intros start; simpl; [reflexivity|].
  rewrite Nat.sub_diag. simpl.
  assert (Hrest : filter (fun i => match nth_error (a :: l) (i - start) with
                                   | Some a0 => f a0
                                   | None => false
                                   end) (seq (S start) (List.length l))
                  = filter (fun i => match nth_error l (i - S start) with
                                     | Some a0 => f a0
                                     | None => false
                                     end) (seq (S start) (List.length l))).
  { apply filter_ext_in. intros i Hi. apply in_seq in Hi.
    replace (i - start)%nat with (S (i - S start)) by lia. reflexivity. }
  destruct (f a); simpl; now rewrite IH, Hrest.
Qed.

(** The positions a class occupies in [labels], in ascending order. *)
Lemma nonzero_positions (labels : list Z) (k : Z) (i : nat) :
  NoDup (unique labels) -> (i < List.length (unique labels))%nat ->
  nth i (unique labels) 0%Z = k ->
  nonzero (map (fun v => (v =? i)%nat) (map (fun x => index_of x (unique labels)) labels))
  = Tensor.mk [List.length (filter (fun p => (nth p labels 0 =? k)%Z)
                                   (seq 0 (List.length labels))); 1%nat]
              (map Z.of_nat (filter (fun p => (nth p labels 0 =? k)%Z)
                                    (seq 0 (List.length labels)))).
Proof.
  intros Hnd Hi Hk. unfold nonzero. cbv zeta. rewrite !length_map.
  assert (Hpos : map (fun row : nat * bool => Z.of_nat (fst row))
                     (filter (fun row => snd row)
                             (combine (seq 0 (List.length labels))
                                (map (fun v => (v =? i)%nat)
                                   (map (fun x => index_of x (unique labels)) labels))))
                 = map Z.of_nat (filter (fun p => (nth p labels 0 =? k)%Z)
                                        (seq 0 (List.length labels)))).
  { rewrite <- (map_map fst Z.of_nat). f_equal.
    pose proof (filter_combine_seq (fun b : bool => b)
                  (map (fun v => (v =? i)%nat)
                     (map (fun x => index_of x (unique labels)) labels)) 0) as Hf.
    rewrite !length_map in Hf. rewrite Hf.
    apply filter_ext_in. intros p Hp. apply in_seq in Hp.
    rewrite Nat.sub_0_r, map_map, nth_error_map.
    destruct (nth_error labels p) as [x|] eqn:Hx.
    - simpl. rewrite (nth_error_nth _ _ 0%Z Hx).
      assert (Hin : In x (unique labels))
        by (apply in_unique; eapply nth_error_In; exact Hx).
      destruct (nth_index_of _ _ Hin) as [Hlt Hnth].
      destruct (Z.eqb_spec x k) as [Heq|Hne].
      + apply Nat.eqb_eq. subst x. rewrite <- Hk. now apply index_of_nth.
      + apply Nat.eqb_neq. intros Hidx. apply Hne. rewrite <- Hnth, Hidx. exact Hk.
    - apply nth_error_None in Hx. lia. }
  pose proof (f_equal (@List.length Z) Hpos) as Hlen.
  rewrite !length_map in Hlen. now rewrite Hpos, Hlen.
Qed.

Lemma class_positions_disjoint (ks : list Z) (f : nat -> Z) (l : list nat) :
  NoDup ks -> NoDup l ->
  NoDup (concat (map (fun k => filter (fun p => (f p =? k)%Z) l) ks)).
Proof.
  intros Hks Hl. induction Hks as [|k ks Hnot Hks IH]; simpl; [constructor|].
  apply NoDup_app; [now apply NoDup_filter|exact IH|].
  intros p Hp Hq. apply filter_In in Hp. destruct Hp as [_ Hp].
  apply Z.eqb_eq in Hp. apply in_concat in Hq. destruct Hq as [blk [Hblk Hq]].
  apply in_map_iff in Hblk. destruct Hblk as [k' [<- Hk']].
  apply filter_In in Hq. destruct Hq as [_ Hq]. apply Z.eqb_eq in Hq.
  apply Hnot. congruence.
Qed.

Lemma mapping_entries (labels : list Z) :
  create_class_indices_mapping labels
  = map (fun k =>
           (k, Tensor.mk [List.length (filter (fun p => (nth p labels 0 =? k)%Z)
                                              (seq 0 (List.length labels))); 1%nat]
                         (map Z.of_nat (filter (fun p => (nth p labels 0 =? k)%Z)
                                               (seq 0 (List.length labels))))))
        (unique labels).
Proof.
  unfold create_class_indices_mapping. cbv zeta.
  pose proof (sorted_nodup _ (unique_sorted labels)) as Hnd.
  match goal with
  | |- _ = map ?g _ =>
      replace (map g (unique labels))
        with (map g (map (fun i => nth i (unique labels) 0%Z)
                         (seq 0 (List.length (unique labels)))))
        by (now rewrite <- (row_as_table 0%Z _ (unique labels) eq_refl))
  end.
  rewrite map_map. apply map_ext_in. intros i Hi. apply in_seq in Hi.
  f_equal. apply nonzero_positions; [exact Hnd|lia|reflexivity].
Qed.

(** X21.  [create_class_indices_mapping] partitions the sample positions by
    label.  Its keys are the distinct labels in strictly ascending order;
    the entry of a label is a one-column tensor holding, in ascending order,
    exactly the positions at which that label occurs; taken together the
    entries hold every position [0 .. len-1] exactly once. *)
Theorem class_indices_partition (labels : list Z) :
  let mapping := create_class_indices_mapping labels in
  StronglySorted Z.lt (map fst mapping)
  /\ (forall x, In x (map fst mapping) <-> In x labels)
  /\ (forall k members,
        In (k, members) mapping ->
        shape members = [List.length (data members); 1%nat]
        /\ data members
           = map Z.of_nat (filter (fun p => (nth p labels 0 =? k)%Z)
                                  (seq 0 (List.length labels))))
  /\ Permutation (concat (map (fun kv => data (snd kv)) mapping))
                 (map Z.of_nat (seq 0 (List.length labels))).
Proof.
  intros mapping. unfold mapping. rewrite mapping_entries.
  rewrite !map_map. cbn [fst snd data]. rewrite map_id.
  split; [apply unique_sorted|]. split; [apply in_unique|]. split.
  - intros k members Hin. apply in_map_iff in Hin. destruct Hin as [k' [Heq _]].
    inversion Heq; subst. cbn [shape data]. now rewrite length_map.
  - rewrite <- (map_map (fun k => filter (fun p => (nth p labels 0 =? k)%Z)
                                         (seq 0 (List.length labels)))
                        (map Z.of_nat)).
    rewrite <- concat_map. apply Permutation_map. apply NoDup_Permutation.
    + apply class_positions_disjoint; [|apply seq_NoDup].
      apply sorted_nodup, unique_sorted.
    + apply seq_NoDup.
    + intros p. split.
      * intros Hp. apply in_concat in Hp. destruct Hp as [blk [Hblk Hp]].
        apply in_map_iff in Hblk. destruct Hblk as [k [<- _]].
        apply filter_In in Hp. tauto.
      * intros Hp. apply in_concat.
        exists (filter (fun q => (nth q labels 0 =? nth p labels 0)%Z)
                       (seq 0 (List.length labels))).
        split.
        -- apply in_map_iff. exists (nth p labels 0%Z). split; [reflexivity|].
           apply in_unique. apply nth_In. apply in_seq in Hp. lia.
        -- apply filter_In. split; [exact Hp|apply Z.eqb_refl].
Qed.

End ClassIndices.

Section Sampling.

Local Open Scope list_scope.








End Sampling.

Section Selection.

Local Open Scope list_scope.












End Selection.

Lemma class_indices_partition_witness :
  shape (Tensor.mk [3; 1]%nat [0; 2; 5]%Z)
  = [List.length (data (Tensor.mk [3; 1]%nat [0; 2; 5]%Z)); 1%nat]
  /\ data (Tensor.mk [3; 1]%nat [0; 2; 5]%Z)
     = map Z.of_nat (filter (fun p => (nth p [2; 0; 2; 1; 0; 2]%Z 0 =? 2)%Z)
                            (seq 0 (List.length [2; 0; 2; 1; 0; 2]%Z))).
Proof.
  destruct (class_indices_partition [2; 0; 2; 1; 0; 2]%Z) as [_ [_ [Hentry _]]].
  apply (Hentry 2%Z (Tensor.mk [3; 1]%nat [0; 2; 5]%Z)).
  right. right. left. reflexivity.
Defined.





(** ** [ModuleDictWithForward] *)

Section Modules.

Local Open Scope list_scope.

Context {X Y : Type}.

Lemma rmap_first_raise {A B} (f : A -> result B) (before after : list A) (x : A)
  (e : exn) (ys : list B) :
  Forall2 (fun a y => f a = Ok y) before ys -> f x = Raise e ->
  rmap f (before ++ x :: after) = Raise e.
Proof.
  induction 1 as [|a y before ys Hay _ IH]; intros Hx; simpl.
  - now rewrite Hx.
  - rewrite Hay. simpl. now rewrite IH.
Qed.

(** X24.  [ModuleDictWithForward.forward].  If every module returns, the
    result holds one entry per module, under the module's key and in
    insertion order.  If a module raises after all modules before it have
    returned, the call raises that module's exception; no later module
    decides the outcome. *)
Theorem module_dict_forward (modules : dict (X -> result Y)) (args : X) :
  NoDup (keys modules) ->
  (forall outs : list Y,
     Forall2 (fun kv out => snd kv args = Ok out) modules outs ->
     ModuleDictWithForward_forward modules args = Ok (combine (keys modules) outs))
  /\ (forall (before after : dict (X -> result Y)) (k : string) (m : X -> result Y)
             (outs : list Y) (e : exn),
        modules = before ++ (k, m) :: after ->
        Forall2 (fun kv out => snd kv args = Ok out) before outs ->
        m args = Raise e ->
        ModuleDictWithForward_forward modules args = Raise e).
Proof.
  intros Hnd. split.
  - intros outs Houts. unfold ModuleDictWithForward_forward.
    rewrite (rmap_forall2 _ modules (combine (keys modules) outs)).
    + simpl rbind. rewrite dict_update_fresh; [reflexivity|].
      simpl. rewrite keys_combine; [exact Hnd|].
      unfold keys. rewrite length_map. exact (Forall2_length Houts).
    + clear Hnd. induction Houts as [|kv out ms outs' Hkv _ IH]; simpl; constructor.
      * now rewrite Hkv.
      * exact IH.
  - intros before after k m outs e -> Hbefore Hraise.
    unfold ModuleDictWithForward_forward.
    rewrite (rmap_first_raise _ before after (k, m) e (combine (keys before) outs)).
    + reflexivity.
    + clear Hnd. induction Hbefore as [|kv out ms outs' Hkv _ IH]; simpl; constructor.
      * now rewrite Hkv.
      * exact IH.
    + simpl. now rewrite Hraise.
Qed.

End Modules.

Lemma module_dict_forward_witness :
  ModuleDictWithForward_forward
    [("a", fun x : Z => Ok (x + 1)%Z); ("b", fun x : Z => Ok (2 * x)%Z)] 5%Z
  = Ok [("a", 6%Z); ("b", 10%Z)].
Proof.
  destruct (module_dict_forward
              [("a", fun x : Z => Ok (x + 1)%Z); ("b", fun x : Z => Ok (2 * x)%Z)] 5%Z)
    as [Hok _].
  - repeat constructor; simpl; intuition discriminate.
  - apply (Hok [6; 10]%Z). repeat constructor.
Defined.
